(** * Spreadsheet ingestion and normalization pipeline of the project-review
      backend (backend/data_manager.py): a shallow embedding and the
      properties proved about it.

    Text is modelled as [string] over ASCII; Python's [str] methods and the
    regular expressions of the source are written out as functions on
    strings.  The group-identifier extractor is given a second time on code
    points, with the character classes and the capital letters of Unicode
    as a parameter, for what it does outside ASCII.  The relational store
    is three finite maps keyed as the data model keys its tables. *)

From Stdlib Require Import ZArith Ascii String List Bool Lia DecimalString.
From stdpp Require Import base option gmap strings list fin_maps sorting.

Local Open Scope string_scope.

(* ===================================================================== *)
(** ** Python string primitives (ASCII range) *)
(* ===================================================================== *)

Module PyStr.

Definition code (c : ascii) : nat := nat_of_ascii c.

Definition in_range (lo hi : nat) (c : ascii) : bool :=
  (lo <=? code c)%nat && (code c <=? hi)%nat.

(** [str.isspace] on one character: TAB..CR, FS..US and the blank. *)
Definition is_space (c : ascii) : bool :=
  in_range 9 13 c || in_range 28 32 c.

Definition is_digit (c : ascii) : bool := in_range 48 57 c.
Definition is_upper (c : ascii) : bool := in_range 65 90 c.
Definition is_lower (c : ascii) : bool := in_range 97 122 c.

(** The class [\w] of [re]: letters, digits and the underscore. *)
Definition is_word (c : ascii) : bool :=
  is_lower c || is_upper c || is_digit c || Ascii.eqb c "_".

Definition lower_char (c : ascii) : ascii :=
  if is_upper c then ascii_of_nat (code c + 32) else c.

Definition upper_char (c : ascii) : ascii :=
  if is_lower c then ascii_of_nat (code c - 32) else c.

Fixpoint map_chars (f : ascii -> ascii) (s : string) : string :=
  match s with
  | EmptyString => EmptyString
  | String c s' => String (f c) (map_chars f s')
  end.

(** [s.lower()] and [s.upper()]. *)
Definition lower : string -> string := map_chars lower_char.
Definition upper : string -> string := map_chars upper_char.

Fixpoint lstrip (s : string) : string :=
  match s with
  | String c s' => if is_space c then lstrip s' else s
  | EmptyString => EmptyString
  end.

Fixpoint rstrip (s : string) : string :=
  match s with
  | EmptyString => EmptyString
  | String c s' =>
      match rstrip s' with
      | EmptyString => if is_space c then EmptyString else String c EmptyString
      | r => String c r
      end
  end.

(** [s.strip()]. *)
Definition strip (s : string) : string := rstrip (lstrip s).

(** [s.startswith(p)]. *)
Fixpoint startswith (p s : string) : bool :=
  match p, s with
  | EmptyString, _ => true
  | String a p', String b s' => Ascii.eqb a b && startswith p' s'
  | String _ _, EmptyString => false
  end.

(** [p in s] for strings. *)
Fixpoint contains (p s : string) : bool :=
  startswith p s ||
  match s with
  | EmptyString => false
  | String _ s' => contains p s'
  end.

(** [any(p in s for p in ps)]. *)
Definition any_in (ps : list string) (s : string) : bool :=
  existsb (fun p => contains p s) ps.

(** The slices [s[:n]] and [s[n:]]. *)
Fixpoint take (n : nat) (s : string) : string :=
  match n, s with
  | S n', String c s' => String c (take n' s')
  | _, _ => EmptyString
  end.

Fixpoint drop (n : nat) (s : string) : string :=
  match n, s with
  | S n', String _ s' => drop n' s'
  | _, _ => s
  end.

(** A string is truthy when it is not empty. *)
Definition truthy (s : string) : bool :=
  match s with EmptyString => false | _ => true end.

(** [s.isdigit()]: not empty and digits only. *)
Fixpoint all_chars (p : ascii -> bool) (s : string) : bool :=
  match s with
  | EmptyString => true
  | String c s' => p c && all_chars p s'
  end.

Definition isdigit (s : string) : bool := truthy s && all_chars is_digit s.

(** [s.replace(a, b)] for a one-character [a]. *)
Fixpoint replace_char (a : ascii) (b : string) (s : string) : string :=
  match s with
  | EmptyString => EmptyString
  | String c s' =>
      if Ascii.eqb c a then b +:+ replace_char a b s'
      else String c (replace_char a b s')
  end.

(** [s.split(sep)] for a one-character separator; [acc] holds the
    characters of the current field, last one first. *)
Fixpoint split_on (sep : ascii) (acc : string) (s : string) : list string :=
  match s with
  | EmptyString => [String.rev acc]
  | String c s' =>
      if Ascii.eqb c sep then String.rev acc :: split_on sep EmptyString s'
      else split_on sep (String c acc) s'
  end.

Definition split (sep : ascii) (s : string) : list string :=
  split_on sep EmptyString s.

(** [sep.join(xs)]. *)
Definition join (sep : string) (xs : list string) : string :=
  String.concat sep xs.

(** [s.zfill(2)] for a string of digits. *)
Definition zfill2 (s : string) : string :=
  match String.length s with
  | 0 => "00"
  | 1 => "0" +:+ s
  | _ => s
  end.

(** [re.sub(r'[C]+', ' ', s)]: every maximal run of characters of the
    class [p] becomes one blank; [in_run] tells that the previous
    character belonged to the run being replaced. *)
Fixpoint sub_runs (p : ascii -> bool) (in_run : bool) (s : string) : string :=
  match s with
  | EmptyString => EmptyString
  | String c s' =>
      if p c then
        if in_run then sub_runs p true s'
        else String " " (sub_runs p true s')
      else String c (sub_runs p false s')
  end.

(** [re.sub(r'[C]', '', s)]: the characters of the class are removed. *)
Fixpoint remove_chars (p : ascii -> bool) (s : string) : string :=
  match s with
  | EmptyString => EmptyString
  | String c s' =>
      if p c then remove_chars p s' else String c (remove_chars p s')
  end.

(** [re.sub(r'\b(w1|w2|...)\b', '', s)] for alternatives made of word
    characters only: a match lies between two word boundaries, so it is a
    maximal run of word characters, and it is removed when [kill] accepts
    it.  [acc] holds the run being read, last character first. *)
Definition flush (kill : string -> bool) (acc : string) : string :=
  let w := String.rev acc in if kill w then EmptyString else w.

Fixpoint sub_words (kill : string -> bool) (acc : string) (s : string) : string :=
  match s with
  | EmptyString => flush kill acc
  | String c s' =>
      if is_word c then sub_words kill (String c acc) s'
      else flush kill acc +:+ String c (sub_words kill EmptyString s')
  end.

(** No character of the string is one of [seps]. *)
Definition free_of (seps : list ascii) (s : string) : bool :=
  all_chars (fun c => negb (existsb (Ascii.eqb c) seps)) s.

End PyStr.

(* ===================================================================== *)
(** ** Header normalizer *)
(* ===================================================================== *)

Module Header.
Import PyStr.

Definition hyphen_space (c : ascii) : bool :=
  Ascii.eqb c "_" || Ascii.eqb c "-" || is_space c.

Definition not_word_space (c : ascii) : bool :=
  negb (is_word c || is_space c).

(** The four cleaning lines of [normalize_column_name]. *)
Definition clean_column_name (column_name : string) : string :=
  let col_name := lower (strip column_name) in
  let col_name := sub_runs hyphen_space false col_name in
  let col_name := remove_chars not_word_space col_name in
  strip (sub_runs is_space false col_name).

(** [normalize_column_name]: [None] for an empty header, else the first
    keyword group that matches, else the header as it came. *)
Definition normalize_column_name (column_name : string) : option string :=
  if negb (truthy column_name) then None else
  let col_name := clean_column_name column_name in
  if any_in ["group no"; "grp no"; "group number"; "group id"; "grp id"] col_name
  then Some "Group No."
  else if any_in ["roll no"; "roll number"; "rollno"; "roll"; "student id"] col_name
  then Some "Roll No."
  else if any_in ["name of the group member"; "name of group member";
                  "group member name"; "name of members"; "member name";
                  "student name"; "name"] col_name
          && negb (contains "guide" col_name)
          && negb (contains "company" col_name)
          && negb (contains "panel" col_name)
  then Some "Name of the group member"
  else if any_in ["contact details"; "contact"; "phone"; "mobile"; "email";
                  "contact info"] col_name
  then Some "Contact details"
  else if any_in ["project domain"; "projects domain"; "domain"; "field";
                  "area"] col_name
  then Some "Project Domain"
  else if any_in ["title of the project"; "project title"; "title";
                  "final title"; "project name"; "title of project"] col_name
  then Some "Title of the Project"
  else if any_in ["name of the sponsored company"; "sponsored company";
                  "sponsor company"; "company name"; "sponsoring company";
                  "name of sponsored"] col_name
  then Some "Name of the sponsored company "
  else if any_in ["name of the guide"; "guide name"; "guide"; "supervisor";
                  "mentor name"; "faculty guide"] col_name
  then Some "Name of the Guide"
  else if any_in ["track"; "panel no"; "panel number"] col_name
  then Some "Track"
  else if any_in ["name of the panel"; "panel name"; "panel members";
                  "panel professors"; "evaluators"; "panel faculty"] col_name
  then Some "Name of the Panel"
  else if any_in ["group id"; "groups"; "group nos"; "assigned groups"] col_name
  then Some "Group ID"
  else if any_in ["location"; "room"; "venue"; "place"] col_name
  then Some "Location"
  else Some column_name.

(** The header vocabulary as the glossary spells it. *)
Definition canonical_headers : list string :=
  ["Group No."; "Roll No."; "Name of the group member"; "Contact details";
   "Project Domain"; "Title of the Project"; "Name of the sponsored company";
   "Name of the Guide"; "Track"; "Name of the Panel"; "Group ID"; "Location"].

(** The names the normalizer returns, "Group ID" apart; the sponsor header
    ends with a blank, as the roster walk reads it. *)
Definition stable_headers : list string :=
  ["Group No."; "Roll No."; "Name of the group member"; "Contact details";
   "Project Domain"; "Title of the Project"; "Name of the sponsored company ";
   "Name of the Guide"; "Track"; "Name of the Panel"; "Location"].

(** The twelve names [normalize_column_name] can return for a header it
    recognises. *)
Definition returned_headers : list string :=
  "Group ID" :: stable_headers.

End Header.

(* ===================================================================== *)
(** ** Name normalization for the guide comparison *)
(* ===================================================================== *)

Module Names.
Import PyStr.

Definition LF : ascii := ascii_of_nat 10.
Definition CR : ascii := ascii_of_nat 13.

Definition is_title (w : string) : bool :=
  String.eqb w "dr" || String.eqb w "prof" || String.eqb w "professor".

Definition is_initial (w : string) : bool :=
  match w with
  | String c EmptyString => is_lower c
  | _ => false
  end.

(** [normalize_name]. *)
Definition normalize_name (name : string) : string :=
  if negb (truthy name) then "" else
  let name := lower name in
  let name := replace_char CR " " (replace_char LF " " name) in
  let name := replace_char "." "" name in
  let name := sub_words is_title "" name in
  let name := sub_words is_initial "" name in
  let name := sub_runs is_space false name in
  strip name.

(** The characters a normalized name is made of: no capital letter, no
    full stop, and no white space other than the blank. *)
Definition plain_char (c : ascii) : bool :=
  negb (is_upper c) && negb (Ascii.eqb c ".")
  && (negb (is_space c) || Ascii.eqb c " ").

End Names.

(* ===================================================================== *)
(** ** Sheet classifier *)
(* ===================================================================== *)

Module Sheets.
Import PyStr.

Inductive role := div_a | div_b | schedule.

#[global] Instance role_eq_dec : EqDecision role.
Proof. solve_decision. Defined.

(** The dictionary [detected_sheets], one slot per role. *)
Record detected := Detected {
  det_div_a : option string;
  det_div_b : option string;
  det_schedule : option string
}.

Definition det_get (d : detected) (r : role) : option string :=
  match r with
  | div_a => det_div_a d
  | div_b => det_div_b d
  | schedule => det_schedule d
  end.

Definition det_set (d : detected) (r : role) (v : string) : detected :=
  match r with
  | div_a => Detected (Some v) (det_div_b d) (det_schedule d)
  | div_b => Detected (det_div_a d) (Some v) (det_schedule d)
  | schedule => Detected (det_div_a d) (det_div_b d) (Some v)
  end.

Definition div_a_patterns : list string :=
  ["FINAL DIV A"; "FINALDIVA"; "FINAL_DIV_A"; "FINAL-DIV-A";
   "DIV A"; "DIVA"; "DIV-A"; "DIV_A";
   "DIVISION A"; "DIVISIONA"; "DIVISION-A"; "DIVISION_A"].

Definition div_b_patterns : list string :=
  ["FINAL DIV B"; "FINALDIVB"; "FINAL_DIV_B"; "FINAL-DIV-B";
   "DIV B"; "DIVB"; "DIV-B"; "DIV_B";
   "DIVISION B"; "DIVISIONB"; "DIVISION-B"; "DIVISION_B"].

Definition schedule_patterns : list string :=
  ["SCHEDULE"; "SCHED"; "PANEL SCHEDULE"; "EVALUATION SCHEDULE";
   "PANEL_SCHEDULE"; "EVALUATION_SCHEDULE"; "PANEL-SCHEDULE"].

(** The if/elif/elif chain of the loop body: the role one sheet name is
    taken for, if any. *)
Definition sheet_role (sheet_name : string) : option role :=
  let sheet_upper := strip (upper sheet_name) in
  if any_in div_a_patterns sheet_upper then Some div_a
  else if any_in div_b_patterns sheet_upper then Some div_b
  else if any_in schedule_patterns sheet_upper then Some schedule
  else None.

Definition detect_step (d : detected) (sheet_name : string) : detected :=
  match sheet_role sheet_name with
  | Some r => det_set d r sheet_name
  | None => d
  end.

(** [detect_and_normalize_sheets_robust], on the workbook's sheet names in
    workbook order. *)
Definition detect_and_normalize_sheets_robust (sheet_names : list string)
  : detected :=
  fold_left detect_step sheet_names (Detected None None None).

(** [[key for key, value in detected_sheets.items() if value is None]]. *)
Definition missing_sheets (d : detected) : list role :=
  filter (fun r => det_get d r = None) [div_a; div_b; schedule].

(** [normalize_sheet_name]: the role name for a sheet name that carries one
    of its keywords, else the name as it came. *)
Definition normalize_sheet_name (sheet_name : string) : string :=
  if negb (truthy sheet_name) then sheet_name else
  let sheet_upper := strip (upper sheet_name) in
  if any_in ["FINAL DIV A"; "FINAL DIV-A"; "FINALDIVA"; "FINAL_DIV_A";
             "DIV A"; "DIV-A"; "DIVA"; "DIVISION A"; "DIVISION-A"] sheet_upper
  then "div_a"
  else if any_in ["FINAL DIV B"; "FINAL DIV-B"; "FINALDIVB"; "FINAL_DIV_B";
                  "DIV B"; "DIV-B"; "DIVB"; "DIVISION B"; "DIVISION-B"]
                 sheet_upper
  then "div_b"
  else if any_in ["SCHEDULE"; "SCHED"; "PANEL SCHEDULE"; "EVALUATION SCHEDULE"]
                 sheet_upper
  then "schedule"
  else sheet_name.

(** The pattern list of the branch of each role, the condition of that
    branch on its own, and the roles whose branches stand before it in the
    if/elif chain. *)
Definition role_patterns (r : role) : list string :=
  match r with
  | div_a => div_a_patterns
  | div_b => div_b_patterns
  | schedule => schedule_patterns
  end.

Definition carries (r : role) (sheet_name : string) : bool :=
  any_in (role_patterns r) (strip (upper sheet_name)).

Definition earlier_roles (r : role) : list role :=
  match r with
  | div_a => []
  | div_b => [div_a]
  | schedule => [div_a; div_b]
  end.

(** A sheet name that carries a pattern of the role and none of a role
    tested before it. *)
Definition taken_for (r : role) (sheet_name : string) : bool :=
  carries r sheet_name
  && forallb (fun r' => negb (carries r' sheet_name)) (earlier_roles r).

End Sheets.

(* ===================================================================== *)
(** ** Group-identifier extractor *)
(* ===================================================================== *)

Module GroupId.
Import PyStr.

Definition is_AB (c : ascii) : bool := Ascii.eqb c "A" || Ascii.eqb c "B".

Definition hyphen_or_space (c : ascii) : bool :=
  Ascii.eqb c "-" || is_space c.

(** A greedy [C*]: the longest prefix made of characters of the class [p],
    and what follows it. *)
Fixpoint span (p : ascii -> bool) (s : string) : string * string :=
  match s with
  | String c s' =>
      if p c then let '(a, b) := span p s' in (String c a, b)
      else (EmptyString, s)
  | EmptyString => (EmptyString, EmptyString)
  end.

(** [-?]: a hyphen if there is one. *)
Definition opt_hyphen (s : string) : string * string :=
  match s with
  | String c s' => if Ascii.eqb c "-" then ("-", s') else (EmptyString, s)
  | EmptyString => (EmptyString, EmptyString)
  end.

(** [\b] after a word character: the end of the text or a character
    outside [\w]. *)
Definition word_end (s : string) : bool :=
  match s with
  | EmptyString => true
  | String c _ => negb (is_word c)
  end.

(** [\d{1,2}\b]: two digits and a boundary, else one digit and a
    boundary; the digits matched. *)
Definition digits_then_boundary (s : string) : option string :=
  match s with
  | String d1 s1 =>
      if is_digit d1 then
        match s1 with
        | String d2 s2 =>
            if is_digit d2 && word_end s2
            then Some (String d1 (String d2 EmptyString))
            else if word_end s1 then Some (String d1 EmptyString) else None
        | EmptyString => Some (String d1 EmptyString)
        end
      else None
  | EmptyString => None
  end.

(** [\d{1,2}] with nothing required after it. *)
Definition digits_greedy (s : string) : option string :=
  match s with
  | String d1 s1 =>
      if is_digit d1 then
        match s1 with
        | String d2 _ =>
            if is_digit d2 then Some (String d1 (String d2 EmptyString))
            else Some (String d1 EmptyString)
        | EmptyString => Some (String d1 EmptyString)
        end
      else None
  | EmptyString => None
  end.

(** [BI[AB]] at the head of [s]: the prefix and what follows it. *)
Definition bi_prefix (s : string) : option (string * string) :=
  match s with
  | String b (String i (String d rest)) =>
      if Ascii.eqb b "B" && Ascii.eqb i "I" && is_AB d
      then Some (String b (String i (String d EmptyString)), rest)
      else None
  | _ => None
  end.

(** [(BI[AB]-?\s*\d{1,2})\b] tried at the head of [s]: the matched text
    and its length. *)
Definition match_standard (s : string) : option (string * nat) :=
  match bi_prefix s with
  | Some (p, rest) =>
      let '(hy, r1) := opt_hyphen rest in
      let '(sp, r2) := span is_space r1 in
      match digits_then_boundary r2 with
      | Some dg =>
          let t := p +:+ hy +:+ sp +:+ dg in Some (t, String.length t)
      | None => None
      end
  | None => None
  end.

(** [(BI[AB])[-\s]*(\d{1,2})] tried at the head of [s]: the replacement
    [\1-\2] and the length of the match. *)
Definition match_clean (s : string) : option (string * nat) :=
  match bi_prefix s with
  | Some (p, rest) =>
      let '(sep, r1) := span hyphen_or_space rest in
      match digits_greedy r1 with
      | Some dg =>
          Some (p +:+ "-" +:+ dg, 3 + String.length sep + String.length dg)
      | None => None
      end
  | None => None
  end.

(** [(BI[AB]\d{1,2})\b] tried at the head of [s]. *)
Definition match_no_hyphen (s : string) : option (string * nat) :=
  match bi_prefix s with
  | Some (p, rest) =>
      match digits_then_boundary rest with
      | Some dg => let t := p +:+ dg in Some (t, String.length t)
      | None => None
      end
  | None => None
  end.

(** [(BI[AB])\s+(\d{1,2})\b] tried at the head of [s]: the two groups
    and the length of the match. *)
Definition match_space (s : string) : option (string * string * nat) :=
  match bi_prefix s with
  | Some (p, rest) =>
      let '(sp, r1) := span is_space rest in
      if truthy sp then
        match digits_then_boundary r1 with
        | Some dg => Some (p, dg, 3 + String.length sp + String.length dg)
        | None => None
        end
      else None
  | None => None
  end.

(** [re.findall] for a pattern that opens with [\b] and a word character:
    a match is tried where the previous character is not a word
    character; after a match the scan resumes behind it ([skip] counts the
    characters of the match still to pass). *)
Fixpoint findall {A} (m : string -> option (A * nat)) (skip : nat)
         (prev_word : bool) (s : string) : list A :=
  match s with
  | EmptyString => []
  | String c s' =>
      match skip with
      | S k => findall m k (is_word c) s'
      | O =>
          if prev_word then findall m 0 (is_word c) s'
          else match m s with
               | Some (a, n) => a :: findall m (Nat.pred n) (is_word c) s'
               | None => findall m 0 (is_word c) s'
               end
      end
  end.

(** [re.sub] for a pattern without anchors: matches are replaced, the
    other characters copied. *)
Fixpoint sub_scan (m : string -> option (string * nat)) (skip : nat)
         (s : string) : string :=
  match s with
  | EmptyString => EmptyString
  | String c s' =>
      match skip with
      | S k => sub_scan m k s'
      | O =>
          match m s with
          | Some (rep, n) => rep +:+ sub_scan m (Nat.pred n) s'
          | None => String c (sub_scan m 0 s')
          end
      end
  end.

(** The body of the first inner loop. *)
Definition clean_standard (mtch : string) : string :=
  let clean_match := sub_scan match_clean 0 mtch in
  if (String.length clean_match =? 5)%nat
  then take 4 clean_match +:+ "0" +:+ drop 4 clean_match
  else clean_match.

(** The body of the second inner loop. *)
Definition format_no_hyphen (mtch : string) : string :=
  if (String.length mtch =? 5)%nat then take 3 mtch +:+ "-" +:+ drop 3 mtch
  else if (String.length mtch =? 4)%nat then take 3 mtch +:+ "-0" +:+ drop 3 mtch
  else mtch.

(** The body of the third inner loop. *)
Definition format_space (pn : string * string) : string :=
  fst pn +:+ "-" +:+ zfill2 (snd pn).

(** The identifiers one cell contributes, in the order they are added. *)
Definition cell_group_ids (cell_value : string) : list string :=
  let cell_str := strip (upper cell_value) in
  map clean_standard (findall match_standard 0 false cell_str)
  ++ map format_no_hyphen (findall match_no_hyphen 0 false cell_str)
  ++ map format_space (findall match_space 0 false cell_str).

Definition string_le (a b : string) : Prop := String.leb a b = true.

#[global] Instance string_le_dec : RelDecision string_le.
Proof. intros a b. unfold string_le. apply _. Defined.

(** [all_groups.add(g)] for each identifier of a list. *)
Definition add_all (acc : gset string) (ids : list string) : gset string :=
  fold_left (fun a g => a ∪ {[ g ]}) ids acc.

(** One turn of the loop over the cells: an empty cell is passed over. *)
Definition add_cell (acc : gset string) (cell_value : string) : gset string :=
  if truthy cell_value then add_all acc (cell_group_ids cell_value) else acc.

(** [extract_all_group_ids]: the set [all_groups] is filled cell by cell
    and returned as a sorted list. *)
Definition extract_all_group_ids (row_data : list string) : list string :=
  let all_groups := fold_left add_cell row_data ∅ in
  merge_sort string_le (elements all_groups).

(** The shape [BI[AB]-NN]. *)
Definition canonical_group_id (s : string) : bool :=
  match s with
  | String b (String i (String d (String h (String n1 (String n2 EmptyString))))) =>
      Ascii.eqb b "B" && Ascii.eqb i "I" && is_AB d && Ascii.eqb h "-"
      && is_digit n1 && is_digit n2
  | _ => false
  end.

(** One or two digits: what [\d{1,2}] matches. *)
Definition digits12 (s : string) : bool :=
  match s with
  | String a EmptyString => is_digit a
  | String a (String b EmptyString) => is_digit a && is_digit b
  | _ => false
  end.

(** The ten digits, and every identifier of the shape [BI[AB]-NN]. *)
Definition digit_chars : list ascii :=
  ["0"; "1"; "2"; "3"; "4"; "5"; "6"; "7"; "8"; "9"]%char.

Definition canonical_ids : list string :=
  d ← ["A"; "B"]%char; n1 ← digit_chars; n2 ← digit_chars;
  [String "B" (String "I" (String d (String "-" (String n1 (String n2 "")))))].

End GroupId.

(* ===================================================================== *)
(** ** The extractor on text outside ASCII *)
(* ===================================================================== *)

(** [extract_all_group_ids] once more, on text as a list of code points.
    What [re] and [str] take from the Unicode tables is a parameter: the
    classes [\d], [\s] (which is also the white space of [str.strip]) and
    [\w], and [str.upper] on one character. *)
Module Wide.
Import PyStr.
#[local] Open Scope list_scope.

Definition text : Type := list N.

Record tables := Tables {
  t_digit : N -> bool;
  t_space : N -> bool;
  t_word : N -> bool;
  t_upper : N -> text
}.

(** The code points of an ASCII text. *)
Fixpoint code_points (s : string) : text :=
  match s with
  | EmptyString => []
  | String c s' => N_of_ascii c :: code_points s'
  end.

(** A text all of whose characters are below 128. *)
Definition ascii_text (s : string) : bool :=
  all_chars (fun c => (N_of_ascii c <? 128)%N) s.

(** Tables that give the characters below 128 the classes and the capital
    letters of [PyStr]. *)
Definition extends_ascii (T : tables) : Prop :=
  forall c : ascii,
    (N_of_ascii c < 128)%N ->
    t_digit T (N_of_ascii c) = is_digit c
    /\ t_space T (N_of_ascii c) = is_space c
    /\ t_word T (N_of_ascii c) = is_word c
    /\ t_upper T (N_of_ascii c) = [N_of_ascii (upper_char c)].

Section Extractor.
Context (T : tables).

(** [s.upper()] and [s.strip()]. *)
Definition upper (s : text) : text := flat_map (t_upper T) s.

Fixpoint lstrip (s : text) : text :=
  match s with
  | c :: s' => if t_space T c then lstrip s' else s
  | [] => []
  end.

Fixpoint rstrip (s : text) : text :=
  match s with
  | [] => []
  | c :: s' =>
      match rstrip s' with
      | [] => if t_space T c then [] else [c]
      | r => c :: r
      end
  end.

Definition strip (s : text) : text := rstrip (lstrip s).

(** The letters A and B, the hyphen and the digit 0 are the code points 65,
    66, 45 and 48. *)
Definition is_AB (c : N) : bool := (c =? 65)%N || (c =? 66)%N.

Definition hyphen_or_space (c : N) : bool := (c =? 45)%N || t_space T c.

(** A greedy [C*]. *)
Fixpoint span (p : N -> bool) (s : text) : text * text :=
  match s with
  | c :: s' =>
      if p c then let '(a, b) := span p s' in (c :: a, b)
      else ([], s)
  | [] => ([], [])
  end.

Definition opt_hyphen (s : text) : text * text :=
  match s with
  | c :: s' => if (c =? 45)%N then ([45%N], s') else ([], s)
  | [] => ([], [])
  end.

(** [\b] after a word character. *)
Definition word_end (s : text) : bool :=
  match s with
  | [] => true
  | c :: _ => negb (t_word T c)
  end.

(** [\d{1,2}\b]. *)
Definition digits_then_boundary (s : text) : option text :=
  match s with
  | d1 :: s1 =>
      if t_digit T d1 then
        match s1 with
        | d2 :: s2 =>
            if t_digit T d2 && word_end s2 then Some [d1; d2]
            else if word_end s1 then Some [d1] else None
        | [] => Some [d1]
        end
      else None
  | [] => None
  end.

(** [\d{1,2}]. *)
Definition digits_greedy (s : text) : option text :=
  match s with
  | d1 :: s1 =>
      if t_digit T d1 then
        match s1 with
        | d2 :: _ => if t_digit T d2 then Some [d1; d2] else Some [d1]
        | [] => Some [d1]
        end
      else None
  | [] => None
  end.

Definition bi_prefix (s : text) : option (text * text) :=
  match s with
  | b :: i :: d :: rest =>
      if (b =? 66)%N && (i =? 73)%N && is_AB d
      then Some ([b; i; d], rest)
      else None
  | _ => None
  end.

(** [(BI[AB]-?\s*\d{1,2})\b]. *)
Definition match_standard (s : text) : option (text * nat) :=
  match bi_prefix s with
  | Some (p, rest) =>
      let '(hy, r1) := opt_hyphen rest in
      let '(sp, r2) := span (t_space T) r1 in
      match digits_then_boundary r2 with
      | Some dg =>
          let t := p ++ hy ++ sp ++ dg in Some (t, List.length t)
      | None => None
      end
  | None => None
  end.

(** [(BI[AB])[-\s]*(\d{1,2})] with its replacement. *)
Definition match_clean (s : text) : option (text * nat) :=
  match bi_prefix s with
  | Some (p, rest) =>
      let '(sep, r1) := span hyphen_or_space rest in
      match digits_greedy r1 with
      | Some dg => Some (p ++ [45%N] ++ dg, 3 + List.length sep + List.length dg)
      | None => None
      end
  | None => None
  end.

(** [(BI[AB]\d{1,2})\b]. *)
Definition match_no_hyphen (s : text) : option (text * nat) :=
  match bi_prefix s with
  | Some (p, rest) =>
      match digits_then_boundary rest with
      | Some dg => let t := p ++ dg in Some (t, List.length t)
      | None => None
      end
  | None => None
  end.

(** [(BI[AB])\s+(\d{1,2})\b]. *)
Definition match_space (s : text) : option (text * text * nat) :=
  match bi_prefix s with
  | Some (p, rest) =>
      let '(sp, r1) := span (t_space T) rest in
      match sp with
      | [] => None
      | _ :: _ =>
          match digits_then_boundary r1 with
          | Some dg => Some (p, dg, 3 + List.length sp + List.length dg)
          | None => None
          end
      end
  | None => None
  end.

(** [re.findall] and [re.sub], as in the ASCII extractor. *)
Fixpoint findall {A} (m : text -> option (A * nat)) (skip : nat)
         (prev_word : bool) (s : text) : list A :=
  match s with
  | [] => []
  | c :: s' =>
      match skip with
      | S k => findall m k (t_word T c) s'
      | O =>
          if prev_word then findall m 0 (t_word T c) s'
          else match m s with
               | Some (a, n) => a :: findall m (Nat.pred n) (t_word T c) s'
               | None => findall m 0 (t_word T c) s'
               end
      end
  end.

Fixpoint sub_scan (m : text -> option (text * nat)) (skip : nat) (s : text)
  : text :=
  match s with
  | [] => []
  | c :: s' =>
      match skip with
      | S k => sub_scan m k s'
      | O =>
          match m s with
          | Some (rep, n) => rep ++ sub_scan m (Nat.pred n) s'
          | None => c :: sub_scan m 0 s'
          end
      end
  end.

(** The bodies of the three inner loops. *)
Definition clean_standard (mtch : text) : text :=
  let clean_match := sub_scan match_clean 0 mtch in
  if (List.length clean_match =? 5)%nat
  then firstn 4 clean_match ++ [48%N] ++ skipn 4 clean_match
  else clean_match.

Definition format_no_hyphen (mtch : text) : text :=
  if (List.length mtch =? 5)%nat then firstn 3 mtch ++ [45%N] ++ skipn 3 mtch
  else if (List.length mtch =? 4)%nat then firstn 3 mtch ++ [45%N; 48%N] ++ skipn 3 mtch
  else mtch.

Definition zfill2 (s : text) : text :=
  match List.length s with
  | 0 => [48%N; 48%N]
  | 1 => 48%N :: s
  | _ => s
  end.

Definition format_space (pn : text * text) : text :=
  fst pn ++ [45%N] ++ zfill2 (snd pn).

Definition cell_group_ids (cell_value : text) : list text :=
  let cell_str := strip (upper cell_value) in
  map clean_standard (findall match_standard 0 false cell_str)
  ++ map format_no_hyphen (findall match_no_hyphen 0 false cell_str)
  ++ map format_space (findall match_space 0 false cell_str).

End Extractor.

(** The order of [sorted] on texts: code point by code point. *)
Fixpoint text_leb (a b : text) : bool :=
  match a, b with
  | [], _ => true
  | _ :: _, [] => false
  | x :: a', y :: b' =>
      if (x <? y)%N then true
      else if (x =? y)%N then text_leb a' b' else false
  end.

Definition text_le (a b : text) : Prop := text_leb a b = true.

#[global] Instance text_le_dec : RelDecision text_le.
Proof. intros a b. unfold text_le. apply _. Defined.

Definition add_all (acc : gset text) (ids : list text) : gset text :=
  fold_left (fun a g => a ∪ {[ g ]}) ids acc.

Definition add_cell (T : tables) (acc : gset text) (cell_value : text)
  : gset text :=
  match cell_value with
  | [] => acc
  | _ :: _ => add_all acc (cell_group_ids T cell_value)
  end.

(** [extract_all_group_ids]. *)
Definition extract_all_group_ids (T : tables) (row_data : list text)
  : list text :=
  merge_sort text_le (elements (fold_left (add_cell T) row_data ∅)).

(** The code points of an identifier of the shape [BI[AB]-NN], with the
    digits 0 to 9. *)
Definition canonical_group_id (s : text) : bool :=
  match s with
  | [b; i; d; h; n1; n2] =>
      (b =? 66)%N && (i =? 73)%N && ((d =? 65)%N || (d =? 66)%N)
      && (h =? 45)%N
      && ((48 <=? n1)%N && (n1 <=? 57)%N) && ((48 <=? n2)%N && (n2 <=? 57)%N)
  | _ => false
  end.

(** Tables that know, outside ASCII, the ten Arabic-Indic digits U+0660 to
    U+0669: decimal digits and word characters, without capital forms. *)
Definition below_128 (c : N) : bool := (c <? 128)%N.

Definition arabic_indic (c : N) : bool := (1632 <=? c)%N && (c <=? 1641)%N.

Definition with_arabic_indic : tables :=
  {| t_digit := fun c =>
       if below_128 c then is_digit (ascii_of_N c) else arabic_indic c;
     t_space := fun c => below_128 c && is_space (ascii_of_N c);
     t_word := fun c =>
       if below_128 c then is_word (ascii_of_N c) else arabic_indic c;
     t_upper := fun c =>
       if below_128 c then [N_of_ascii (upper_char (ascii_of_N c))]
       else [c] |}.

End Wide.

(* ===================================================================== *)
(** ** Relational store *)
(* ===================================================================== *)

Module Store.

Record project := Project {
  division : string;
  project_domain : string;
  project_title : string;
  sponsor_company : string;
  guide_name : string;
  mentor_name : string;
  mentor_email : string;
  mentor_mobile : string;
  evaluator1_name : string;
  evaluator2_name : string
}.

Record member := Member {
  student_name : string;
  contact_details : string
}.

Record panel_assignment := PanelAssignment {
  track : Z;
  panel_professors : string;
  location : string;
  guide : string;
  reviewer1 : string;
  reviewer2 : string;
  reviewer3 : option string
}.

(** Modelled from the spec: the table declarations are not part of the
    sources.  The data model keys [projects] by group identifier,
    [members] by (group identifier, roll number) and [panel_assignments]
    by group identifier; a key is compared as plain text. *)
Record db := Db {
  projects : gmap string project;
  members : gmap (string * string) member;
  panel_assignments : gmap string panel_assignment
}.

Definition empty_db : db := Db ∅ ∅ ∅.

(** The statements issued inside the two row walks. *)
Inductive statement :=
| InsertIgnoreProject (group_id : string) (p : project)
| InsertIgnoreMember (group_id roll_no : string) (m : member)
| UpsertPanelAssignment (group_id : string) (pa : panel_assignment)
| UpdateProjectEvaluators (group_id eval1 eval2 : string).

(** [INSERT IGNORE]: a row whose key is taken is left as it is. *)
Definition insert_ignore `{Countable K} {V} (k : K) (v : V) (m : gmap K V)
  : gmap K V :=
  match m !! k with
  | Some _ => m
  | None => <[k := v]> m
  end.

(** [INSERT ... ON DUPLICATE KEY UPDATE track, panel_professors, location,
    guide, reviewer1, reviewer2]: the third reviewer of a row already
    there is kept. *)
Definition upsert_panel (k : string) (pa : panel_assignment)
           (m : gmap string panel_assignment) : gmap string panel_assignment :=
  match m !! k with
  | Some old =>
      <[k := PanelAssignment (track pa) (panel_professors pa) (location pa)
               (guide pa) (reviewer1 pa) (reviewer2 pa) (reviewer3 old)]> m
  | None => <[k := pa]> m
  end.

Definition set_evaluators (e1 e2 : string) (p : project) : project :=
  Project (division p) (project_domain p) (project_title p)
          (sponsor_company p) (guide_name p) (mentor_name p)
          (mentor_email p) (mentor_mobile p) e1 e2.

(** The effect of a statement the store accepts. *)
Definition run (s : statement) (d : db) : db :=
  match s with
  | InsertIgnoreProject g p =>
      Db (insert_ignore g p (projects d)) (members d) (panel_assignments d)
  | InsertIgnoreMember g r m =>
      Db (projects d) (insert_ignore (g, r) m (members d)) (panel_assignments d)
  | UpsertPanelAssignment g pa =>
      Db (projects d) (members d) (upsert_panel g pa (panel_assignments d))
  | UpdateProjectEvaluators g e1 e2 =>
      Db (alter (set_evaluators e1 e2) g (projects d)) (members d)
         (panel_assignments d)
  end.

(** [DELETE FROM panel_assignments; DELETE FROM members; DELETE FROM
    projects]. *)
Definition delete_all (d : db) : db := empty_db.

(** What the error and warning calls of the logger record. *)
Inductive log_entry :=
| ProjectError (group_id : string)
| MemberError (group_id : string)
| RowError (i : nat) (division_name : string)
| AssignError (group_id : string)
| ScheduleRowError (i : nat)
| ImportError
| SaveError.

(** The lengths the roster walk cuts texts to. *)
Definition project_within_limits (p : project) : Prop :=
  (String.length (project_domain p) <= 255
   /\ String.length (project_title p) <= 500
   /\ String.length (sponsor_company p) <= 255
   /\ String.length (guide_name p) <= 100)%nat.

Definition member_within_limits (m : member) : Prop :=
  (String.length (student_name m) <= 100)%nat.

(** Every member row names a group that has a project row. *)
Definition members_have_projects (d : db) : Prop :=
  map_Forall (fun k _ => is_Some (projects d !! fst k)) (members d).

(** A project and the panel assignment of the same group name the same
    guide and the same two evaluators. *)
Definition evaluators_agree (d : db) : Prop :=
  map_Forall
    (fun g pa =>
       match projects d !! g with
       | Some p => evaluator1_name p = reviewer1 pa
                   /\ evaluator2_name p = reviewer2 pa
                   /\ guide_name p = guide pa
       | None => True
       end)
    (panel_assignments d).

End Store.

(* ===================================================================== *)
(** ** Data frames *)
(* ===================================================================== *)

Module Pandas.
Import PyStr.

(** A cell of a data frame: missing, text or an integer. *)
Inductive cell := NaN | Text (s : string) | Int (z : Z).

Definition notnull (c : cell) : bool :=
  match c with NaN => false | _ => true end.

Definition str_of_Z (z : Z) : string := NilEmpty.string_of_int (Z.to_int z).

(** [str(value)]. *)
Definition str (c : cell) : string :=
  match c with
  | NaN => "nan"
  | Text s => s
  | Int z => str_of_Z z
  end.

Record dataframe := DataFrame {
  columns : list string;
  rows : list (list cell)
}.

(** [df.empty]. *)
Definition empty (df : dataframe) : bool :=
  match columns df, rows df with
  | [], _ | _, [] => true
  | _, _ => false
  end.

(** One row as [iterrows] hands it out: the labelled cells. *)
Definition series := list (string * cell).

Definition iterrows (df : dataframe) : list (nat * series) :=
  imap (fun i vals => (i, zip (columns df) vals)) (rows df).

(** The result of [row.get(key, default)]: the default, one cell, or the
    cells of all the columns that carry the label. *)
Inductive got := Missing | Scalar (c : cell) | Dup (cs : list cell).

Definition get (key : string) (row : series) : got :=
  match filter (fun kv => String.eqb (fst kv) key) row with
  | [] => Missing
  | [kv] => Scalar (snd kv)
  | kvs => Dup (map snd kvs)
  end.

(** [v = row.get(key, ''); if isinstance(v, pd.Series): v = v.iloc[0] if
    not v.empty else '']. *)
Definition field (key : string) (row : series) : cell :=
  match get key row with
  | Missing => Text ""
  | Scalar c => c
  | Dup (c :: _) => c
  | Dup [] => Text ""
  end.

(** [row.values] filtered by [pd.notnull] and turned to text. *)
Definition row_values (row : series) : list string :=
  map (fun kv => str (snd kv)) (filter (fun kv => notnull (snd kv)) row).

(** The digits of a decimal literal; one underscore may stand between two
    digits. *)
Fixpoint digits_value (acc : Z) (prev_digit : bool) (s : string) : option Z :=
  match s with
  | EmptyString => if prev_digit then Some acc else None
  | String c s' =>
      if is_digit c
      then digits_value (10 * acc + (Z.of_nat (code c) - 48)) true s'
      else if Ascii.eqb c "_" && prev_digit then
        match s' with
        | String c' _ => if is_digit c' then digits_value acc false s' else None
        | EmptyString => None
        end
      else None
  end.

(** The white space [int] passes over at the two ends of a text: TAB to
    CR and the blank (the separators FS to US, which [str.strip] removes,
    are not among them). *)
Definition int_space (c : ascii) : bool :=
  in_range 9 13 c || Ascii.eqb c " ".

Fixpoint int_lstrip (s : string) : string :=
  match s with
  | String c s' => if int_space c then int_lstrip s' else s
  | EmptyString => EmptyString
  end.

Fixpoint int_rstrip (s : string) : string :=
  match s with
  | EmptyString => EmptyString
  | String c s' =>
      match int_rstrip s' with
      | EmptyString => if int_space c then EmptyString else String c EmptyString
      | r => String c r
      end
  end.

(** [int(s)] for text: [None] stands for [ValueError]. *)
Definition int_of_string (s : string) : option Z :=
  match int_rstrip (int_lstrip s) with
  | String c s' =>
      if Ascii.eqb c "-" then Z.opp <$> digits_value 0 false s'
      else if Ascii.eqb c "+" then digits_value 0 false s'
      else digits_value 0 false (String c s')
  | EmptyString => None
  end.

(** [int(value)]. *)
Definition int (c : cell) : option Z :=
  match c with
  | Int z => Some z
  | Text s => int_of_string s
  | NaN => None
  end.

(** [normalize_dataframe_columns]. *)
Definition rename_column (col : string) : string :=
  match Header.normalize_column_name col with
  | Some normalized => if truthy normalized then normalized else col
  | None => col
  end.

Definition normalize_dataframe_columns (df : dataframe) : dataframe :=
  if empty df then df
  else DataFrame (map rename_column (columns df)) (rows df).

(** A cell whose text, if it holds one, is ASCII; a frame of such cells. *)
Definition ascii_cell (c : cell) : bool :=
  match c with Text s => Wide.ascii_text s | _ => true end.

Definition ascii_frame (df : dataframe) : bool :=
  forallb (forallb ascii_cell) (rows df).

End Pandas.

(* ===================================================================== *)
(** ** Workbooks *)
(* ===================================================================== *)

Module Workbook.

(** A value written to a worksheet cell. *)
Inductive value := VNone | VStr (s : string) | VInt (z : Z).

(** The attributes of a font that the writer names, and the rest. *)
Record font := Font {
  f_name : option string;
  f_size : option Z;
  f_bold : bool;
  f_italic : bool;
  f_vertAlign : option string;
  f_underline : option string;
  f_strike : bool;
  f_color : option string;
  f_others : list (string * string)
}.

(** The attributes of an alignment that the writer names, and the rest. *)
Record alignment := Alignment {
  al_horizontal : option string;
  al_vertical : option string;
  al_text_rotation : Z;
  al_wrap_text : bool;
  al_shrink_to_fit : bool;
  al_indent : Z;
  al_others : list (string * string)
}.

Record wcell := WCell {
  c_value : value;
  c_font : font;
  c_alignment : alignment;
  c_border : string;
  c_fill : string;
  c_number_format : string
}.

(** A cell that was never written: no value, the default style. *)
Definition blank : wcell :=
  WCell VNone (Font None None false false None None false None [])
        (Alignment None None 0 false false 0 []) "" "" "General".

(** A worksheet maps (row, column), counted from 1, to cells; a workbook
    lists its sheets by name, in order. *)
Abbreviation worksheet := (gmap (Z * Z) wcell).
Definition workbook := list (string * worksheet).

(** An uploaded file: a workbook, or bytes that do not parse as one. *)
Inductive file_content := Unreadable | Xlsx (wb : workbook).

Definition sheetnames (wb : workbook) : list string := map fst wb.

End Workbook.

(* ===================================================================== *)
(** ** What the pipeline takes from its surroundings *)
(* ===================================================================== *)

Module Env.
Import Store Pandas.

(** The three entries of the metadata file (the detected sheet names, the
    upload date, the name of the uploaded file), and the stored slot: the
    bytes of the workbook file with the entries of the metadata file. *)
Definition entries : Type := Sheets.detected * string * string.
Definition slot : Type := option (Workbook.file_content * entries).

(** [rejects] tells which statements of the row walks the database raises
    on, given the rows it holds (the constraints of the tables are not in
    the sources); [series_str] is the text pandas prints for the cells of
    a label that several columns carry; [read_excel wb sheet skiprows] is
    the data frame pandas reads from a sheet, [None] when it raises;
    [failed_write content meta old] tells how the two writes of
    [save_admin_file] end on the disk: [None] when both files are
    written, else the slot the failed attempt leaves. *)
Record env := {
  rejects : statement -> db -> bool;
  series_str : string -> list cell -> string;
  read_excel : Workbook.workbook -> string -> nat -> option dataframe;
  failed_write : Workbook.file_content -> entries -> slot -> option slot
}.

(** [str(row.get(key, ''))]. *)
Definition text_at (E : env) (key : string) (row : series) : string :=
  match get key row with
  | Missing => ""
  | Scalar c => str c
  | Dup cs => series_str E key cs
  end.

(** [pd.notnull(row.get(key, ''))] used as a condition: [None] when the
    value spans several columns and its truth value raises. *)
Definition notnull_at (key : string) (row : series) : option bool :=
  match get key row with
  | Missing => Some true
  | Scalar c => Some (notnull c)
  | Dup _ => None
  end.

(** [cur.execute(...)]: [None] when the database raises. *)
Definition execute (E : env) (s : statement) (d : db) : option db :=
  if rejects E s d then None else Some (run s d).

(** What a [try] body leaves behind: it ran to its end, or it raised and
    the state is the one reached at that point. *)
Inductive outcome (S : Type) := Done (s : S) | Raised (s : S).
Arguments Done {S} s.
Arguments Raised {S} s.

(** A database that accepts every statement. *)
Definition accepting : env :=
  {| rejects := fun _ _ => false;
     series_str := fun _ _ => "";
     read_excel := fun _ _ _ => None;
     failed_write := fun _ _ _ => None |}.

End Env.

(* ===================================================================== *)
(** ** Roster ingestor *)
(* ===================================================================== *)

Module Roster.
Import PyStr Store Pandas Env.

(** The local variables of the walk together with the store and the log. *)
Record state := State {
  group_id : option string;
  processed_groups : list string;
  processed_members : nat;
  store : db;
  log : list log_entry
}.

(** A call of [logger.error] or [logger.warning]. *)
Definition logged (e : log_entry) (st : state) : state :=
  State (group_id st) (processed_groups st) (processed_members st)
        (store st) (log st ++ [e]).

(** A non-null cell whose text is not blank. *)
Definition filled (c : cell) : bool := notnull c && truthy (strip (str c)).

(** [str(v).strip()[:n] if pd.notnull(v) else ""]. *)
Definition text_upto (n : nat) (c : cell) : string :=
  if notnull c then take n (strip (str c)) else "".

(** [str(v).strip() if pd.notnull(v) else ""]. *)
Definition text_of (c : cell) : string :=
  if notnull c then strip (str c) else "".

(** The block headed "Normalize group ID format". *)
Definition normalize_group_id (g : string) : string :=
  if startswith "BI" g then g
  else if startswith "BIA" g || startswith "BIB" g then
    if negb (contains "-" g) && (5 <=? String.length g)%nat
    then take 3 g +:+ "-" +:+ drop 3 g
    else g
  else g.

(** The group a row opens, when its "Group No." cell is filled. *)
Definition header_group (row : series) : option string :=
  let group_no_value := field "Group No." row in
  if filled group_no_value
  then Some (normalize_group_id (strip (str group_no_value)))
  else None.

(** The project values read from the row of a group header. *)
Definition project_of (division_name : string) (row : series) : project :=
  Project division_name
          (text_upto 255 (field "Project Domain" row))
          (text_upto 500 (field "Title of the Project" row))
          (text_upto 255 (field "Name of the sponsored company " row))
          (text_upto 100 (field "Name of the Guide" row))
          "" "" "" "" "".

(** The roll number and the member values of a row, when its roll number
    and student name cells are filled. *)
Definition member_of (row : series) : option (string * member) :=
  let roll_no_val := field "Roll No." row in
  let student_name_val := field "Name of the group member" row in
  if filled roll_no_val && filled student_name_val then
    let roll_no := strip (str roll_no_val) in
    let student_name := take 100 (strip (str student_name_val)) in
    let contact_details := text_of (field "Contact details" row) in
    if truthy roll_no && truthy student_name
    then Some (roll_no, Member student_name contact_details)
    else None
  else None.

(** Two states of the walk that differ at most in the log. *)
Definition agree (s1 s2 : state) : Prop :=
  group_id s1 = group_id s2
  /\ processed_groups s1 = processed_groups s2
  /\ processed_members s1 = processed_members s2
  /\ store s1 = store s2.

Section Walk.
Context (E : env).

(** The group-header part of a row: [group_id] is set, then the project is
    inserted inside a [try] of its own. *)
Definition project_step (division_name : string) (row : series) (st : state)
  : state :=
  match header_group row with
  | Some g =>
      let st := State (Some g) (processed_groups st) (processed_members st)
                      (store st) (log st) in
      match execute E (InsertIgnoreProject g (project_of division_name row))
                    (store st) with
      | Some d =>
          State (group_id st)
                (if bool_decide (g ∈ processed_groups st)
                 then processed_groups st
                 else processed_groups st ++ [g])
                (processed_members st) d (log st)
      | None => logged (ProjectError g) st
      end
  | None => st
  end.

(** The member part of a row, with a [try] of its own around the insert. *)
Definition member_step (row : series) (st : state) : state :=
  match group_id st with
  | Some g =>
      if truthy g then
        match member_of row with
        | Some (roll_no, m) =>
            match execute E (InsertIgnoreMember g roll_no m) (store st) with
            | Some d =>
                State (group_id st) (processed_groups st)
                      (S (processed_members st)) d (log st)
            | None => logged (MemberError g) st
            end
        | None => st
        end
      else st
  | None => st
  end.

(** The body of the outer [try] for one row. *)
Definition row_body (division_name : string) (row : series) (st : state)
  : outcome state :=
  Done (member_step row (project_step division_name row st)).

(** One turn of the loop: the body, and the handler that logs the row and
    goes on. *)
Definition row_step (division_name : string) (st : state)
           (ir : nat * series) : state :=
  match row_body division_name (snd ir) st with
  | Done st' => st'
  | Raised st' => logged (RowError (fst ir) division_name) st'
  end.

Definition walk (division_name : string) (irs : list (nat * series))
           (st : state) : state :=
  fold_left (row_step division_name) irs st.

(** [process_division_enhanced_with_normalization]: the counts it
    returns, the store and the log. *)
Definition process_division_enhanced_with_normalization
           (df : dataframe) (division_name : string)
           (d : db) (l : list log_entry)
  : (nat * nat) * db * list log_entry :=
  if empty df then ((0, 0), d, l)
  else
    let df := normalize_dataframe_columns df in
    let st := walk division_name (iterrows df) (State None [] 0 d l) in
    ((length (processed_groups st), processed_members st), store st, log st).

End Walk.

End Roster.

(* ===================================================================== *)
(** ** Schedule reconciler *)
(* ===================================================================== *)

Module Schedule.
Import PyStr Store Pandas Env.

Record assignment := Assignment {
  a_group_id : string;
  a_guide : string;
  a_evaluator1 : string;
  a_evaluator2 : string
}.

Definition default_profs : list string :=
  ["Default Prof 1"; "Default Prof 2"; "Default Prof 3"].

(** [SELECT guide_name FROM projects WHERE group_id = %s], with the empty
    text when there is no such project. *)
Definition guide_of (d : db) (g : string) : string :=
  match projects d !! g with
  | Some p => guide_name p
  | None => ""
  end.

(** The list comprehension [available_evaluators]. *)
Definition available_evaluators (panel_professors : list string)
           (guide : string) : list string :=
  filter (fun prof => negb (String.eqb (Names.normalize_name prof)
                                       (Names.normalize_name guide)))
         panel_professors.

Definition assign_one (d : db) (panel_professors : list string)
           (g : string) : assignment :=
  let guide := guide_of d g in
  let available := available_evaluators panel_professors guide in
  Assignment g guide
             (nth 0 available "Default Eval 1")
             (nth 1 available "Default Eval 2").

(** [assign_evaluators_from_panel], reading the guides from the store. *)
Definition assign_evaluators_from_panel (d : db)
           (panel_professors : list string) (group_ids : list string)
  : list assignment :=
  let panel_professors :=
    if (length panel_professors <? 2)%nat then default_profs
    else panel_professors in
  map (assign_one d panel_professors) group_ids.

(** The local variables of the schedule loop with the store and the log. *)
Record state := State {
  schedule_processed : nat;
  all_scheduled_groups : gset string;
  store : db;
  log : list log_entry
}.

(** A call of [logger.error] or [logger.warning]. *)
Definition logged (e : log_entry) (st : state) : state :=
  State (schedule_processed st) (all_scheduled_groups st) (store st)
        (log st ++ [e]).

(** The panel cell split into names: separators are the line feed and the
    comma; a name has more than three characters and is not a number. *)
Definition parse_panel (panel_text : string) : list string :=
  if truthy panel_text && negb (String.eqb panel_text "nan") then
    filter (fun p => (3 <? String.length p)%nat && negb (isdigit p))
           (map strip
                (split "|" (replace_char "," "|"
                              (replace_char Names.LF "|" panel_text))))
  else [].

Definition default_panel (track : Z) : list string :=
  map (fun k => "Default Panel " +:+ str_of_Z track +:+ " Prof " +:+ k)
      ["1"; "2"; "3"].

(** The location line; [None] when the test on a multi-column value
    raises. *)
Definition location_of (row : series) (track : Z) : option string :=
  match get "Location" row with
  | Missing => Some ""
  | Scalar c => Some (if notnull c then strip (str c)
                      else "Room " +:+ str_of_Z track)
  | Dup _ => None
  end.

(** The dictionary [process_all_data_with_normalization] returns. *)
Record summary := Summary {
  div_a_groups : nat;
  div_b_groups : nat;
  scheduled_groups : nat;
  total_processed : nat
}.

(** What a run hands back: the dictionary, the tables, the log. *)
Definition summary_of (r : summary * db * list log_entry) : summary :=
  fst (fst r).
Definition tables_of (r : summary * db * list log_entry) : db := snd (fst r).
Definition log_of (r : summary * db * list log_entry) : list log_entry :=
  snd r.

(** Two states of the loop that differ at most in the log. *)
Definition agree (s1 s2 : state) : Prop :=
  schedule_processed s1 = schedule_processed s2
  /\ all_scheduled_groups s1 = all_scheduled_groups s2
  /\ store s1 = store s2.

Section Walk.
Context (E : env).

(** [str(row.get('Name of the Panel', ''))]. *)
Definition panel_text_of (row : series) : string :=
  text_at E "Name of the Panel" row.

(** The body of the inner [try] for one assignment. *)
Definition assign_step (track : Z) (panel_profs : list string)
           (loc : string) (st : state) (a : assignment) : state :=
  let pa := PanelAssignment track (join (String Names.LF "") panel_profs)
              loc (a_guide a) (a_evaluator1 a) (a_evaluator2 a) None in
  match execute E (UpsertPanelAssignment (a_group_id a) pa) (store st) with
  | None => logged (AssignError (a_group_id a)) st
  | Some d1 =>
      match execute E (UpdateProjectEvaluators (a_group_id a)
                         (a_evaluator1 a) (a_evaluator2 a)) d1 with
      | None =>
          logged (AssignError (a_group_id a))
                 (State (schedule_processed st) (all_scheduled_groups st)
                        d1 (log st))
      | Some d2 =>
          State (schedule_processed st)
                (all_scheduled_groups st ∪ {[ a_group_id a ]}) d2 (log st)
      end
  end.

(** The body of the outer [try] for one schedule row.  The guides are read
    through a connection of their own, which sees the projects the roster
    walks committed; the statements of this loop leave every guide as it
    is, so reading them from the current store gives the same names. *)
Definition row_body (row : series) (st : state) : outcome state :=
  match get "Track" row with
  | Missing => Done st
  | Dup _ => Raised st
  | Scalar t =>
      if negb (notnull t) then Done st
      else
        match int t with
        | None => Raised st
        | Some track =>
            let panel_profs :=
              match parse_panel (panel_text_of row) with
              | [] => default_panel track
              | ps => ps
              end in
            match location_of row track with
            | None => Raised st
            | Some loc =>
                match GroupId.extract_all_group_ids (row_values row) with
                | [] => Done st
                | group_ids =>
                    let assignments :=
                      assign_evaluators_from_panel (store st) panel_profs
                                                   group_ids in
                    let st' := fold_left (assign_step track panel_profs loc)
                                         assignments st in
                    Done (State (S (schedule_processed st'))
                                (all_scheduled_groups st')
                                (store st') (log st'))
                end
            end
        end
  end.

(** One turn of the loop with its handler. *)
Definition row_step (st : state) (ir : nat * series) : state :=
  match row_body (snd ir) st with
  | Done st' => st'
  | Raised st' => logged (ScheduleRowError (fst ir)) st'
  end.

Definition walk (irs : list (nat * series)) (st : state) : state :=
  fold_left row_step irs st.

(** [process_all_data_with_normalization]: the three tables are emptied,
    the two rosters walked, then the schedule. *)
Definition process_all_data_with_normalization
           (div_a div_b sched : dataframe) (d : db) (l : list log_entry)
  : summary * db * list log_entry :=
  let d0 := delete_all d in
  let '((ga, _), d1, l1) :=
    Roster.process_division_enhanced_with_normalization E div_a "A" d0 l in
  let '((gb, _), d2, l2) :=
    Roster.process_division_enhanced_with_normalization E div_b "B" d1 l1 in
  let sched := normalize_dataframe_columns sched in
  let st := walk (iterrows sched) (State 0 ∅ d2 l2) in
  (Summary ga gb (size (all_scheduled_groups st)) (ga + gb),
   store st, log st).

End Walk.

(** The state with [l] put in front of its log. *)
Definition relog (l : list log_entry) (st : state) : state :=
  State (schedule_processed st) (all_scheduled_groups st) (store st)
        (l ++ log st).

End Schedule.

(* ===================================================================== *)
(** ** Upload endpoint *)
(* ===================================================================== *)

Module Upload.
Import PyStr Sheets Store Pandas Workbook Env.

(** The JSON sidecar of the stored workbook. *)
Record metadata := Metadata {
  sheet_names : detected;
  upload_date : string;
  original_filename : string
}.

(** The single stored-workbook slot, the tables and the log. *)
Record system := System {
  stored : option (file_content * metadata);
  tables : db;
  journal : list log_entry
}.

(** The request: the uploaded file with its name, if any, and the clock. *)
Record request := Request {
  excel : option (string * file_content);
  now : string
}.

(** One entry of the cell mapping: the column letter and the text of the
    cell that backs a field. *)
Record backed := Backed {
  col : string;
  value : string
}.

(** The mapping of one sheet: row number, as text, to the fields of the
    row. *)
Definition sheet_mapping := list (string * list (string * backed)).

Record cell_mapping := CellMapping {
  map_div_a : sheet_mapping;
  map_div_b : sheet_mapping;
  map_schedule : sheet_mapping
}.

(** The responses of [import_excel]; the field [original_file], the upload
    in base64, is not kept, and [saved] tells whether the message says
    that the file was saved for future access. *)
Inductive response :=
| NoFileProvided
| CouldNotDetect (missing : list role) (available : list string)
                 (found : detected)
| Imported (extracted_data : Schedule.summary) (mapping : cell_mapping)
           (names : detected)
           (normalized_columns : list string * list string * list string)
           (saved : bool)
| ImportFailed.

Definition status (r : response) : nat :=
  match r with
  | NoFileProvided => 400
  | CouldNotDetect _ _ _ => 400
  | Imported _ _ _ _ _ => 200
  | ImportFailed => 500
  end.

(** The metadata as the entries of its file, and back; the slot of the
    system as the disk holds it, and back. *)
Definition entries_of (m : metadata) : entries :=
  (sheet_names m, upload_date m, original_filename m).

Definition metadata_of (e : entries) : metadata :=
  Metadata (fst (fst e)) (snd (fst e)) (snd e).

Definition slot_of (s : option (file_content * metadata)) : slot :=
  (fun cm => (fst cm, entries_of (snd cm))) <$> s.

Definition stored_of (s : slot) : option (file_content * metadata) :=
  (fun ce => (fst ce, metadata_of (snd ce))) <$> s.

(** [detected_sheets[key]] once the key is known to be set. *)
Definition sheet_of (d : detected) (r : role) : string :=
  default "" (det_get d r).

Definition str_of_nat (n : nat) : string := str_of_Z (Z.of_nat n).

Section Endpoint.
Context (E : env).

(** [save_admin_file]: whether it returned [True], and the system it
    leaves.  A write that fails is caught and logged, and the slot is what
    the attempt left on the disk. *)
Definition save_admin_file (content : file_content) (m : metadata)
           (sys : system) : bool * system :=
  match failed_write E content (entries_of m) (slot_of (stored sys)) with
  | None => (true, System (Some (content, m)) (tables sys) (journal sys))
  | Some remains =>
      (false,
       System (stored_of remains) (tables sys) (journal sys ++ [SaveError]))
  end.

(** One loop of [generate_cell_mapping]: the rows whose [key] cell is not
    null are entered under their sheet row number; [None] when the test
    raises. *)
Definition map_rows (key : string) (offset : nat)
           (fields : list (string * string * string)) (df : dataframe)
  : option sheet_mapping :=
  @List.concat _ <$>
    mapM (fun ir : nat * series =>
            b ← notnull_at key (snd ir);
            Some (if b : bool
                  then [(str_of_nat (fst ir + offset),
                         map (fun f => (fst (fst f),
                                        Backed (snd (fst f))
                                               (text_at E (snd f) (snd ir))))
                             fields)]
                  else []))
         (iterrows df).

Definition roster_fields : list (string * string * string) :=
  [("roll_no", "B", "Roll No.");
   ("student_name", "C", "Name of the group member");
   ("contact_details", "D", "Contact details")].

Definition schedule_fields : list (string * string * string) :=
  [("track", "A", "Track");
   ("panel_professors", "B", "Name of the Panel");
   ("group_ids", "C", "Group ID");
   ("location", "D", "Location")].

(** [generate_cell_mapping]. *)
Definition generate_cell_mapping (div_a div_b sched : dataframe)
  : option cell_mapping :=
  a ← map_rows "Roll No." 4 roster_fields div_a;
  b ← map_rows "Roll No." 4 roster_fields div_b;
  s ← map_rows "Track" 3 schedule_fields sched;
  Some (CellMapping a b s).

(** The handler of [import_excel]: the error is logged, the answer is 500. *)
Definition failed (sys : system) : response * system :=
  (ImportFailed, System (stored sys) (tables sys) (journal sys ++ [ImportError])).

(** [import_excel]. *)
Definition import_excel (req : request) (sys : system)
  : response * system :=
  match excel req with
  | None => (NoFileProvided, sys)
  | Some (filename, Unreadable) => failed sys
  | Some (filename, Xlsx wb) =>
      let detected_sheets :=
        detect_and_normalize_sheets_robust (sheetnames wb) in
      match missing_sheets detected_sheets with
      | (_ :: _) as missing =>
          (CouldNotDetect missing (sheetnames wb) detected_sheets, sys)
      | [] =>
          let m := Metadata detected_sheets (now req) filename in
          let '(save_success, sys1) := save_admin_file (Xlsx wb) m sys in
          match read_excel E wb (sheet_of detected_sheets div_a) 3,
                read_excel E wb (sheet_of detected_sheets div_b) 3,
                read_excel E wb (sheet_of detected_sheets schedule) 2 with
          | Some da, Some db_, Some sc =>
              let da := normalize_dataframe_columns da in
              let db_ := normalize_dataframe_columns db_ in
              let sc := normalize_dataframe_columns sc in
              let '(extracted, d, l) :=
                Schedule.process_all_data_with_normalization
                  E da db_ sc (tables sys1) (journal sys1) in
              let sys2 := System (stored sys1) d l in
              match generate_cell_mapping da db_ sc with
              | Some mapping =>
                  (Imported extracted mapping detected_sheets
                            (columns da, columns db_, columns sc)
                            save_success,
                   sys2)
              | None => failed sys2
              end
          | _, _, _ => failed sys1
          end
      end
  end.

End Endpoint.

End Upload.

(* ===================================================================== *)
(** ** Writing cells of the stored workbook *)
(* ===================================================================== *)

Module Writer.
Import PyStr Workbook.

(** [cell.value = v]: the style of the cell stays. *)
Definition set_value (c : wcell) (v : value) : wcell :=
  WCell v (c_font c) (c_alignment c) (c_border c) (c_fill c)
        (c_number_format c).

(** [ws.cell(row, column)]: the cell there, a blank one if none. *)
Definition cell_at (ws : worksheet) (row col : Z) : wcell :=
  default blank (ws !! (row, col)).

(** The cleaning of the value in [update_cell_preserve_format]. *)
Definition clean_value (v : value) : value :=
  match v with
  | VNone => VStr ""
  | VStr s =>
      let s := strip s in
      if bool_decide (lower s ∈ ["none"; "null"; "nan"]) then VStr ""
      else VStr s
  | VInt z => VInt z
  end.

(** [Font(name=.., size=.., bold=.., italic=.., vertAlign=.., underline=..,
    strike=.., color=..)]. *)
Definition copy_font (f : font) : font :=
  Font (f_name f) (f_size f) (f_bold f) (f_italic f) (f_vertAlign f)
       (f_underline f) (f_strike f) (f_color f) [].

(** [Alignment(horizontal=.., vertical=.., text_rotation=.., wrap_text=..,
    shrink_to_fit=.., indent=..)]. *)
Definition copy_alignment (a : alignment) : alignment :=
  Alignment (al_horizontal a) (al_vertical a) (al_text_rotation a)
            (al_wrap_text a) (al_shrink_to_fit a) (al_indent a) [].

(** [update_cell_preserve_format]. *)
Definition update_cell_preserve_format (ws : worksheet) (row col : Z)
           (v : value) : worksheet :=
  if (row <=? 0)%Z || (col <=? 0)%Z then ws
  else
    let cell := cell_at ws row col in
    let original_font := c_font cell in
    let original_alignment := c_alignment cell in
    let original_border := c_border cell in
    let original_fill := c_fill cell in
    let original_number_format := c_number_format cell in
    let cell := set_value cell (clean_value v) in
    <[(row, col) :=
        WCell (c_value cell) (copy_font original_font)
              (copy_alignment original_alignment)
              original_border original_fill original_number_format]> ws.

(** [ws.cell(row=r, column=c, value=v)]: [None] when the position is not
    positive (the library raises); a value of [None] is not written. *)
Definition ws_cell (ws : worksheet) (row col : Z) (v : value)
  : option worksheet :=
  if (row <? 1)%Z || (col <? 1)%Z then None
  else
    let cell := cell_at ws row col in
    Some (<[(row, col) := match v with
                          | VNone => cell
                          | _ => set_value cell v
                          end]> ws).

(** The first sheet whose upper-cased name is [name] is replaced. *)
Fixpoint replace_sheet (name : string) (f : worksheet -> option worksheet)
         (wb : workbook) : option workbook :=
  match wb with
  | [] => Some []
  | (n, ws) :: rest =>
      if String.eqb (upper n) (upper name)
      then (fun ws' => (n, ws') :: rest) <$> f ws
      else (fun rest' => (n, ws) :: rest') <$> replace_sheet name f rest
  end.

(** [update_admin_file_cell] on the stored slot: nothing happens without a
    stored file, and an exception leaves the file as it was. *)
Definition update_admin_file_cell (sheet_name : string) (row col : Z)
           (new_value : value)
           (stored : option (file_content * Upload.metadata))
  : option (file_content * Upload.metadata) :=
  match stored with
  | Some (Xlsx wb, m) =>
      match replace_sheet sheet_name
              (fun ws => ws_cell ws (row + 1) (col + 1) new_value) wb with
      | Some wb' => Some (Xlsx wb', m)
      | None => stored
      end
  | _ => stored
  end.

(** What the format-preserving writer keeps of a cell's style: the
    attributes of the font and of the alignment that it names, and the
    border, the fill and the number format. *)
Definition kept_style (c : wcell)
  : font * alignment * string * string * string :=
  (copy_font (c_font c), copy_alignment (c_alignment c),
   c_border c, c_fill c, c_number_format c).

(** The second sheet has, cell by cell, the kept style of the first. *)
Definition keeps_style (ws ws' : worksheet) : Prop :=
  forall r c, kept_style (cell_at ws' r c) = kept_style (cell_at ws r c).

End Writer.

(* ===================================================================== *)
(** ** Endpoints on the stored workbook *)
(* ===================================================================== *)

Module Stored.
Import PyStr Sheets Store Pandas Workbook Env Upload.

(** The answers of [check_stored_file]. *)
Inductive check_response :=
| HasStoredFile (m : metadata) (date : string)
| NoStoredFile.

(** The answers of [get_file_info]. *)
Inductive info_response :=
| FileInfo (m : metadata)
| NoFileInfo.

(** The answers of [export_excel]: the stored bytes as an attachment, or
    the 400 answer. *)
Inductive export_response :=
| Attachment (content : file_content)
| NoFileToExport.

(** The answers of [load_stored_file]; the field [original_file], the
    stored bytes in base64, is not kept, and [date] is the upload date the
    message quotes. *)
Inductive response :=
| NoStoredFileFound
| InvalidStoredFormat
| Loaded (extracted_data : Schedule.summary) (mapping : cell_mapping)
         (names : detected) (date : string)
| LoadFailed.

Definition status (r : response) : nat :=
  match r with
  | NoStoredFileFound => 404
  | InvalidStoredFormat => 400
  | Loaded _ _ _ _ => 200
  | LoadFailed => 500
  end.

(** [sheet_names.get(key)] as a condition: set, and not the empty text. *)
Definition name_given (o : option string) : bool :=
  match o with
  | Some s => truthy s
  | None => false
  end.

Section Endpoint.

(** The surroundings, and whether bytes that do not parse as a workbook
    are the empty byte string, which [not file_content] takes for no
    file. *)
Context (E : env) (empty_bytes : bool).

(** [load_admin_file]: the stored bytes and their metadata, if both files
    are there. *)
Definition load_admin_file (sys : system) : option (file_content * metadata) :=
  stored sys.

(** [file_content and metadata]; the metadata written by [save_admin_file]
    has three keys and is never empty. *)
Definition present (content : file_content) : bool :=
  match content with
  | Xlsx _ => true
  | Unreadable => negb empty_bytes
  end.

(** [check_stored_file]. *)
Definition check_stored_file (sys : system) : check_response :=
  match load_admin_file sys with
  | Some (content, m) =>
      if present content then HasStoredFile m (upload_date m)
      else NoStoredFile
  | None => NoStoredFile
  end.

(** [get_file_info]. *)
Definition get_file_info (sys : system) : info_response :=
  match stored sys with
  | Some (_, m) => FileInfo m
  | None => NoFileInfo
  end.

(** [export_excel]. *)
Definition export_excel (sys : system) : export_response :=
  match stored sys with
  | Some (content, _) => Attachment content
  | None => NoFileToExport
  end.

(** [load_stored_file].  The error line of its handler goes with the 500
    answer and is not entered in the journal, which keeps the entries of
    the pipeline. *)
Definition load_stored_file (sys : system) : response * system :=
  match load_admin_file sys with
  | None => (NoStoredFileFound, sys)
  | Some (content, m) =>
      if negb (present content) then (NoStoredFileFound, sys)
      else
        match content with
        | Unreadable => (LoadFailed, sys)
        | Xlsx wb =>
            let names := sheet_names m in
            if negb (name_given (det_get names div_a)
                     && name_given (det_get names div_b)
                     && name_given (det_get names schedule))
            then (InvalidStoredFormat, sys)
            else
              match read_excel E wb (sheet_of names div_a) 3,
                    read_excel E wb (sheet_of names div_b) 3,
                    read_excel E wb (sheet_of names schedule) 2 with
              | Some da, Some db_, Some sc =>
                  let da := normalize_dataframe_columns da in
                  let db_ := normalize_dataframe_columns db_ in
                  let sc := normalize_dataframe_columns sc in
                  let '(extracted, d, l) :=
                    Schedule.process_all_data_with_normalization
                      E da db_ sc (tables sys) (journal sys) in
                  let sys2 := System (stored sys) d l in
                  match generate_cell_mapping E da db_ sc with
                  | Some mapping =>
                      (Loaded extracted mapping names (upload_date m), sys2)
                  | None => (LoadFailed, sys2)
                  end
              | _, _, _ => (LoadFailed, sys)
              end
        end
  end.

End Endpoint.

End Stored.

(* ===================================================================== *)
(** ** Formatted export *)
(* ===================================================================== *)

Module Formatted.
Import PyStr Pandas Workbook Writer.

(** [ws.max_row]: the largest row that holds a cell, 1 for a sheet without
    cells. *)
Definition max_row (ws : worksheet) : Z :=
  map_fold (fun (k : Z * Z) (_ : wcell) (acc : Z) => Z.max (fst k) acc) 1%Z ws.

(** The truth value of a cell value, and [str(value)]. *)
Definition truthy_value (v : value) : bool :=
  match v with
  | VNone => false
  | VStr s => truthy s
  | VInt z => negb (z =? 0)%Z
  end.

Definition str_value (v : value) : string :=
  match v with
  | VNone => "None"
  | VStr s => s
  | VInt z => str_of_Z z
  end.

(** A text column of a fetched row: a string, or [None] for NULL. *)
Definition text (o : option string) : value :=
  match o with
  | Some s => VStr s
  | None => VNone
  end.

(** The header search of the two sheet writers: the first of the rows
    [1 .. min(limit, max_row + 1) - 1] with a cell in columns 1 to 4 that
    [is_header] accepts. *)
Definition header_row (is_header : value -> bool) (limit : Z) (ws : worksheet)
  : option Z :=
  head (filter (fun row_num =>
                  existsb (fun col_num =>
                             is_header (c_value (cell_at ws row_num col_num)))
                          (seqZ 1 4))
               (seqZ 1 (Z.min limit (max_row ws + 1) - 1))).

Definition division_header (cell_value : value) : bool :=
  truthy_value cell_value
  && any_in ["GROUP NO"; "ROLL NO"; "NAME OF"] (upper (str_value cell_value)).

Definition schedule_header (cell_value : value) : bool :=
  truthy_value cell_value
  && (contains "Track" (str_value cell_value)
      || contains "track" (lower (str_value cell_value))).

(** A row of the join of projects and members that the export selects:
    the member columns are coalesced to the empty text. *)
Record data_row := DataRow {
  r_group_id : string;
  r_division : option string;
  r_project_domain : option string;
  r_project_title : option string;
  r_sponsor_company : option string;
  r_guide_name : option string;
  r_evaluator1_name : option string;
  r_evaluator2_name : option string;
  r_roll_no : string;
  r_student_name : string;
  r_contact_details : string
}.

(** Whether the loop of the division writer processes the row. *)
Definition has_student (row_data : data_row) : bool :=
  truthy (r_roll_no row_data) && truthy (r_student_name row_data).

(** One turn of the loop of [update_division_sheet_formatted]: the sheet,
    [current_row] and [current_group]. *)
Definition division_step (st : worksheet * Z * option string)
           (row_data : data_row) : worksheet * Z * option string :=
  let '(ws, current_row, current_group) := st in
  if has_student row_data then
    let '(ws, current_group) :=
      if bool_decide (Some (r_group_id row_data) <> current_group) then
        let group_start_row := current_row in
        let ws := update_cell_preserve_format ws group_start_row 1
                    (VStr (r_group_id row_data)) in
        let ws := update_cell_preserve_format ws group_start_row 5
                    (text (r_project_domain row_data)) in
        let ws := update_cell_preserve_format ws group_start_row 6
                    (text (r_project_title row_data)) in
        let ws := update_cell_preserve_format ws group_start_row 7
                    (text (r_sponsor_company row_data)) in
        let ws := update_cell_preserve_format ws group_start_row 8
                    (text (r_guide_name row_data)) in
        (ws, Some (r_group_id row_data))
      else (ws, current_group) in
    let ws := update_cell_preserve_format ws current_row 2
                (VStr (r_roll_no row_data)) in
    let ws := update_cell_preserve_format ws current_row 3
                (VStr (r_student_name row_data)) in
    let contact_details := r_contact_details row_data in
    let ws :=
      if truthy contact_details && negb (String.eqb contact_details "None")
      then update_cell_preserve_format ws current_row 4 (VStr contact_details)
      else ws in
    (ws, (current_row + 1)%Z, current_group)
  else st.

(** Where the data of a division sheet starts: below the header row, or at
    row 5. *)
Definition division_start (ws : worksheet) : Z :=
  match header_row division_header 15 ws with
  | Some row_num => (row_num + 1)%Z
  | None => 5%Z
  end.

(** [update_division_sheet_formatted]. *)
Definition update_division_sheet_formatted (ws : worksheet)
           (data : list data_row) (division : string) : worksheet :=
  let division_data :=
    filter (fun row => r_division row = Some division) data in
  fst (fst (fold_left division_step division_data
                      (ws, division_start ws, None))).

(** A row of the panel assignments that the export selects. *)
Record schedule_row := ScheduleRow {
  s_track : option Z;
  s_panel_professors : option string;
  s_location : option string;
  s_group_id : string;
  s_guide : option string;
  s_reviewer1 : option string;
  s_reviewer2 : option string
}.

Record track_info := TrackInfo {
  t_track : Z;
  t_panel_professors : option string;
  t_location : option string;
  t_group_ids : list string
}.

(** One turn of the grouping loop: the first row of a track gives its
    panel and its location, every row with a group identifier adds it. *)
Definition add_row (tracks : gmap Z track_info) (schedule_row : schedule_row)
  : gmap Z track_info :=
  match s_track schedule_row with
  | None => tracks
  | Some track =>
      let tracks :=
        match tracks !! track with
        | Some _ => tracks
        | None =>
            <[track := TrackInfo track (s_panel_professors schedule_row)
                                 (s_location schedule_row) []]> tracks
        end in
      if truthy (s_group_id schedule_row) then
        alter (fun info =>
                 TrackInfo (t_track info) (t_panel_professors info)
                           (t_location info)
                           (t_group_ids info ++ [s_group_id schedule_row]))
              track tracks
      else tracks
  end.

(** The dictionary [tracks], and its entries in the order of
    [sorted(tracks.keys())]. *)
Definition group_tracks (schedule_data : list schedule_row)
  : gmap Z track_info :=
  fold_left add_row schedule_data ∅.

Definition key_le (a b : Z * track_info) : Prop := (fst a <= fst b)%Z.

#[global] Instance key_le_dec : RelDecision key_le.
Proof. intros a b. unfold key_le. apply _. Defined.

Definition sorted_tracks (tracks : gmap Z track_info) : list track_info :=
  map snd (merge_sort key_le (map_to_list tracks)).

(** The cleaning of the panel text: bars and commas become line breaks,
    the lines are stripped and the blank ones dropped. *)
Definition clean_panel_text (panel_text : option string) : option string :=
  match panel_text with
  | Some s =>
      if truthy s then
        let s := replace_char "," (String Names.LF "")
                   (replace_char "|" (String Names.LF "") s) in
        Some (join (String Names.LF "")
                   (filter (fun line => truthy line)
                           (map strip (split Names.LF s))))
      else Some s
  | None => None
  end.

(** The four writes for one track. *)
Definition write_track (ws : worksheet) (current_row : Z) (info : track_info)
  : worksheet :=
  let ws := update_cell_preserve_format ws current_row 1
              (VInt (t_track info)) in
  let ws := update_cell_preserve_format ws current_row 2
              (text (clean_panel_text (t_panel_professors info))) in
  let ws := update_cell_preserve_format ws current_row 3
              (VStr (join " " (t_group_ids info))) in
  update_cell_preserve_format ws current_row 4 (text (t_location info)).

(** The loop over the tracks, with its row limit and its [break]. *)
Fixpoint write_tracks (infos : list track_info) (ws : worksheet)
         (current_row : Z) : worksheet :=
  match infos with
  | [] => ws
  | info :: rest =>
      if (current_row <=? max_row ws + 5)%Z
      then write_tracks rest (write_track ws current_row info)
                        (current_row + 1)%Z
      else ws
  end.

Definition schedule_start (ws : worksheet) : Z :=
  match header_row schedule_header 10 ws with
  | Some row_num => (row_num + 1)%Z
  | None => 3%Z
  end.

(** [update_schedule_sheet_formatted]. *)
Definition update_schedule_sheet_formatted (ws : worksheet)
           (schedule_data : list schedule_row) : worksheet :=
  write_tracks (sorted_tracks (group_tracks schedule_data)) ws
               (schedule_start ws).

(** The sheet loop of [export_formatted_excel]. *)
Definition export_sheet (database_data : list data_row)
           (schedule_data : list schedule_row) (sheet : string * worksheet)
  : string * worksheet :=
  let sheet_upper := upper (fst sheet) in
  if any_in ["DIV A"; "DIVA"; "DIVISION A"] sheet_upper then
    (fst sheet, update_division_sheet_formatted (snd sheet) database_data "A")
  else if any_in ["DIV B"; "DIVB"; "DIVISION B"] sheet_upper then
    (fst sheet, update_division_sheet_formatted (snd sheet) database_data "B")
  else if any_in ["SCHEDULE"; "SCHED"] sheet_upper then
    (fst sheet, update_schedule_sheet_formatted (snd sheet) schedule_data)
  else sheet.

(** The answers of [export_formatted_excel]: the workbook sent, 404
    without a stored file, 500 when the stored bytes do not load. *)
Inductive response :=
| Sent (wb : workbook)
| NoStoredFile
| ExportFailed.

(** [export_formatted_excel], given the rows its two queries fetch; the
    stored file itself is not written. *)
Definition export_formatted_excel
           (stored : option (file_content * Upload.metadata))
           (database_data : list data_row)
           (schedule_data : list schedule_row) : response :=
  match stored with
  | None => NoStoredFile
  | Some (Unreadable, _) => ExportFailed
  | Some (Xlsx wb, _) =>
      Sent (map (export_sheet database_data schedule_data) wb)
  end.

End Formatted.

(* ===================================================================== *)
(** ** Concrete workbooks and stores used as examples *)
(* ===================================================================== *)

Module Scenario.
Import Sheets Store Pandas Workbook Env.

(** The division-A roster of the end-to-end scenario: the first data row
    opens group "BIA1", the second row has a blank group cell. *)
Definition div_a_frame : dataframe :=
  DataFrame ["Group No."; "Roll No."; "Name"]
            [[Text "BIA1"; Text "21"; Text "Asha K"];
             [NaN; Text "22"; Text "Ravi M"]].

Definition div_b_frame : dataframe :=
  DataFrame ["Group No."; "Roll No."; "Name"] [].

Definition schedule_frame : dataframe :=
  DataFrame ["Track"; "Name of the Panel"; "Group ID"; "Location"] [].

Definition book : workbook :=
  [("FINAL DIV-A", ∅); ("Final Div B ", ∅); ("Panel Schedule", ∅)].

(** Surroundings in which the three sheets of [book] read as the frames
    above and the database accepts every statement. *)
Definition reader : env :=
  {| rejects := fun _ _ => false;
     series_str := fun _ _ => "";
     read_excel := fun _ name _ =>
       if String.eqb name "FINAL DIV-A" then Some div_a_frame
       else if String.eqb name "Final Div B " then Some div_b_frame
       else if String.eqb name "Panel Schedule" then Some schedule_frame
       else None;
     failed_write := fun _ _ _ => None |}.

Definition upload : Upload.request :=
  Upload.Request (Some ("roster.xlsx", Xlsx book)) "2024-01-01 10:00:00".

Definition fresh : Upload.system := Upload.System None empty_db [].

(** A workbook without a division-B sheet and without a schedule. *)
Definition partial_book : workbook := [("FINAL DIV-A", ∅); ("Sheet2", ∅)].

Definition partial_upload : Upload.request :=
  Upload.Request (Some ("partial.xlsx", Xlsx partial_book)) "2024-01-01 10:00:00".

(** A store in which the guide of BIA-01 is "a b sharma". *)
Definition sharma_db : db :=
  Db {[ "BIA-01" := Project "A" "" "" "" "a b sharma" "" "" "" "" "" ]} ∅ ∅.

Definition sharma_panel : list string :=
  ["Dr. A B Sharma"; "Prof. Kumar Rao"; "Dr. Mehta Jain"].

(** A store in which the guide of BIA-01 carries the text of the first
    placeholder, and a panel of two spellings of that text. *)
Definition placeholder_db : db :=
  Db {[ "BIA-01" := Project "A" "" "" "" "Default Eval 1" "" "" "" "" "" ]} ∅ ∅.

Definition placeholder_panel : list string :=
  ["Default Eval 1"; "DEFAULT EVAL 1"].

(** A stored workbook whose schedule sheet has one bold, centred cell. *)
Definition styled : wcell :=
  WCell (VStr "3")
        (Font (Some "Calibri") (Some 11%Z) true false None None false None
              [("family", "2"); ("scheme", "minor")])
        (Alignment (Some "center") None 0 true false 0 [])
        "thin" "solid" "0".

Definition stored_book : workbook :=
  [("FINAL DIV-A", ∅); ("Panel Schedule", {[ (1%Z, 1%Z) := styled ]})].

Definition stored_slot : option (file_content * Upload.metadata) :=
  Some (Xlsx stored_book,
        Upload.Metadata (Detected (Some "FINAL DIV-A") None (Some "Panel Schedule"))
                        "2024-01-01 10:00:00" "roster.xlsx").

(** The cell of a sheet of the stored workbook, if there is one. *)
Definition stored_cell (slot : option (file_content * Upload.metadata))
           (sheet : string) (row col : Z) : option wcell :=
  match slot with
  | Some (Xlsx wb, _) =>
      match filter (fun nw => String.eqb (fst nw) sheet) wb with
      | (_, ws) :: _ => ws !! (row, col)
      | [] => None
      end
  | _ => None
  end.

(** A schedule sheet whose second row has a track that is not a number. *)
Definition broken_schedule : list (nat * series) :=
  [(0, [("Track", Int 1); ("Name of the Panel", Text "Prof. Kumar Rao, Dr. Mehta Jain");
        ("Group ID", Text "BIA-01"); ("Location", Text "Lab 1")]);
   (1, [("Track", Text "two"); ("Name of the Panel", NaN);
        ("Group ID", Text "BIA-02"); ("Location", NaN)]);
   (2, [("Track", Int 3); ("Name of the Panel", NaN);
        ("Group ID", Text "BIB 7"); ("Location", NaN)])].

(** A roster with two member rows above the first group header. *)
Definition orphan_rows : list (list cell) :=
  [[NaN; Text "20"; Text "Nila P"]; [Text "  "; Int 19; Text "Om S"]].

Definition headed_rows : list (list cell) :=
  [[Text "BIA-03"; Text "21"; Text "Asha K"]; [NaN; Text "22"; Text "Ravi M"]].

Definition roster_columns : list string := ["Group No."; "Roll No."; "Name"].

(** Surroundings whose database raises on a project whose group identifier
    has more than ten characters and on a member whose roll number has more
    than ten. *)
Definition strict : env :=
  {| rejects := fun s _ =>
       match s with
       | InsertIgnoreProject g _ => (10 <? String.length g)%nat
       | InsertIgnoreMember _ r _ => (10 <? String.length r)%nat
       | _ => false
       end;
     series_str := fun _ _ => "";
     read_excel := fun _ _ _ => None;
     failed_write := fun _ _ _ => None |}.

Definition long_group_row : series :=
  [("Group No.", Text "BIA-000000000001"); ("Roll No.", Text "21");
   ("Name of the group member", Text "Asha K")].

Definition long_roll_row : series :=
  [("Group No.", NaN); ("Roll No.", Text "210000000000021");
   ("Name of the group member", Text "Ravi M")].

Definition in_group : Roster.state :=
  Roster.State (Some "BIA-03") ["BIA-03"] 1 empty_db [].

Definition schedule_start : Schedule.state := Schedule.State 0 ∅ empty_db [].

(** Three sheets named in an unusual order. *)
Definition shuffled_names : list string :=
  ["Panel Schedule"; "Notes"; "Final Div B "; "FINAL DIV-A"].

(** A roster and a schedule that name the same group. *)
Definition guided_roster : dataframe :=
  DataFrame ["Group No."; "Roll No."; "Name"; "Guide"]
            [[Text "BIA-01"; Text "21"; Text "Asha K"; Text "Dr. Mehta Jain"];
             [NaN; Text "22"; Text "Ravi M"; NaN]].

Definition guided_schedule : dataframe :=
  DataFrame ["Track"; "Panel Members"; "Groups"; "Room"]
            [[Int 1; Text "Prof. Kumar Rao, Dr. Mehta Jain, Dr. Anil Bose";
              Text "BIA-01"; Text "Lab 1"]].

(** A roster in which one guide name is longer than the walk keeps. *)
Definition long_guide : string :=
  "Professor Doctor Anantapadmanabhan Venkataraghavan Subramaniam Iyer of the Department of Computer Engineering".

Definition long_roster : dataframe :=
  DataFrame ["Group No."; "Roll No."; "Name"; "Guide"]
            [[Text "BIB-02"; Text "31"; Text "Mira D"; Text long_guide]].

(** A system whose tables hold one project and that stores no workbook. *)
Definition sharma_system : Upload.system := Upload.System None sharma_db [].

(** A heading cell, a schedule sheet with its headings in row 2 and a
    roster sheet with its headings in row 4. *)
Definition heading (s : string) : wcell :=
  WCell (VStr s) (c_font styled) (c_alignment styled) "thin" "solid" "General".

Definition schedule_sheet : worksheet :=
  {[ (2%Z, 1%Z) := heading "Track"; (2%Z, 2%Z) := heading "Name of the Panel" ]}.

Definition roster_sheet : worksheet :=
  {[ (4%Z, 1%Z) := heading "Group No."; (4%Z, 2%Z) := heading "Roll No." ]}.

(** Rows as the export fetches them from the tables. *)
Definition fetched_schedule : list Formatted.schedule_row :=
  [Formatted.ScheduleRow (Some 2%Z) (Some "Prof. Kumar Rao, Dr. Mehta Jain")
                         (Some "Lab 2") "BIA-02" None None None;
   Formatted.ScheduleRow (Some 1%Z) (Some "Dr. Anil Bose | Dr. Mehta Jain")
                         (Some "Lab 1") "BIA-01" None None None;
   Formatted.ScheduleRow (Some 2%Z) None None "BIB-03" None None None].

Definition fetched_roster : list Formatted.data_row :=
  [Formatted.DataRow "BIA-01" (Some "A") (Some "Web") (Some "Review Portal")
                     None (Some "Dr. Mehta Jain") None None
                     "21" "Asha K" "";
   Formatted.DataRow "BIA-01" (Some "A") (Some "Web") (Some "Review Portal")
                     None (Some "Dr. Mehta Jain") None None
                     "22" "Ravi M" "98200";
   Formatted.DataRow "BIA-02" (Some "A") None None None None None None
                     "" "" "";
   Formatted.DataRow "BIB-03" (Some "B") None None None None None None
                     "31" "Mira D" ""].

(** A roster with two columns that both normalize to "Roll No.", and
    surroundings in which the division-A sheet of [book] reads as it. *)
Definition twice_rolled : dataframe :=
  DataFrame ["Group No."; "Roll No."; "Roll Number"; "Name"]
            [[Text "BIA-04"; Text "41"; Text "41"; Text "Tara V"]].

Definition twice_rolled_reader : env :=
  {| rejects := fun _ _ => false;
     series_str := fun _ _ => "";
     read_excel := fun _ name _ =>
       if String.eqb name "FINAL DIV-A" then Some twice_rolled
       else if String.eqb name "Final Div B " then Some div_b_frame
       else if String.eqb name "Panel Schedule" then Some schedule_frame
       else None;
     failed_write := fun _ _ _ => None |}.

(** Two sheets whose names both carry a schedule pattern; the second also
    carries a division-A pattern. *)
Definition overlapping_names : list string :=
  ["Panel Schedule"; "Div A Schedule"].

(** A roster whose first row opens a group the strict database refuses,
    and the same roster without that row. *)
Definition refused_roster : dataframe :=
  DataFrame ["Group No."; "Roll No."; "Name of the group member"]
            [[Text "BIA-000000000001"; Text "21"; Text "Asha K"];
             [NaN; Text "22"; Text "Ravi M"]].

Definition refused_roster_rest : dataframe :=
  DataFrame ["Group No."; "Roll No."; "Name of the group member"]
            [[NaN; Text "22"; Text "Ravi M"]].

(** Surroundings in which no sheet can be read and the two files cannot be
    written: the writing fails before anything is replaced. *)
Definition full_disk : env :=
  {| rejects := fun _ _ => false;
     series_str := fun _ _ => "";
     read_excel := fun _ _ _ => None;
     failed_write := fun _ _ held => Some held |}.

End Scenario.

(* ===================================================================== *)
(** * Properties *)
(* ===================================================================== *)

(* --------------------------------------------------------------------- *)
(** ** Header normalizer *)
(* --------------------------------------------------------------------- *)

Section HeaderFacts.
Import Header.

Lemma group_id_header_taken_for_group_no :
  normalize_column_name "Group ID" = Some "Group No.".
Proof. reflexivity. Qed.

Lemma sponsor_header_gains_blank :
  normalize_column_name "Name of the sponsored company"
  = Some "Name of the sponsored company ".
Proof. reflexivity. Qed.

(** C2, as stated, fails: two names of the glossary vocabulary are not
    fixed points.  "Group ID" is taken for "Group No." (its keyword
    "group id" is already in the first keyword group), and the sponsor
    header comes back with a trailing blank. *)
Lemma canonical_headers_not_all_fixed :
  normalize_column_name "Group ID" = Some "Group No."
  /\ normalize_column_name "Name of the sponsored company"
     = Some "Name of the sponsored company "
  /\ ~ (forall h, h ∈ canonical_headers -> normalize_column_name h = Some h).
Proof.
  split; [reflexivity|]. split; [reflexivity|].
  intros H.
  specialize (H "Group ID").
  rewrite group_id_header_taken_for_group_no in H.
  assert (Hin : "Group ID" ∈ canonical_headers).
  { unfold canonical_headers. rewrite !elem_of_cons. tauto. }
  specialize (H Hin). discriminate H.
Qed.

(** C2, amended: each of the eleven names the normalizer returns other than
    "Group ID" (the sponsor header spelled with its trailing blank) is a
    fixed point of [normalize_column_name], and the glossary spelling of
    the sponsor header is sent to the spelling with the blank. *)
Theorem stable_headers_fixed :
  Forall (fun h => normalize_column_name h = Some h) stable_headers
  /\ normalize_column_name "Name of the sponsored company"
     = Some "Name of the sponsored company ".
Proof.
  split; [| reflexivity].
  unfold stable_headers. repeat (constructor; [vm_compute; reflexivity |]).
  constructor.
Qed.

(** Applying the normalizer twice: what it returned is returned again,
    unless it returned "Group ID". *)
Lemma normalize_column_name_twice (h h' : string) :
  normalize_column_name h = Some h' -> h' <> "Group ID" ->
  normalize_column_name h' = Some h'.
Proof.
  intros H Hne. pose proof H as H0. unfold normalize_column_name in H0.
  repeat case_match; simplify_eq; try reflexivity; try congruence.
Qed.

End HeaderFacts.

(* --------------------------------------------------------------------- *)
(** ** Sheet classifier *)
(* --------------------------------------------------------------------- *)

Section SheetFacts.
Import Sheets.

Lemma det_get_set_same d r v : det_get (det_set d r v) r = Some v.
Proof. destruct r; reflexivity. Qed.

Lemma det_get_set_other d r r' v :
  r <> r' -> det_get (det_set d r v) r' = det_get d r'.
Proof. destruct r, r'; intros H; try reflexivity; congruence. Qed.

Lemma det_get_step d s r :
  det_get (detect_step d s) r
  = if decide (sheet_role s = Some r) then Some s else det_get d r.
Proof.
  unfold detect_step. destruct (sheet_role s) as [r0|] eqn:Hs.
  - destruct (decide (Some r0 = Some r)) as [Heq|Hne].
    + injection Heq as ->. apply det_get_set_same.
    + apply det_get_set_other. congruence.
  - destruct (decide (None = Some r)); [discriminate | reflexivity].
Qed.

(** The loop from any starting dictionary: the slot of a role holds the
    last sheet taken for it, or what it held before. *)
Lemma detect_fold (names : list string) : forall d r,
  det_get (fold_left detect_step names d) r
  = match last (filter (fun s => sheet_role s = Some r) names) with
    | Some s => Some s
    | None => det_get d r
    end.
Proof.
  induction names as [|s names IH]; intros d r; [reflexivity|].
  cbn [fold_left]. rewrite IH, det_get_step, filter_cons.
  destruct (decide (sheet_role s = Some r)) as [Hs|Hs].
  - rewrite last_cons.
    destruct (last (filter _ names)); reflexivity.
  - reflexivity.
Qed.

Lemma sheet_role_taken (s : string) (r : role) :
  sheet_role s = Some r <-> taken_for r s = true.
Proof.
  unfold sheet_role, taken_for, carries.
  destruct r; cbn [role_patterns earlier_roles forallb];
    destruct (PyStr.any_in div_a_patterns (PyStr.strip (PyStr.upper s)));
    destruct (PyStr.any_in div_b_patterns (PyStr.strip (PyStr.upper s)));
    destruct (PyStr.any_in schedule_patterns (PyStr.strip (PyStr.upper s)));
    cbn [andb negb]; split; intros H; try reflexivity; try discriminate H;
    try (injection H as H0; discriminate H0).
Qed.

Lemma filter_iff_in {A} (P Q : A -> Prop) `{DP : !forall x, Decision (P x)}
      `{DQ : !forall x, Decision (Q x)} (l : list A) :
  (forall x, x ∈ l -> (P x <-> Q x)) -> filter P l = filter Q l.
Proof.
  induction l as [|x l IH]; intros Hiff; [reflexivity|].
  rewrite !filter_cons.
  assert (Hl : filter P l = filter Q l).
  { apply IH. intros y Hy. apply Hiff. apply list_elem_of_further, Hy. }
  rewrite Hl.
  destruct (decide (P x)) as [Hp|Hp], (decide (Q x)) as [Hq|Hq];
    try reflexivity.
  - destruct Hq. apply (Hiff x); [apply list_elem_of_here | exact Hp].
  - destruct Hp. apply (Hiff x); [apply list_elem_of_here | exact Hq].
Qed.

Lemma filter_taken (names : list string) (r : role) :
  filter (fun s => sheet_role s = Some r) names
  = filter (fun s => taken_for r s = true) names.
Proof. apply list_filter_iff. intros s. apply sheet_role_taken. Qed.

(** C10, as stated, fails for a sheet that carries the patterns of two
    roles.  In the workbook of "Panel Schedule" and "Div A Schedule" both
    names carry the pattern SCHEDULE, and the last of them is "Div A
    Schedule"; the chain tests the division-A patterns first and takes
    that sheet for division A only, so the schedule slot keeps "Panel
    Schedule". *)
Lemma overlapping_sheet_counts_once :
  filter (fun s => carries schedule s = true) Scenario.overlapping_names
  = ["Panel Schedule"; "Div A Schedule"]
  /\ det_get (detect_and_normalize_sheets_robust Scenario.overlapping_names)
             schedule
     = Some "Panel Schedule"
  /\ det_get (detect_and_normalize_sheets_robust Scenario.overlapping_names)
             div_a
     = Some "Div A Schedule"
  /\ ~ (forall names r,
          det_get (detect_and_normalize_sheets_robust names) r
          = last (filter (fun s => carries r s = true) names)).
Proof.
  split; [vm_compute; reflexivity|].
  split; [vm_compute; reflexivity|].
  split; [vm_compute; reflexivity|].
  intros Hall. specialize (Hall Scenario.overlapping_names schedule).
  vm_compute in Hall. discriminate Hall.
Qed.

(** C10, amended: for every workbook and every role, the classifier maps
    the role to the last sheet, in workbook order, whose name carries a
    pattern of the role and no pattern of a role tested before it
    (division A, then division B, then the schedule); a later such sheet
    overwrites an earlier one.  For division A, and for any role in a
    workbook none of whose sheets carries the patterns of that role
    together with those of an earlier one, this is the last sheet that
    carries a pattern of the role. *)
Theorem last_matching_sheet_wins (names : list string) (r : role) :
  det_get (detect_and_normalize_sheets_robust names) r
  = last (filter (fun s => taken_for r s = true) names)
  /\ (forall s, det_get (detect_and_normalize_sheets_robust (names ++ [s])) r
                = if taken_for r s then Some s
                  else det_get (detect_and_normalize_sheets_robust names) r)
  /\ det_get (detect_and_normalize_sheets_robust names) div_a
     = last (filter (fun s => carries div_a s = true) names)
  /\ ((forall s r', s ∈ names -> r' ∈ earlier_roles r ->
                    carries r s = true -> carries r' s = false) ->
      det_get (detect_and_normalize_sheets_robust names) r
      = last (filter (fun s => carries r s = true) names)).
Proof.
  assert (Hlast : forall r0,
             det_get (detect_and_normalize_sheets_robust names) r0
             = last (filter (fun s => taken_for r0 s = true) names)).
  { intros r0. unfold detect_and_normalize_sheets_robust.
    rewrite detect_fold, filter_taken.
    destruct (last _); [reflexivity|]. destruct r0; reflexivity. }
  split; [apply Hlast|]. split; [|split].
  - intros s. unfold detect_and_normalize_sheets_robust.
    rewrite fold_left_app. cbn [fold_left]. rewrite det_get_step.
    destruct (decide (sheet_role s = Some r)) as [Hs|Hs].
    + apply sheet_role_taken in Hs. rewrite Hs. reflexivity.
    + destruct (taken_for r s) eqn:Ht; [|reflexivity].
      apply sheet_role_taken in Ht. contradiction.
  - rewrite Hlast. f_equal. apply list_filter_iff. intros s.
    unfold taken_for. cbn [earlier_roles forallb]. rewrite andb_true_r.
    reflexivity.
  - intros Hsep. rewrite Hlast. f_equal.
    apply filter_iff_in. intros s Hs.
    unfold taken_for. split.
    + intros H. apply andb_true_iff in H. tauto.
    + intros Hc. rewrite Hc. cbn [andb]. apply forallb_forall.
      intros r' Hr'. apply negb_true_iff, (Hsep s r' Hs); [|exact Hc].
      apply list_elem_of_In, Hr'.
Qed.

Lemma missing_sheets_spec d r : r ∈ missing_sheets d <-> det_get d r = None.
Proof.
  unfold missing_sheets. rewrite list_elem_of_filter.
  split; [tauto|]. intros H. split; [exact H|]. destruct r; set_solver.
Qed.

End SheetFacts.

(* --------------------------------------------------------------------- *)
(** ** Upload endpoint: classification failure *)
(* --------------------------------------------------------------------- *)

Section UploadFacts.
Import Sheets Workbook Env Upload.

(** C6: when the classifier leaves a role undetected, [import_excel] answers
    400 with the missing roles, the workbook's sheet names as they are and
    the partial detection, and the stored-workbook slot, the three tables
    and the log are the ones it was given. *)
Theorem undetected_role_rejects_upload
        (E : env) (req : request) (sys : system)
        (filename : string) (wb : workbook) (r : role) :
  excel req = Some (filename, Xlsx wb) ->
  det_get (detect_and_normalize_sheets_robust (sheetnames wb)) r = None ->
  let found := detect_and_normalize_sheets_robust (sheetnames wb) in
  import_excel E req sys
  = (CouldNotDetect (missing_sheets found) (sheetnames wb) found, sys)
  /\ status (fst (import_excel E req sys)) = 400
  /\ (forall r', r' ∈ missing_sheets found <-> det_get found r' = None).
Proof.
  intros Hreq Hr found.
  assert (Hin : r ∈ missing_sheets found) by (apply missing_sheets_spec; exact Hr).
  assert (Hres : import_excel E req sys
                 = (CouldNotDetect (missing_sheets found) (sheetnames wb) found, sys)).
  { unfold import_excel. rewrite Hreq. fold found.
    destruct (missing_sheets found) as [|r0 rest] eqn:Hm.
    - inversion Hin.
    - reflexivity. }
  split; [exact Hres|]. split.
  - rewrite Hres. reflexivity.
  - intros r'. apply missing_sheets_spec.
Qed.

Lemma undetected_role_rejects_upload_witness :
  import_excel Scenario.reader Scenario.partial_upload Scenario.fresh
  = (CouldNotDetect [div_b; schedule] ["FINAL DIV-A"; "Sheet2"]
                    (Detected (Some "FINAL DIV-A") None None),
     Scenario.fresh).
Proof.
  exact (proj1 (undetected_role_rejects_upload
                  Scenario.reader Scenario.partial_upload Scenario.fresh
                  "partial.xlsx" Scenario.partial_book div_b
                  eq_refl eq_refl)).
Defined.

End UploadFacts.

(* --------------------------------------------------------------------- *)
(** ** Roster scenario *)
(* --------------------------------------------------------------------- *)

Section RosterScenario.
Import Store Upload.

Lemma normalize_group_id_keeps_BI (g : string) :
  PyStr.startswith "BI" g = true -> Roster.normalize_group_id g = g.
Proof. intros H. unfold Roster.normalize_group_id. rewrite H. reflexivity. Qed.

(** C1: on the end-to-end roster scenario the code does not key the rows by
    "BIA-01".  The group cell "BIA1" starts with "BI", so the block that
    normalizes group identifiers leaves it as it is: the one project is keyed
    "BIA1", the two members ("BIA1","21") and ("BIA1","22"), and no project
    is stored under "BIA-01". *)
Theorem roster_scenario_keeps_raw_group_id :
  let sys := snd (import_excel Scenario.reader Scenario.upload Scenario.fresh) in
  projects (tables sys) = {[ "BIA1" := Project "A" "" "" "" "" "" "" "" "" "" ]}
  /\ members (tables sys)
     = {[ ("BIA1", "21") := Member "Asha K" "";
          ("BIA1", "22") := Member "Ravi M" "" ]}
  /\ projects (tables sys) !! "BIA-01" = None.
Proof. vm_compute. repeat split. Qed.

End RosterScenario.

(* --------------------------------------------------------------------- *)
(** ** Writing cells *)
(* --------------------------------------------------------------------- *)

Section WriterFacts.
Import Workbook Writer.

(** What [update_cell_preserve_format] leaves in the cell it writes: the
    cleaned value, a font and an alignment rebuilt from the attributes it
    names, and the border, fill and number format it found. *)
Lemma update_cell_preserve_format_lookup (ws : worksheet) (row col : Z) (v : value) :
  (0 < row)%Z -> (0 < col)%Z ->
  update_cell_preserve_format ws row col v !! (row, col)
  = Some (WCell (clean_value v)
                (copy_font (c_font (cell_at ws row col)))
                (copy_alignment (c_alignment (cell_at ws row col)))
                (c_border (cell_at ws row col))
                (c_fill (cell_at ws row col))
                (c_number_format (cell_at ws row col))).
Proof.
  intros Hr Hc. unfold update_cell_preserve_format.
  destruct (Z.leb_spec row 0); [lia|]. destruct (Z.leb_spec col 0); [lia|].
  cbn [orb]. rewrite lookup_insert_eq. reflexivity.
Qed.

Lemma clean_value_nan : clean_value (VStr "nan") = VStr "".
Proof. reflexivity. Qed.

(** What [ws.cell(row, column, value)] leaves in the cell: the value as it
    was passed. *)
Lemma ws_cell_lookup (ws ws' : worksheet) (row col : Z) (s : string) :
  ws_cell ws row col (VStr s) = Some ws' ->
  c_value <$> ws' !! (row, col) = Some (VStr s).
Proof.
  unfold ws_cell. destruct (_ || _); [discriminate|].
  intros [= <-]. rewrite lookup_insert_eq. reflexivity.
Qed.

(** C8: the cell-edit path does not clean the value.  [update_admin_file_cell]
    hands the new value to the worksheet as it is, so the text "nan" is
    written to the stored workbook as "nan" and a value of [None] leaves the
    old text in the cell, where the format-preserving writer of the export
    path would have written the empty text in both cases. *)
Theorem cell_edit_writes_value_as_given :
  c_value <$> Scenario.stored_cell
                (update_admin_file_cell "panel schedule" 0 0 (VStr "nan")
                                        Scenario.stored_slot)
                "Panel Schedule" 1 1
  = Some (VStr "nan")
  /\ c_value <$> Scenario.stored_cell
                   (update_admin_file_cell "panel schedule" 0 0 VNone
                                           Scenario.stored_slot)
                   "Panel Schedule" 1 1
     = Some (VStr "3")
  /\ c_value <$> update_cell_preserve_format
                   {[ (1%Z, 1%Z) := Scenario.styled ]} 1 1 (VStr "nan")
                 !! (1%Z, 1%Z)
     = Some (VStr "")
  /\ c_value <$> update_cell_preserve_format
                   {[ (1%Z, 1%Z) := Scenario.styled ]} 1 1 VNone
                 !! (1%Z, 1%Z)
     = Some (VStr "").
Proof. vm_compute. repeat split. Qed.

End WriterFacts.

(* --------------------------------------------------------------------- *)
(** ** Evaluator assignment *)
(* --------------------------------------------------------------------- *)

Section EvaluatorFacts.
Import Names Store Schedule.

Lemma normalize_name_sharma :
  normalize_name "Dr. A B Sharma" = normalize_name "a b sharma".
Proof. reflexivity. Qed.

Lemma available_differs (profs : list string) (g p : string) :
  p ∈ available_evaluators profs g ->
  normalize_name p <> normalize_name g.
Proof.
  unfold available_evaluators. rewrite list_elem_of_filter.
  intros [Hp _]. apply Is_true_true in Hp. apply negb_true_iff in Hp.
  apply String.eqb_neq in Hp. exact Hp.
Qed.

(** An evaluator is a name that survived the filter, or the placeholder. *)
Lemma nth_available (profs : list string) (g dflt : string) (n : nat) :
  nth n (available_evaluators profs g) dflt = dflt
  \/ normalize_name (nth n (available_evaluators profs g) dflt)
     <> normalize_name g.
Proof.
  destruct (nth_in_or_default n (available_evaluators profs g) dflt) as [Hin|Hd].
  - right. apply (available_differs profs). apply list_elem_of_In. exact Hin.
  - left. exact Hd.
Qed.

Lemma assign_one_spec (d : db) (profs : list string) (g : string) :
  let a := assign_one d profs g in
  a_group_id a = g
  /\ a_guide a = guide_of d g
  /\ (a_evaluator1 a = "Default Eval 1"
      \/ normalize_name (a_evaluator1 a) <> normalize_name (a_guide a))
  /\ (a_evaluator2 a = "Default Eval 2"
      \/ normalize_name (a_evaluator2 a) <> normalize_name (a_guide a)).
Proof.
  cbn. repeat split; apply nth_available.
Qed.

(** C3, as stated, fails in a fallback case: the placeholders are not
    compared with the guide.  With a guide stored as "Default Eval 1" and a
    panel whose two names both normalize to that guide's name, no panel name
    is available, and the first evaluator is the placeholder "Default Eval 1",
    which normalizes exactly as the guide does. *)
Lemma placeholder_may_equal_guide :
  assign_evaluators_from_panel Scenario.placeholder_db
                               Scenario.placeholder_panel ["BIA-01"]
  = [Assignment "BIA-01" "Default Eval 1" "Default Eval 1" "Default Eval 2"]
  /\ normalize_name "Default Eval 1" = normalize_name "Default Eval 1"
  /\ ~ (forall a, a ∈ assign_evaluators_from_panel Scenario.placeholder_db
                        Scenario.placeholder_panel ["BIA-01"] ->
                  normalize_name (a_evaluator1 a) <> normalize_name (a_guide a)).
Proof.
  assert (H : assign_evaluators_from_panel Scenario.placeholder_db
                Scenario.placeholder_panel ["BIA-01"]
              = [Assignment "BIA-01" "Default Eval 1" "Default Eval 1"
                            "Default Eval 2"]) by (vm_compute; reflexivity).
  split; [exact H|]. split; [reflexivity|].
  intros Hall. rewrite H in Hall.
  apply (Hall (Assignment "BIA-01" "Default Eval 1" "Default Eval 1"
                          "Default Eval 2")).
  - apply list_elem_of_here.
  - reflexivity.
Qed.

(** C3, amended: for every store, panel list and group list, each assignment
    of [assign_evaluators_from_panel] carries the guide stored for its group,
    and its first (second) evaluator does not name-normalize to that guide's
    normalized name unless the guide itself normalizes to "default eval 1"
    ("default eval 2"), the normalized text of the placeholder; "Dr. A B
    Sharma" and "a b sharma" normalize alike. *)
Theorem evaluators_exclude_guide
        (d : db) (profs gids : list string) (a : assignment) :
  a ∈ assign_evaluators_from_panel d profs gids ->
  a_guide a = guide_of d (a_group_id a)
  /\ (normalize_name (a_guide a) <> "default eval 1" ->
      normalize_name (a_evaluator1 a) <> normalize_name (a_guide a))
  /\ (normalize_name (a_guide a) <> "default eval 2" ->
      normalize_name (a_evaluator2 a) <> normalize_name (a_guide a))
  /\ normalize_name "Dr. A B Sharma" = normalize_name "a b sharma".
Proof.
  unfold assign_evaluators_from_panel. rewrite list_elem_of_fmap.
  intros (g & -> & _).
  set (ps := if (length profs <? 2)%nat then default_profs else profs).
  destruct (assign_one_spec d ps g) as (Hg & Hguide & H1 & H2).
  split; [rewrite Hg; exact Hguide|]. split; [|split; [|reflexivity]].
  - intros Hne. destruct H1 as [H1|H1]; [|exact H1].
    rewrite H1. intros Heq. apply Hne. rewrite <- Heq. reflexivity.
  - intros Hne. destruct H2 as [H2|H2]; [|exact H2].
    rewrite H2. intros Heq. apply Hne. rewrite <- Heq. reflexivity.
Qed.

Lemma evaluators_exclude_guide_witness :
  assign_evaluators_from_panel Scenario.sharma_db Scenario.sharma_panel ["BIA-01"]
  = [Assignment "BIA-01" "a b sharma" "Prof. Kumar Rao" "Dr. Mehta Jain"]
  /\ normalize_name "Prof. Kumar Rao" <> normalize_name "a b sharma"
  /\ normalize_name "Dr. Mehta Jain" <> normalize_name "a b sharma".
Proof.
  assert (H : assign_evaluators_from_panel Scenario.sharma_db
                Scenario.sharma_panel ["BIA-01"]
              = [Assignment "BIA-01" "a b sharma" "Prof. Kumar Rao"
                            "Dr. Mehta Jain"]) by (vm_compute; reflexivity).
  split; [exact H|].
  destruct (evaluators_exclude_guide Scenario.sharma_db Scenario.sharma_panel
              ["BIA-01"]
              (Assignment "BIA-01" "a b sharma" "Prof. Kumar Rao" "Dr. Mehta Jain"))
    as (_ & H1 & H2 & _).
  - rewrite H. apply list_elem_of_here.
  - split; [apply H1 | apply H2]; vm_compute; discriminate.
Defined.

End EvaluatorFacts.

(* --------------------------------------------------------------------- *)
(** ** Roster walk: carry-forward *)
(* --------------------------------------------------------------------- *)

Section RosterFacts.
Import Store Pandas Env Roster.
Context (E : env).

Lemma row_body_done div row st :
  row_body E div row st = Done (member_step E row (project_step E div row st)).
Proof. reflexivity. Qed.

(** The row index only matters to the handler, which the body never
    reaches. *)
Lemma row_step_index div st i j row :
  row_step E div st (i, row) = row_step E div st (j, row).
Proof. reflexivity. Qed.

Lemma walk_app div pre post st :
  walk E div (pre ++ post) st = walk E div post (walk E div pre st).
Proof. unfold walk. apply fold_left_app. Qed.

Lemma walk_imap_index div (f g : nat -> nat) (z : list cell -> series)
      (rows : list (list cell)) : forall st,
  walk E div (imap (fun i v => (f i, z v)) rows) st
  = walk E div (imap (fun i v => (g i, z v)) rows) st.
Proof.
  revert f g. induction rows as [|v rows IH]; intros f g st; [reflexivity|].
  cbn [imap]. unfold walk in *. cbn [fold_left].
  rewrite (row_step_index div st (f 0) (g 0)).
  apply (IH (f ∘ S) (g ∘ S)).
Qed.

(** A row without a filled group cell, met before any group header, leaves
    every variable of the walk, the store and the log as they are. *)
Lemma headless_row_dropped div st ir :
  group_id st = None -> header_group (snd ir) = None ->
  row_step E div st ir = st.
Proof.
  intros Hg Hh. unfold row_step, row_body, project_step, member_step.
  rewrite Hh, Hg. reflexivity.
Qed.

Lemma headless_prefix_dropped div (pre : list (nat * series)) : forall st,
  group_id st = None ->
  Forall (fun ir => header_group (snd ir) = None) pre ->
  walk E div pre st = st.
Proof.
  induction pre as [|ir pre IH]; intros st Hg Hpre; [reflexivity|].
  inversion Hpre as [|? ? Hir Hrest]; subst.
  unfold walk in *. cbn [fold_left].
  rewrite (headless_row_dropped div st ir Hg Hir). apply IH; assumption.
Qed.

Lemma Forall_imap_rows (cols : list string) (f : nat -> nat)
      (rows : list (list cell)) :
  Forall (fun vals => header_group (zip cols vals) = None) rows ->
  Forall (fun ir : nat * series => header_group (snd ir) = None)
         (imap (fun i vals => (f i, zip cols vals)) rows).
Proof.
  revert f. induction rows as [|v rows IH]; intros f H; cbn [imap].
  - constructor.
  - inversion H; subst. constructor; [assumption|]. apply (IH (f ∘ S)). assumption.
Qed.

(** C7: rows that stand above the first filled "Group No." cell of a
    division sheet are dropped.  Whatever their roll number and student name
    cells hold, the counts, the store and the log that
    [process_division_enhanced_with_normalization] produces for the sheet are
    those it produces for the sheet without these rows: no member is inserted
    for them and none of them is attached to a group met further down. *)
Theorem leading_member_rows_dropped
        (cols : list string) (pre rest : list (list cell))
        (division_name : string) (d : db) (l : list log_entry) :
  Forall (fun vals => header_group (zip (map rename_column cols) vals) = None)
         pre ->
  process_division_enhanced_with_normalization
    E (DataFrame cols (pre ++ rest)) division_name d l
  = process_division_enhanced_with_normalization
      E (DataFrame cols rest) division_name d l.
Proof.
  intros Hpre.
  unfold process_division_enhanced_with_normalization.
  destruct cols as [|c cols]; [reflexivity|].
  set (cs := map rename_column (c :: cols)) in *.
  destruct rest as [|r rest].
  - rewrite app_nil_r. destruct pre as [|p pre]; [reflexivity|].
    unfold normalize_dataframe_columns, iterrows. cbn [empty columns rows].
    fold cs.
    rewrite (headless_prefix_dropped division_name _ (State None [] 0 d l)
               eq_refl (Forall_imap_rows cs (fun i => i) (p :: pre) Hpre)).
    reflexivity.
  - assert (He : empty (DataFrame (c :: cols) (pre ++ r :: rest)) = false)
      by (destruct pre; reflexivity).
    unfold normalize_dataframe_columns. rewrite He.
    unfold iterrows. cbn [empty columns rows]. fold cs.
    rewrite imap_app, walk_app.
    rewrite (headless_prefix_dropped division_name _ (State None [] 0 d l)
               eq_refl (Forall_imap_rows cs (fun i => i) pre Hpre)).
    rewrite (walk_imap_index division_name
               (fun n => length pre + n) (fun n => n) (zip cs)).
    reflexivity.
Qed.

End RosterFacts.

Lemma leading_member_rows_dropped_witness :
  Roster.process_division_enhanced_with_normalization
    Env.accepting
    (Pandas.DataFrame Scenario.roster_columns
                      (Scenario.orphan_rows ++ Scenario.headed_rows))
    "A" Store.empty_db []
  = Roster.process_division_enhanced_with_normalization
      Env.accepting
      (Pandas.DataFrame Scenario.roster_columns Scenario.headed_rows)
      "A" Store.empty_db [].
Proof.
  apply (leading_member_rows_dropped Env.accepting Scenario.roster_columns
           Scenario.orphan_rows Scenario.headed_rows "A" Store.empty_db []).
  repeat (constructor; [vm_compute; reflexivity|]). constructor.
Defined.

(* --------------------------------------------------------------------- *)
(** ** Row-level failures *)
(* --------------------------------------------------------------------- *)

Section FailureFacts.
Import PyStr Store Pandas Env.
Context (E : env).

Lemma schedule_walk_app pre post st :
  Schedule.walk E (pre ++ post) st = Schedule.walk E post (Schedule.walk E pre st).
Proof. unfold Schedule.walk. apply fold_left_app. Qed.

(** A schedule row raises before it has touched anything. *)
Lemma schedule_raise_leaves_state row st st' :
  Schedule.row_body E row st = Raised st' -> st' = st.
Proof.
  unfold Schedule.row_body.
  destruct (get "Track" row) as [|t|cs]; [discriminate| |congruence].
  destruct (negb (notnull t)); [discriminate|].
  destruct (int t) as [track|]; [|congruence].
  destruct (Schedule.location_of row track) as [loc|]; [|congruence].
  destruct (GroupId.extract_all_group_ids (row_values row)); discriminate.
Qed.

Lemma rejected_project_logged div row st g :
  Roster.header_group row = Some g ->
  rejects E (InsertIgnoreProject g (Roster.project_of div row)) (Roster.store st)
  = true ->
  Roster.project_step E div row st
  = Roster.logged (ProjectError g)
      (Roster.State (Some g) (Roster.processed_groups st)
                    (Roster.processed_members st) (Roster.store st)
                    (Roster.log st)).
Proof.
  intros Hg Hrej. unfold Roster.project_step, execute. rewrite Hg.
  cbn [Roster.store]. rewrite Hrej. reflexivity.
Qed.

Lemma rejected_member_logged row st g r m :
  Roster.group_id st = Some g -> truthy g = true ->
  Roster.member_of row = Some (r, m) ->
  rejects E (InsertIgnoreMember g r m) (Roster.store st) = true ->
  Roster.member_step E row st = Roster.logged (MemberError g) st.
Proof.
  intros Hg Ht Hm Hrej. unfold Roster.member_step, execute.
  rewrite Hg, Ht, Hm, Hrej. reflexivity.
Qed.

(** The log of the schedule loop is only appended to: a step from a state
    with a log is the step from the same state without one, with the log
    put in front. *)
Lemma assign_step_relog track profs loc n g d l a :
  Schedule.assign_step E track profs loc (Schedule.State n g d l) a
  = Schedule.relog l
      (Schedule.assign_step E track profs loc (Schedule.State n g d []) a).
Proof.
  unfold Schedule.assign_step, Schedule.relog, Schedule.logged, execute.
  cbn [Schedule.store Schedule.log Schedule.schedule_processed
       Schedule.all_scheduled_groups].
  destruct (rejects E _ d);
    [cbn [Schedule.store Schedule.log Schedule.schedule_processed
          Schedule.all_scheduled_groups]; reflexivity|].
  destruct (rejects E _ _);
    cbn [Schedule.store Schedule.log Schedule.schedule_processed
         Schedule.all_scheduled_groups];
    rewrite ?app_nil_r; reflexivity.
Qed.

Lemma relog_relog l1 l2 st :
  Schedule.relog l1 (Schedule.relog l2 st) = Schedule.relog (l1 ++ l2) st.
Proof. unfold Schedule.relog. cbn. rewrite app_assoc. reflexivity. Qed.

Lemma assign_fold_relog track profs loc assignments : forall n g d l,
  fold_left (Schedule.assign_step E track profs loc) assignments
            (Schedule.State n g d l)
  = Schedule.relog l
      (fold_left (Schedule.assign_step E track profs loc) assignments
                 (Schedule.State n g d [])).
Proof.
  induction assignments as [|a rest IH]; intros n g d l; cbn [fold_left].
  - unfold Schedule.relog. cbn. rewrite app_nil_r. reflexivity.
  - rewrite assign_step_relog.
    destruct (Schedule.assign_step E track profs loc
                (Schedule.State n g d []) a) as [n1 g1 d1 l1].
    unfold Schedule.relog at 1.
    cbn [Schedule.store Schedule.log Schedule.schedule_processed
         Schedule.all_scheduled_groups].
    rewrite (IH n1 g1 d1 (l ++ l1)%list), (IH n1 g1 d1 l1), relog_relog.
    reflexivity.
Qed.

Lemma row_step_relog n g d l ir :
  Schedule.row_step E (Schedule.State n g d l) ir
  = Schedule.relog l (Schedule.row_step E (Schedule.State n g d []) ir).
Proof.
  assert (Hid : Schedule.State n g d l
                = Schedule.relog l (Schedule.State n g d []))
    by (unfold Schedule.relog; cbn; rewrite app_nil_r; reflexivity).
  assert (Herr : forall e,
             Schedule.logged e (Schedule.State n g d l)
             = Schedule.relog l (Schedule.logged e (Schedule.State n g d [])))
    by (intros e; reflexivity).
  unfold Schedule.row_step, Schedule.row_body.
  destruct (get "Track" (snd ir)) as [|t|cs];
    [exact Hid | | apply Herr].
  destruct (negb (notnull t)); [exact Hid|].
  destruct (int t) as [track|]; [|apply Herr].
  destruct (Schedule.location_of (snd ir) track) as [loc|]; [|apply Herr].
  destruct (GroupId.extract_all_group_ids (row_values (snd ir)))
    as [|g0 gs]; [exact Hid|].
  cbn [Schedule.store]. rewrite assign_fold_relog.
  destruct (fold_left _ _ (Schedule.State n g d [])) as [n1 g1 d1 l1].
  reflexivity.
Qed.

Lemma walk_relog irs : forall n g d l,
  Schedule.walk E irs (Schedule.State n g d l)
  = Schedule.relog l (Schedule.walk E irs (Schedule.State n g d [])).
Proof.
  unfold Schedule.walk.
  induction irs as [|ir rest IH]; intros n g d l; cbn [fold_left].
  - unfold Schedule.relog. cbn. rewrite app_nil_r. reflexivity.
  - rewrite row_step_relog.
    destruct (Schedule.row_step E (Schedule.State n g d []) ir)
      as [n1 g1 d1 l1].
    unfold Schedule.relog at 1.
    cbn [Schedule.store Schedule.log Schedule.schedule_processed
         Schedule.all_scheduled_groups].
    rewrite (IH n1 g1 d1 (l ++ l1)%list), (IH n1 g1 d1 l1), relog_relog.
    reflexivity.
Qed.

(** C9, as stated, fails in the roster walk: a row whose failure is caught
    is not skipped.  With a database that refuses the project of the group
    the first row opens, the refusal is logged, but the group stays the
    current one: the member of that row and the member of the row after it
    are stored under a group that has no project.  Without the first row,
    the second row has no group and stores nothing. *)
Lemma refused_project_row_not_skipped :
  Roster.process_division_enhanced_with_normalization
    Scenario.strict Scenario.refused_roster "A" empty_db []
  = ((0, 2),
     Db ∅ {[ ("BIA-000000000001", "21") := Member "Asha K" "";
              ("BIA-000000000001", "22") := Member "Ravi M" "" ]} ∅,
     [ProjectError "BIA-000000000001"])
  /\ Roster.process_division_enhanced_with_normalization
       Scenario.strict Scenario.refused_roster_rest "A" empty_db []
     = ((0, 0), empty_db, [])
  /\ ~ (forall E0 cols row rest div d l,
          Roster.log (Roster.walk E0 div [(0, zip cols row)]
                 (Roster.State None [] 0 d l)) <> l ->
          snd (fst (Roster.process_division_enhanced_with_normalization
                      E0 (DataFrame cols (row :: rest)) div d l))
          = snd (fst (Roster.process_division_enhanced_with_normalization
                        E0 (DataFrame cols rest) div d l))).
Proof.
  split; [vm_compute; reflexivity|]. split; [vm_compute; reflexivity|].
  intros Hall.
  specialize (Hall Scenario.strict
                ["Group No."; "Roll No."; "Name of the group member"]
                [Text "BIA-000000000001"; Text "21"; Text "Asha K"]
                [[NaN; Text "22"; Text "Ravi M"]] "A" empty_db []).
  assert (Hlog : Roster.log (Roster.walk Scenario.strict "A"
                        [(0, zip ["Group No."; "Roll No.";
                                  "Name of the group member"]
                                 [Text "BIA-000000000001"; Text "21";
                                  Text "Asha K"])]
                        (Roster.State None [] 0 empty_db [])) <> [])
    by (vm_compute; discriminate).
  specialize (Hall Hlog). vm_compute in Hall. discriminate Hall.
Qed.

(** C9, amended: a failure inside one row never ends a walk, and what it
    leaves is this.  In the schedule walk a row whose body raises (a track
    that is not a number, a label carried by several columns) is skipped
    as a whole: the walk ends with the tables, the scheduled groups and the
    row count of the walk over the sheet without that row, and with its
    log, into which one entry with the index of the row is put at the
    place of the row.  In the roster walk a row does not raise past the
    handlers of its two inserts; an insert the database refuses is dropped
    alone and logged with one entry naming the group.  A refused project
    leaves the group of the row current, so the member part of the row
    still runs, and the rows after it are processed from that state. *)
Theorem row_failure_never_aborts_walk :
  (forall pre i row post st st',
      Schedule.row_body E row (Schedule.walk E pre st) = Raised st' ->
      let at_row := Schedule.walk E pre st in
      let without := Schedule.walk E (pre ++ post) st in
      let within := Schedule.walk E (pre ++ (i, row) :: post) st in
      Schedule.store within = Schedule.store without
      /\ Schedule.all_scheduled_groups within
         = Schedule.all_scheduled_groups without
      /\ Schedule.schedule_processed within
         = Schedule.schedule_processed without
      /\ exists tail,
           Schedule.log without = (Schedule.log at_row ++ tail)%list
           /\ Schedule.log within
              = (Schedule.log at_row ++ ScheduleRowError i :: tail)%list)
  /\ (forall div pre i row post st g,
         Roster.header_group row = Some g ->
         let at_row := Roster.walk E div pre st in
         rejects E (InsertIgnoreProject g (Roster.project_of div row))
                 (Roster.store at_row) = true ->
         Roster.walk E div (pre ++ (i, row) :: post) st
         = Roster.walk E div post
             (Roster.member_step E row
                (Roster.State (Some g) (Roster.processed_groups at_row)
                              (Roster.processed_members at_row)
                              (Roster.store at_row)
                              (Roster.log at_row ++ [ProjectError g])%list)))
  /\ (forall div pre i row post st g r m,
         let opened := Roster.project_step E div row
                         (Roster.walk E div pre st) in
         Roster.group_id opened = Some g -> truthy g = true ->
         Roster.member_of row = Some (r, m) ->
         rejects E (InsertIgnoreMember g r m) (Roster.store opened) = true ->
         Roster.walk E div (pre ++ (i, row) :: post) st
         = Roster.walk E div post
             (Roster.State (Some g) (Roster.processed_groups opened)
                           (Roster.processed_members opened)
                           (Roster.store opened)
                           (Roster.log opened ++ [MemberError g])%list)).
Proof.
  split; [|split].
  - intros pre i row post st st' Hraise at_row without within.
    subst without within.
    rewrite !schedule_walk_app. fold at_row.
    assert (Hstep : Schedule.walk E ((i, row) :: post) at_row
                    = Schedule.walk E post
                        (Schedule.logged (ScheduleRowError i) at_row)).
    { unfold Schedule.walk. cbn [fold_left]. f_equal.
      unfold Schedule.row_step. cbn [fst snd]. subst at_row.
      rewrite Hraise, (schedule_raise_leaves_state _ _ _ Hraise).
      reflexivity. }
    rewrite Hstep. unfold Schedule.logged.
    destruct at_row as [n g d l].
    cbn [Schedule.store Schedule.log Schedule.schedule_processed
         Schedule.all_scheduled_groups].
    rewrite (walk_relog post n g d (l ++ [ScheduleRowError i])%list),
      (walk_relog post n g d l).
    destruct (Schedule.walk E post (Schedule.State n g d [])) as [n1 g1 d1 l1].
    unfold Schedule.relog.
    cbn [Schedule.store Schedule.log Schedule.schedule_processed
         Schedule.all_scheduled_groups].
    repeat split. exists l1. split; [reflexivity|].
    rewrite <- app_assoc. reflexivity.
  - intros div pre i row post st g Hg at_row Hrej.
    rewrite walk_app. fold at_row.
    unfold Roster.walk at 1. cbn [fold_left]. fold (Roster.walk E div post).
    f_equal. unfold Roster.row_step, Roster.row_body. cbn [fst snd].
    rewrite (rejected_project_logged div row at_row g Hg Hrej).
    reflexivity.
  - intros div pre i row post st g r m opened Hg Ht Hm Hrej.
    rewrite walk_app.
    unfold Roster.walk at 1. cbn [fold_left]. fold (Roster.walk E div post).
    f_equal. unfold Roster.row_step, Roster.row_body. cbn [fst snd].
    fold opened.
    rewrite (rejected_member_logged row opened g r m Hg Ht Hm Hrej).
    unfold Roster.logged. rewrite Hg. reflexivity.
Qed.

End FailureFacts.

Lemma row_failure_never_aborts_walk_witness :
  Schedule.store (Schedule.walk Env.accepting Scenario.broken_schedule
                                Scenario.schedule_start)
  = Schedule.store
      (Schedule.walk Env.accepting
         (take 1 Scenario.broken_schedule ++ drop 2 Scenario.broken_schedule)
         Scenario.schedule_start)
  /\ Schedule.log (Schedule.walk Env.accepting Scenario.broken_schedule
                                 Scenario.schedule_start)
     = [Store.ScheduleRowError 1].
Proof.
  destruct (proj1 (row_failure_never_aborts_walk Env.accepting)
              (take 1 Scenario.broken_schedule) 1
              [("Track", Pandas.Text "two"); ("Name of the Panel", Pandas.NaN);
               ("Group ID", Pandas.Text "BIA-02"); ("Location", Pandas.NaN)]
              (drop 2 Scenario.broken_schedule) Scenario.schedule_start
              (Schedule.walk Env.accepting (take 1 Scenario.broken_schedule)
                             Scenario.schedule_start))
    as (Hstore & _ & _ & tail & Hwithout & Hwithin).
  - vm_compute. reflexivity.
  - split; [exact Hstore|].
    change (take 1 Scenario.broken_schedule
            ++ (1, [("Track", Pandas.Text "two");
                    ("Name of the Panel", Pandas.NaN);
                    ("Group ID", Pandas.Text "BIA-02");
                    ("Location", Pandas.NaN)])
               :: drop 2 Scenario.broken_schedule)%list
      with Scenario.broken_schedule in Hwithin.
    rewrite Hwithin. vm_compute in Hwithout.
    destruct tail; [reflexivity | discriminate Hwithout].
Defined.

(* --------------------------------------------------------------------- *)
(** ** Full reconciliation *)
(* --------------------------------------------------------------------- *)

Section RebuildFacts.
Import Store Pandas Env.
Context (E : env).

(** The log is only written to: two roster states that agree on everything
    but the log still do after a row. *)
Lemma roster_step_agree div s1 s2 ir :
  Roster.agree s1 s2 ->
  Roster.agree (Roster.row_step E div s1 ir) (Roster.row_step E div s2 ir).
Proof.
  destruct s1 as [g1 pg1 pm1 d1 l1], s2 as [g2 pg2 pm2 d2 l2].
  unfold Roster.agree. cbn. intros (-> & -> & -> & ->).
  unfold Roster.row_step, Roster.row_body, Roster.project_step,
    Roster.member_step, Roster.logged.
  repeat (case_match; cbn in *; simplify_eq); auto.
Qed.

Lemma roster_walk_agree div irs : forall s1 s2,
  Roster.agree s1 s2 ->
  Roster.agree (Roster.walk E div irs s1) (Roster.walk E div irs s2).
Proof.
  induction irs as [|ir irs IH]; intros s1 s2 H; [exact H|].
  unfold Roster.walk in *. cbn [fold_left].
  apply IH. apply roster_step_agree. exact H.
Qed.

Lemma process_division_log_free df div d l l' :
  fst (Roster.process_division_enhanced_with_normalization E df div d l)
  = fst (Roster.process_division_enhanced_with_normalization E df div d l').
Proof.
  unfold Roster.process_division_enhanced_with_normalization.
  destruct (empty df); [reflexivity|]. cbn [fst].
  destruct (roster_walk_agree div (iterrows (normalize_dataframe_columns df))
              (Roster.State None [] 0 d l) (Roster.State None [] 0 d l'))
    as (_ & Hpg & Hpm & Hst).
  { repeat split. }
  rewrite Hpg, Hpm, Hst. reflexivity.
Qed.

Lemma assign_step_agree track profs loc s1 s2 a :
  Schedule.agree s1 s2 ->
  Schedule.agree (Schedule.assign_step E track profs loc s1 a)
                 (Schedule.assign_step E track profs loc s2 a).
Proof.
  destruct s1 as [n1 g1 d1 l1], s2 as [n2 g2 d2 l2].
  unfold Schedule.agree. cbn. intros (-> & -> & ->).
  unfold Schedule.assign_step, Schedule.logged. cbn.
  repeat (case_match; cbn in *; simplify_eq); auto.
Qed.

Lemma assign_fold_agree track profs loc assignments : forall s1 s2,
  Schedule.agree s1 s2 ->
  Schedule.agree
    (fold_left (Schedule.assign_step E track profs loc) assignments s1)
    (fold_left (Schedule.assign_step E track profs loc) assignments s2).
Proof.
  induction assignments as [|a assignments IH]; intros s1 s2 H; [exact H|].
  cbn [fold_left]. apply IH. apply assign_step_agree. exact H.
Qed.

Lemma schedule_step_agree s1 s2 ir :
  Schedule.agree s1 s2 ->
  Schedule.agree (Schedule.row_step E s1 ir) (Schedule.row_step E s2 ir).
Proof.
  intros H. pose proof H as (Hn & Hg & Hd).
  unfold Schedule.row_step, Schedule.row_body.
  destruct (get "Track" (snd ir)) as [|t|cs]; [exact H| |exact H].
  destruct (negb (notnull t)); [exact H|].
  destruct (int t) as [track|]; [|exact H].
  destruct (Schedule.location_of (snd ir) track) as [loc|]; [|exact H].
  destruct (GroupId.extract_all_group_ids (row_values (snd ir)))
    as [|g gs]; [exact H|].
  rewrite <- Hd.
  match goal with
  | |- context [fold_left ?f ?xs s1] =>
      destruct (assign_fold_agree track
                  match Schedule.parse_panel (Schedule.panel_text_of E (snd ir)) with
                  | [] => Schedule.default_panel track
                  | p :: ps => p :: ps
                  end loc xs s1 s2 H) as (Hn' & Hg' & Hd')
  end.
  unfold Schedule.agree.
  cbn [Schedule.schedule_processed Schedule.all_scheduled_groups
       Schedule.store].
  rewrite Hn', Hg', Hd'. repeat split.
Qed.

Lemma schedule_walk_agree irs : forall s1 s2,
  Schedule.agree s1 s2 ->
  Schedule.agree (Schedule.walk E irs s1) (Schedule.walk E irs s2).
Proof.
  induction irs as [|ir irs IH]; intros s1 s2 H; [exact H|].
  unfold Schedule.walk in *. cbn [fold_left].
  apply IH. apply schedule_step_agree. exact H.
Qed.

(** The statements of the schedule loop never change the guide of a
    project. *)
Lemma upsert_keeps_guides k pa d g :
  Schedule.guide_of (run (UpsertPanelAssignment k pa) d) g
  = Schedule.guide_of d g.
Proof. reflexivity. Qed.

Lemma update_evaluators_keeps_guides k e1 e2 d g :
  Schedule.guide_of (run (UpdateProjectEvaluators k e1 e2) d) g
  = Schedule.guide_of d g.
Proof.
  unfold Schedule.guide_of, run. cbn [projects].
  rewrite lookup_alter. case_decide; [subst|reflexivity].
  destruct (projects d !! g); reflexivity.
Qed.

Lemma assign_step_keeps_guides track profs loc st a g :
  Schedule.guide_of (Schedule.store (Schedule.assign_step E track profs loc st a)) g
  = Schedule.guide_of (Schedule.store st) g.
Proof.
  unfold Schedule.assign_step, execute.
  destruct (rejects E _ (Schedule.store st)); [reflexivity|].
  destruct (rejects E _ _); cbn [Schedule.store Schedule.logged].
  - apply upsert_keeps_guides.
  - rewrite update_evaluators_keeps_guides. apply upsert_keeps_guides.
Qed.

(** What a run leaves in the tables and returns depends on the three sheets
    alone: not on the tables it found, not on the log. *)
Lemma process_all_from_scratch div_a div_b sched d l d' l' :
  fst (Schedule.process_all_data_with_normalization E div_a div_b sched d l)
  = fst (Schedule.process_all_data_with_normalization E div_a div_b sched d' l').
Proof.
  unfold Schedule.process_all_data_with_normalization, delete_all.
  pose proof (process_division_log_free div_a "A" empty_db l l') as Ha.
  destruct (Roster.process_division_enhanced_with_normalization
              E div_a "A" empty_db l) as [[[ga ma] da] la].
  destruct (Roster.process_division_enhanced_with_normalization
              E div_a "A" empty_db l') as [[[ga' ma'] da'] la'].
  cbn [fst] in Ha. injection Ha as -> -> ->.
  pose proof (process_division_log_free div_b "B" da' la la') as Hb.
  destruct (Roster.process_division_enhanced_with_normalization
              E div_b "B" da' la) as [[[gb mb] db_] lb].
  destruct (Roster.process_division_enhanced_with_normalization
              E div_b "B" da' la') as [[[gb' mb'] db'] lb'].
  cbn [fst] in Hb. injection Hb as -> -> ->.
  destruct (schedule_walk_agree (iterrows (normalize_dataframe_columns sched))
              (Schedule.State 0 ∅ db' lb) (Schedule.State 0 ∅ db' lb'))
    as (_ & Hg & Hd).
  { repeat split. }
  cbn [fst]. rewrite Hg, Hd. reflexivity.
Qed.

(** C4: full reconciliation is an idempotent full rebuild.  A run empties
    the three tables and rebuilds them from the sheets, so the tables and the
    summary it leaves are those a run from the empty store leaves, and a
    second run on the same sheets, started from the tables and the log the
    first run left, ends with the same projects, members and panel
    assignments and the same summary. *)
Theorem full_rebuild_idempotent
        (div_a div_b sched : dataframe) (d : db) (l : list log_entry) :
  let run := Schedule.process_all_data_with_normalization E div_a div_b sched in
  let once := run d l in
  let twice := run (Schedule.tables_of once) (Schedule.log_of once) in
  Schedule.tables_of twice = Schedule.tables_of once
  /\ Schedule.summary_of twice = Schedule.summary_of once
  /\ Schedule.tables_of once = Schedule.tables_of (run empty_db [])
  /\ Schedule.tables_of once
     = Schedule.tables_of (run (delete_all d) l).
Proof.
  intros run once twice.
  unfold Schedule.tables_of, Schedule.summary_of, Schedule.log_of.
  assert (H : fst twice = fst once) by apply process_all_from_scratch.
  assert (H0 : fst once = fst (run empty_db []))
    by apply process_all_from_scratch.
  assert (H1 : fst once = fst (run (delete_all d) l))
    by apply process_all_from_scratch.
  split; [rewrite H; reflexivity|]. split; [rewrite H; reflexivity|].
  split; [rewrite H0 | rewrite H1]; reflexivity.
Qed.

End RebuildFacts.

(* --------------------------------------------------------------------- *)
(** ** Group-identifier extractor *)
(* --------------------------------------------------------------------- *)

Section GroupIdFacts.
Import PyStr GroupId.

Lemma str_app_nil (b : string) : "" +:+ b = b.
Proof. reflexivity. Qed.

Lemma str_app_cons (c : ascii) (a b : string) :
  String c a +:+ b = String c (a +:+ b).
Proof. reflexivity. Qed.

Ltac push_app := rewrite ?str_app_cons, ?str_app_nil.

(** Evaluates the formatting of an identifier whose characters are known up
    to the division letter and the digits. *)
Ltac format_ident :=
  cbv [String.append take drop String.length Nat.eqb canonical_group_id
       format_no_hyphen format_space zfill2 fst snd];
  change (Ascii.eqb "B" "B") with true;
  change (Ascii.eqb "I" "I") with true;
  change (Ascii.eqb "-" "-") with true;
  change (is_digit "0") with true;
  cbn [andb].

Lemma str_length_app (a b : string) :
  String.length (a +:+ b) = (String.length a + String.length b)%nat.
Proof.
  induction a as [|c a IH]; push_app; cbn; [reflexivity|].
  rewrite IH. reflexivity.
Qed.

Lemma str_app_assoc (a b c : string) : (a +:+ b) +:+ c = a +:+ b +:+ c.
Proof.
  induction a as [|x a IH]; push_app; [reflexivity|]. rewrite IH. reflexivity.
Qed.

Lemma str_app_empty_r (a : string) : a +:+ "" = a.
Proof.
  induction a as [|x a IH]; push_app; [reflexivity|]. rewrite IH. reflexivity.
Qed.

Lemma all_chars_app p a b :
  all_chars p a = true -> all_chars p b = true -> all_chars p (a +:+ b) = true.
Proof.
  induction a as [|x a IH]; push_app; cbn; intros Ha Hb; [exact Hb|].
  apply andb_true_iff in Ha as [Hx Ha]. rewrite Hx. cbn. apply IH; assumption.
Qed.

Lemma all_chars_impl (p q : ascii -> bool) s :
  (forall c, p c = true -> q c = true) ->
  all_chars p s = true -> all_chars q s = true.
Proof.
  intros Hpq. induction s as [|x s IH]; cbn; [reflexivity|].
  intros H. apply andb_true_iff in H as [Hx Hs].
  rewrite (Hpq _ Hx). cbn. apply IH. exact Hs.
Qed.

Lemma digit_not_separator c : is_digit c = true -> hyphen_or_space c = false.
Proof.
  destruct c as [[] [] [] [] [] [] [] []]; vm_compute; congruence.
Qed.

(** Every element [findall] returns was produced by the matcher. *)
Lemma findall_Forall {A} (m : string -> option (A * nat)) (P : A -> Prop) :
  (forall s a n, m s = Some (a, n) -> P a) ->
  forall s skip prev, Forall P (findall m skip prev s).
Proof.
  intros Hm. induction s as [|c s IH]; intros skip prev; cbn [findall].
  - constructor.
  - destruct skip; [|apply IH]. destruct prev; [apply IH|].
    destruct (m (String c s)) as [[a n]|] eqn:Hms; [|apply IH].
    constructor; [exact (Hm _ _ _ Hms) | apply IH].
Qed.

Lemma sub_scan_skip m : forall s k,
  (String.length s <= k)%nat -> sub_scan m k s = "".
Proof.
  induction s as [|c s IH]; intros k Hk; cbn [sub_scan]; [reflexivity|].
  cbn in Hk. destruct k; [lia|]. apply IH. lia.
Qed.

Lemma bi_prefix_shape s p rest :
  bi_prefix s = Some (p, rest) ->
  exists d, is_AB d = true /\ p = String "B" (String "I" (String d ""))
            /\ s = p +:+ rest.
Proof.
  destruct s as [|b [|i [|d r]]]; cbn; try discriminate.
  destruct (Ascii.eqb b "B") eqn:Hb; cbn; [|discriminate].
  destruct (Ascii.eqb i "I") eqn:Hi; cbn; [|discriminate].
  destruct (is_AB d) eqn:Hd; [|discriminate].
  apply Ascii.eqb_eq in Hb, Hi. subst. intros [= <- <-].
  exists d. repeat split. exact Hd.
Qed.

Lemma digits_then_boundary_shape s dg :
  digits_then_boundary s = Some dg -> digits12 dg = true.
Proof.
  destruct s as [|d1 s1]; cbn; [discriminate|].
  destruct (is_digit d1) eqn:H1; [|discriminate].
  destruct s1 as [|d2 s2].
  - intros [= <-]. cbn. exact H1.
  - destruct (is_digit d2 && word_end s2) eqn:H2.
    + intros [= <-]. cbn. apply andb_true_iff in H2 as [H2 _].
      rewrite H1, H2. reflexivity.
    + destruct (word_end (String d2 s2)); [|discriminate].
      intros [= <-]. cbn. exact H1.
Qed.

Lemma digits_greedy_all dg : digits12 dg = true -> digits_greedy dg = Some dg.
Proof.
  destruct dg as [|a [|b [|c r]]]; cbn; try discriminate.
  - intros ->. reflexivity.
  - intros H. apply andb_true_iff in H as [-> ->]. reflexivity.
Qed.

Lemma digits12_head dg :
  digits12 dg = true ->
  match dg with String c _ => hyphen_or_space c = false | EmptyString => True end.
Proof.
  destruct dg as [|a [|b [|c r]]]; cbn; try discriminate.
  - apply digit_not_separator.
  - intros H. apply andb_true_iff in H as [H _]. apply digit_not_separator, H.
Qed.

Lemma span_all p : forall s a b, span p s = (a, b) -> all_chars p a = true.
Proof.
  induction s as [|c s IH]; cbn; intros a b.
  - intros [= <- <-]. reflexivity.
  - destruct (p c) eqn:Hc.
    + destruct (span p s) as [a' b'] eqn:Hs. intros [= <- <-].
      cbn. rewrite Hc. cbn. apply (IH a' b'). reflexivity.
    + intros [= <- <-]. reflexivity.
Qed.

Lemma span_app p a b :
  all_chars p a = true ->
  match b with String c _ => p c = false | EmptyString => True end ->
  span p (a +:+ b) = (a, b).
Proof.
  intros Ha Hb. induction a as [|x a IH]; push_app; cbn.
  - destruct b as [|c b]; [reflexivity|]. cbn. rewrite Hb. reflexivity.
  - cbn in Ha. apply andb_true_iff in Ha as [Hx Ha].
    rewrite Hx, (IH Ha). reflexivity.
Qed.

Lemma opt_hyphen_shape rest hy r1 :
  opt_hyphen rest = (hy, r1) -> hy = "" \/ hy = "-".
Proof.
  destruct rest as [|c r]; cbn.
  - intros [= <- <-]. left. reflexivity.
  - destruct (Ascii.eqb c "-"); intros [= <- <-]; [right | left]; reflexivity.
Qed.

Lemma sub_scan_match m c s rep n :
  m (String c s) = Some (rep, n) ->
  sub_scan m 0 (String c s) = rep +:+ sub_scan m (Nat.pred n) s.
Proof. intros H. cbn [sub_scan]. rewrite H. reflexivity. Qed.

Lemma match_clean_matched d sep dg :
  is_AB d = true -> all_chars hyphen_or_space sep = true ->
  digits12 dg = true ->
  match_clean (String "B" (String "I" (String d (sep +:+ dg))))
  = Some (String "B" (String "I" (String d (String "-" dg))),
          3 + String.length sep + String.length dg).
Proof.
  intros Hd Hsep Hdg. unfold match_clean, bi_prefix.
  change (Ascii.eqb "B" "B") with true. change (Ascii.eqb "I" "I") with true.
  rewrite Hd. cbn [andb].
  rewrite (span_app _ _ _ Hsep (digits12_head _ Hdg)).
  rewrite (digits_greedy_all _ Hdg). push_app. reflexivity.
Qed.

(** The substitution of the first inner loop on a text the first pattern
    matched: the hyphen and the blanks go, one hyphen comes. *)
Lemma sub_scan_clean d hy sp dg :
  is_AB d = true -> hy = "" \/ hy = "-" ->
  all_chars is_space sp = true -> digits12 dg = true ->
  sub_scan match_clean 0
           (String "B" (String "I" (String d "")) +:+ hy +:+ sp +:+ dg)
  = String "B" (String "I" (String d (String "-" dg))).
Proof.
  intros Hd Hhy Hsp Hdg.
  assert (Hsep : all_chars hyphen_or_space (hy +:+ sp) = true).
  { apply all_chars_app.
    - destruct Hhy as [-> | ->]; reflexivity.
    - apply (all_chars_impl is_space); [|exact Hsp].
      intros c Hc. unfold hyphen_or_space. rewrite Hc. apply orb_true_r. }
  push_app. rewrite <- str_app_assoc.
  rewrite (sub_scan_match _ _ _ _ _ (match_clean_matched d _ dg Hd Hsep Hdg)).
  rewrite sub_scan_skip.
  - apply str_app_empty_r.
  - cbn [String.length Nat.pred Nat.add]. rewrite !str_length_app. lia.
Qed.

Lemma canonical_of_digits d dg :
  is_AB d = true -> digits12 dg = true ->
  canonical_group_id
    (let clean := String "B" (String "I" (String d (String "-" dg))) in
     if (String.length clean =? 5)%nat
     then take 4 clean +:+ "0" +:+ drop 4 clean else clean) = true.
Proof.
  intros Hd Hdg. destruct dg as [|a [|b [|c r]]]; cbn in Hdg; try discriminate.
  - format_ident. rewrite Hd, Hdg. reflexivity.
  - apply andb_true_iff in Hdg as [Ha Hb]. format_ident.
    rewrite Hd, Ha, Hb. reflexivity.
Qed.

Lemma match_standard_canonical s t n :
  match_standard s = Some (t, n) -> canonical_group_id (clean_standard t) = true.
Proof.
  unfold match_standard.
  destruct (bi_prefix s) as [[p rest]|] eqn:Hp; [|discriminate].
  destruct (bi_prefix_shape _ _ _ Hp) as (d & Hd & -> & _).
  destruct (opt_hyphen rest) as [hy r1] eqn:Hhy.
  destruct (span is_space r1) as [sp r2] eqn:Hsp.
  destruct (digits_then_boundary r2) as [dg|] eqn:Hdg; [|discriminate].
  intros [= <- _]. unfold clean_standard.
  rewrite (sub_scan_clean d hy sp dg Hd (opt_hyphen_shape _ _ _ Hhy)
             (span_all _ _ _ _ Hsp) (digits_then_boundary_shape _ _ Hdg)).
  apply canonical_of_digits; [exact Hd|].
  apply (digits_then_boundary_shape _ _ Hdg).
Qed.

Lemma match_no_hyphen_canonical s t n :
  match_no_hyphen s = Some (t, n) ->
  canonical_group_id (format_no_hyphen t) = true.
Proof.
  unfold match_no_hyphen.
  destruct (bi_prefix s) as [[p rest]|] eqn:Hp; [|discriminate].
  destruct (bi_prefix_shape _ _ _ Hp) as (d & Hd & -> & _).
  destruct (digits_then_boundary rest) as [dg|] eqn:Hdg; [|discriminate].
  intros [= <- _]. apply digits_then_boundary_shape in Hdg.
  destruct dg as [|a [|b [|c r]]]; cbn in Hdg; try discriminate.
  - format_ident. rewrite Hd, Hdg. reflexivity.
  - apply andb_true_iff in Hdg as [Ha Hb]. format_ident.
    rewrite Hd, Ha, Hb. reflexivity.
Qed.

Lemma match_space_canonical s pn n :
  match_space s = Some (pn, n) -> canonical_group_id (format_space pn) = true.
Proof.
  unfold match_space.
  destruct (bi_prefix s) as [[p rest]|] eqn:Hp; [|discriminate].
  destruct (bi_prefix_shape _ _ _ Hp) as (d & Hd & -> & _).
  destruct (span is_space rest) as [sp r1].
  destruct (truthy sp); [|discriminate].
  destruct (digits_then_boundary r1) as [dg|] eqn:Hdg; [|discriminate].
  intros [= <- _]. apply digits_then_boundary_shape in Hdg.
  destruct dg as [|a [|b [|c r]]]; cbn in Hdg; try discriminate.
  - format_ident. rewrite Hd, Hdg. reflexivity.
  - apply andb_true_iff in Hdg as [Ha Hb]. format_ident.
    rewrite Hd, Ha, Hb. reflexivity.
Qed.

Lemma cell_group_ids_canonical cell :
  Forall (fun g => canonical_group_id g = true) (cell_group_ids cell).
Proof.
  unfold cell_group_ids. rewrite !Forall_app, !Forall_fmap.
  split; [|split].
  - apply findall_Forall. intros s t n. apply match_standard_canonical.
  - apply findall_Forall. intros s t n. apply match_no_hyphen_canonical.
  - apply findall_Forall. intros s t n. apply match_space_canonical.
Qed.

Lemma elem_of_add_all ids : forall acc g,
  g ∈ add_all acc ids <-> g ∈ acc \/ g ∈ ids.
Proof.
  unfold add_all. induction ids as [|x ids IH]; intros acc g; cbn [fold_left].
  - split; [auto|]. intros [H|H]; [exact H | inversion H].
  - rewrite IH, elem_of_union, elem_of_singleton, elem_of_cons. tauto.
Qed.

Lemma elem_of_add_cells row : forall acc g,
  g ∈ fold_left add_cell row acc
  <-> g ∈ acc \/ exists cell, cell ∈ row /\ truthy cell = true
                               /\ g ∈ cell_group_ids cell.
Proof.
  induction row as [|c row IH]; intros acc g; cbn [fold_left].
  - split; [auto|]. intros [H|(cell & Hin & _)]; [exact H|]. inversion Hin.
  - rewrite IH. unfold add_cell. destruct (truthy c) eqn:Hc.
    + rewrite elem_of_add_all. split.
      * intros [[H|H]|(cell & Hin & Ht & Hg)]; [left; exact H | |].
        -- right. exists c. split; [apply list_elem_of_here | auto].
        -- right. exists cell. split; [apply list_elem_of_further, Hin | auto].
      * intros [H|(cell & Hin & Ht & Hg)]; [left; left; exact H|].
        apply elem_of_cons in Hin as [-> | Hin].
        -- left. right. exact Hg.
        -- right. exists cell. auto.
    + split.
      * intros [H|(cell & Hin & Ht & Hg)]; [left; exact H|].
        right. exists cell. split; [apply list_elem_of_further, Hin | auto].
      * intros [H|(cell & Hin & Ht & Hg)]; [left; exact H|].
        apply elem_of_cons in Hin as [-> | Hin]; [congruence|].
        right. exists cell. auto.
Qed.

#[local] Instance string_le_total : Total string_le.
Proof. intros a b. apply String.leb_total. Qed.

(** What [extract_all_group_ids] returns holds exactly the identifiers its
    non-empty cells contribute. *)
Lemma elem_of_extract row g :
  g ∈ extract_all_group_ids row
  <-> exists cell, cell ∈ row /\ truthy cell = true /\ g ∈ cell_group_ids cell.
Proof.
  unfold extract_all_group_ids.
  rewrite merge_sort_Permutation, elem_of_elements, elem_of_add_cells.
  split; [|auto]. intros [H|H]; [|exact H].
  apply not_elem_of_empty in H. destruct H.
Qed.

End GroupIdFacts.

(* --------------------------------------------------------------------- *)
(** ** The extractor on ASCII text and on text outside ASCII *)
(* --------------------------------------------------------------------- *)

Section WideFacts.
Import PyStr GroupId.
#[local] Open Scope list_scope.

#[local] Abbreviation cp := Wide.code_points.
#[local] Abbreviation plain := Wide.ascii_text.

Lemma plain_cons (c : ascii) (s : string) :
  plain (String c s) = true <-> (N_of_ascii c < 128)%N /\ plain s = true.
Proof.
  unfold Wide.ascii_text. cbn [all_chars].
  rewrite andb_true_iff, N.ltb_lt. reflexivity.
Qed.

Lemma plain_app (a b : string) :
  plain (a +:+ b) = plain a && plain b.
Proof.
  unfold Wide.ascii_text. induction a as [|c a IH]; [reflexivity|].
  rewrite str_app_cons. cbn [all_chars]. rewrite IH. apply andb_assoc.
Qed.

Lemma cp_app (a b : string) : cp (a +:+ b) = cp a ++ cp b.
Proof.
  induction a as [|c a IH]; [reflexivity|].
  rewrite str_app_cons. cbn. rewrite IH. reflexivity.
Qed.

Lemma cp_length (s : string) : List.length (cp s) = String.length s.
Proof. induction s as [|c s IH]; cbn; [reflexivity|]. rewrite IH. reflexivity. Qed.

Lemma cp_take (n : nat) : forall s, firstn n (cp s) = cp (take n s).
Proof.
  induction n as [|n IH]; intros [|c s]; cbn; try reflexivity.
  rewrite IH. reflexivity.
Qed.

Lemma cp_drop (n : nat) : forall s, skipn n (cp s) = cp (drop n s).
Proof.
  induction n as [|n IH]; intros [|c s]; cbn; try reflexivity. apply IH.
Qed.

#[local] Instance cp_inj : Inj (=) (=) Wide.code_points.
Proof.
  intros a. induction a as [|x a IH]; intros [|y b]; cbn; try discriminate.
  - reflexivity.
  - intros [= Hxy Hab]. f_equal; [|apply IH, Hab].
    rewrite <- (ascii_N_embedding x), <- (ascii_N_embedding y), Hxy.
    reflexivity.
Qed.

Lemma code_eqb (c k : ascii) :
  (N_of_ascii c =? N_of_ascii k)%N = Ascii.eqb c k.
Proof.
  destruct (Ascii.eqb_spec c k) as [->|Hne].
  - apply N.eqb_refl.
  - apply N.eqb_neq. intros Heq. apply Hne.
    rewrite <- (ascii_N_embedding c), <- (ascii_N_embedding k), Heq.
    reflexivity.
Qed.

Lemma upper_char_plain (c : ascii) :
  (N_of_ascii c < 128)%N -> (N_of_ascii (upper_char c) < 128)%N.
Proof. destruct c as [[] [] [] [] [] [] [] []]; vm_compute; congruence. Qed.

Lemma space_plain (c : ascii) : is_space c = true -> (N_of_ascii c < 128)%N.
Proof. destruct c as [[] [] [] [] [] [] [] []]; vm_compute; congruence. Qed.

Lemma digit_plain (c : ascii) : is_digit c = true -> (N_of_ascii c < 128)%N.
Proof. destruct c as [[] [] [] [] [] [] [] []]; vm_compute; congruence. Qed.

Lemma AB_plain (c : ascii) : is_AB c = true -> (N_of_ascii c < 128)%N.
Proof. destruct c as [[] [] [] [] [] [] [] []]; vm_compute; congruence. Qed.

Lemma upper_plain (s : string) : plain s = true -> plain (upper s) = true.
Proof.
  induction s as [|c s IH]; [reflexivity|].
  unfold upper in *. cbn [map_chars]. rewrite !plain_cons.
  intros [Hc Hs]. split; [apply upper_char_plain, Hc | apply IH, Hs].
Qed.

Lemma lstrip_plain (s : string) : plain s = true -> plain (lstrip s) = true.
Proof.
  induction s as [|c s IH]; [reflexivity|]. cbn [lstrip].
  destruct (is_space c); [|auto]. rewrite plain_cons. intros [_ Hs]. auto.
Qed.

Lemma rstrip_plain (s : string) : plain s = true -> plain (rstrip s) = true.
Proof.
  induction s as [|c s IH]; [reflexivity|]. cbn [rstrip].
  rewrite plain_cons. intros [Hc Hs]. specialize (IH Hs).
  destruct (rstrip s) as [|x r].
  - destruct (is_space c); [reflexivity|]. apply plain_cons. auto.
  - apply plain_cons. auto.
Qed.

Lemma digits12_plain (dg : string) : digits12 dg = true -> plain dg = true.
Proof.
  destruct dg as [|a [|b [|c r]]]; cbn [digits12]; try discriminate.
  - intros H. apply plain_cons. split; [apply digit_plain, H | reflexivity].
  - intros H. apply andb_true_iff in H as [Ha Hb].
    apply plain_cons. split; [apply digit_plain, Ha|].
    apply plain_cons. split; [apply digit_plain, Hb | reflexivity].
Qed.

Lemma spaces_plain (sp : string) :
  all_chars is_space sp = true -> plain sp = true.
Proof.
  apply all_chars_impl. intros c Hc. apply N.ltb_lt, space_plain, Hc.
Qed.

(** What the first pattern matches is ASCII text, whatever the cell. *)
Lemma match_standard_plain s t n :
  match_standard s = Some (t, n) -> plain t = true.
Proof.
  unfold match_standard.
  destruct (bi_prefix s) as [[p rest]|] eqn:Hp; [|discriminate].
  destruct (bi_prefix_shape _ _ _ Hp) as (d & Hd & -> & _).
  destruct (opt_hyphen rest) as [hy r1] eqn:Hhy.
  destruct (span is_space r1) as [sp r2] eqn:Hsp.
  destruct (digits_then_boundary r2) as [dg|] eqn:Hdg; [|discriminate].
  intros [= <- _]. rewrite !plain_app.
  rewrite (spaces_plain _ (span_all _ _ _ _ Hsp)).
  rewrite (digits12_plain _ (digits_then_boundary_shape _ _ Hdg)).
  assert (Hpd : plain (String "B" (String "I" (String d ""))) = true).
  { apply plain_cons. split; [vm_compute; reflexivity|].
    apply plain_cons. split; [vm_compute; reflexivity|].
    apply plain_cons. split; [apply AB_plain, Hd | reflexivity]. }
  rewrite Hpd.
  destruct (opt_hyphen_shape _ _ _ Hhy) as [-> | ->]; reflexivity.
Qed.

Lemma bi_prefix_rest s p rest :
  bi_prefix s = Some (p, rest) -> plain s = true -> plain rest = true.
Proof.
  intros Hp Hs. destruct (bi_prefix_shape _ _ _ Hp) as (d & _ & _ & ->).
  rewrite plain_app in Hs. apply andb_true_iff in Hs as [_ Hs]. exact Hs.
Qed.

Lemma opt_hyphen_rest s hy r1 :
  opt_hyphen s = (hy, r1) -> plain s = true -> plain r1 = true.
Proof.
  destruct s as [|c s]; cbn [opt_hyphen].
  - intros [= <- <-]. auto.
  - destruct (Ascii.eqb c "-"); intros [= <- <-]; [|auto].
    rewrite plain_cons. tauto.
Qed.

Lemma span_rest p : forall s a b,
  span p s = (a, b) -> plain s = true -> plain b = true.
Proof.
  induction s as [|c s IH]; cbn [span]; intros a b.
  - intros [= <- <-]. auto.
  - destruct (p c).
    + destruct (span p s) as [a' b'] eqn:Hs. intros [= <- <-].
      rewrite plain_cons. intros [_ H]. apply (IH a' b'); auto.
    + intros [= <- <-]. auto.
Qed.

Section Agreement.
Context (T : Wide.tables) (HT : Wide.extends_ascii T).

Lemma digit_agrees c : (N_of_ascii c < 128)%N ->
  Wide.t_digit T (N_of_ascii c) = is_digit c.
Proof. intros H. apply (HT c H). Qed.

Lemma space_agrees c : (N_of_ascii c < 128)%N ->
  Wide.t_space T (N_of_ascii c) = is_space c.
Proof. intros H. apply (HT c H). Qed.

Lemma word_agrees c : (N_of_ascii c < 128)%N ->
  Wide.t_word T (N_of_ascii c) = is_word c.
Proof. intros H. apply (HT c H). Qed.

Lemma upper_char_agrees c : (N_of_ascii c < 128)%N ->
  Wide.t_upper T (N_of_ascii c) = [N_of_ascii (upper_char c)].
Proof. intros H. apply (HT c H). Qed.

Lemma upper_agrees (s : string) :
  plain s = true -> Wide.upper T (cp s) = cp (upper s).
Proof.
  unfold Wide.upper, upper. induction s as [|c s IH]; [reflexivity|].
  rewrite plain_cons. intros [Hc Hs]. cbn [Wide.code_points flat_map map_chars].
  rewrite (upper_char_agrees c Hc), (IH Hs). reflexivity.
Qed.

Lemma lstrip_agrees (s : string) :
  plain s = true -> Wide.lstrip T (cp s) = cp (lstrip s).
Proof.
  induction s as [|c s IH]; [reflexivity|].
  rewrite plain_cons. intros [Hc Hs]. cbn [Wide.code_points Wide.lstrip lstrip].
  rewrite (space_agrees c Hc). destruct (is_space c); [apply IH, Hs|reflexivity].
Qed.

Lemma rstrip_agrees (s : string) :
  plain s = true -> Wide.rstrip T (cp s) = cp (rstrip s).
Proof.
  induction s as [|c s IH]; [reflexivity|].
  rewrite plain_cons. intros [Hc Hs]. cbn [Wide.code_points Wide.rstrip rstrip].
  rewrite (IH Hs), (space_agrees c Hc).
  destruct (rstrip s) as [|x r]; cbn [Wide.code_points];
    [destruct (is_space c)|]; reflexivity.
Qed.

Lemma strip_agrees (s : string) :
  plain s = true -> Wide.strip T (cp s) = cp (strip s).
Proof.
  intros Hs. unfold Wide.strip, strip.
  rewrite (lstrip_agrees s Hs). apply rstrip_agrees, lstrip_plain, Hs.
Qed.

Lemma is_AB_agrees c : Wide.is_AB (N_of_ascii c) = is_AB c.
Proof.
  unfold Wide.is_AB, is_AB.
  change 65%N with (N_of_ascii "A"). change 66%N with (N_of_ascii "B").
  rewrite !code_eqb. reflexivity.
Qed.

Lemma hyphen_or_space_agrees c : (N_of_ascii c < 128)%N ->
  Wide.hyphen_or_space T (N_of_ascii c) = hyphen_or_space c.
Proof.
  intros Hc. unfold Wide.hyphen_or_space, hyphen_or_space.
  change 45%N with (N_of_ascii "-").
  rewrite code_eqb, (space_agrees c Hc). reflexivity.
Qed.

Lemma span_agrees (p : N -> bool) (q : ascii -> bool) :
  (forall c, (N_of_ascii c < 128)%N -> p (N_of_ascii c) = q c) ->
  forall s, plain s = true ->
    Wide.span p (cp s) = (cp (fst (span q s)), cp (snd (span q s))).
Proof.
  intros Hpq. induction s as [|c s IH]; [reflexivity|].
  rewrite plain_cons. intros [Hc Hs]. cbn [Wide.code_points Wide.span span].
  rewrite (Hpq c Hc). destruct (q c); [|reflexivity].
  rewrite (IH Hs). destruct (span q s) as [a b]. reflexivity.
Qed.

Lemma opt_hyphen_agrees (s : string) :
  Wide.opt_hyphen (cp s) = (cp (fst (opt_hyphen s)), cp (snd (opt_hyphen s))).
Proof.
  destruct s as [|c s]; [reflexivity|].
  cbn [Wide.code_points Wide.opt_hyphen opt_hyphen].
  change 45%N with (N_of_ascii "-") at 1. rewrite code_eqb.
  destruct (Ascii.eqb c "-"); reflexivity.
Qed.

Lemma word_end_agrees (s : string) :
  plain s = true -> Wide.word_end T (cp s) = word_end s.
Proof.
  destruct s as [|c s]; [reflexivity|]. rewrite plain_cons. intros [Hc _].
  cbn. rewrite (word_agrees c Hc). reflexivity.
Qed.

Lemma digits_then_boundary_agrees (s : string) :
  plain s = true ->
  Wide.digits_then_boundary T (cp s) = cp <$> digits_then_boundary s.
Proof.
  destruct s as [|d1 s1]; [reflexivity|]. rewrite plain_cons. intros [H1 Hs1].
  cbn [Wide.code_points Wide.digits_then_boundary digits_then_boundary].
  rewrite (digit_agrees d1 H1). destruct (is_digit d1); [|reflexivity].
  destruct s1 as [|d2 s2]; [reflexivity|].
  pose proof (word_end_agrees _ Hs1) as Hw1.
  apply plain_cons in Hs1 as [H2 Hs2].
  cbn [Wide.code_points] in *.
  rewrite (digit_agrees d2 H2), (word_end_agrees _ Hs2), Hw1.
  destruct (is_digit d2 && word_end s2); [reflexivity|].
  destruct (word_end (String d2 s2)); reflexivity.
Qed.

Lemma digits_greedy_agrees (s : string) :
  plain s = true ->
  Wide.digits_greedy T (cp s) = cp <$> digits_greedy s.
Proof.
  destruct s as [|d1 s1]; [reflexivity|]. rewrite plain_cons. intros [H1 Hs1].
  cbn [Wide.code_points Wide.digits_greedy digits_greedy].
  rewrite (digit_agrees d1 H1). destruct (is_digit d1); [|reflexivity].
  destruct s1 as [|d2 s2]; [reflexivity|].
  apply plain_cons in Hs1 as [H2 Hs2]. cbn [Wide.code_points].
  rewrite (digit_agrees d2 H2). destruct (is_digit d2); reflexivity.
Qed.

Lemma bi_prefix_agrees (s : string) :
  Wide.bi_prefix (cp s)
  = (fun pr => (cp (fst pr), cp (snd pr))) <$> bi_prefix s.
Proof.
  destruct s as [|b [|i [|d rest]]]; try reflexivity.
  cbn [Wide.code_points Wide.bi_prefix bi_prefix].
  rewrite is_AB_agrees.
  change 66%N with (N_of_ascii "B") at 1. change 73%N with (N_of_ascii "I") at 1.
  rewrite !code_eqb.
  destruct (Ascii.eqb b "B" && Ascii.eqb i "I" && is_AB d); reflexivity.
Qed.

Lemma match_standard_agrees (s : string) :
  plain s = true ->
  Wide.match_standard T (cp s)
  = (fun tn => (cp (fst tn), snd tn)) <$> match_standard s.
Proof.
  intros Hs. unfold Wide.match_standard, match_standard.
  rewrite bi_prefix_agrees.
  destruct (bi_prefix s) as [[p rest]|] eqn:Hp; [|reflexivity].
  cbn [fmap option_fmap option_map fst snd].
  pose proof (bi_prefix_rest _ _ _ Hp Hs) as Hrest.
  rewrite opt_hyphen_agrees.
  destruct (opt_hyphen rest) as [hy r1] eqn:Hhy. cbn [fst snd].
  pose proof (opt_hyphen_rest _ _ _ Hhy Hrest) as Hr1.
  rewrite (span_agrees _ is_space space_agrees r1 Hr1).
  destruct (span is_space r1) as [sp r2] eqn:Hsp. cbn [fst snd].
  rewrite (digits_then_boundary_agrees r2 (span_rest _ _ _ _ Hsp Hr1)).
  destruct (digits_then_boundary r2) as [dg|]; [|reflexivity].
  cbn [fmap option_fmap option_map fst snd].
  cbv zeta. rewrite <- cp_length, !cp_app. reflexivity.
Qed.

Lemma match_clean_agrees (s : string) :
  plain s = true ->
  Wide.match_clean T (cp s)
  = (fun tn => (cp (fst tn), snd tn)) <$> match_clean s.
Proof.
  intros Hs. unfold Wide.match_clean, match_clean.
  rewrite bi_prefix_agrees.
  destruct (bi_prefix s) as [[p rest]|] eqn:Hp; [|reflexivity].
  cbn [fmap option_fmap option_map fst snd].
  pose proof (bi_prefix_rest _ _ _ Hp Hs) as Hrest.
  rewrite (span_agrees _ hyphen_or_space hyphen_or_space_agrees rest Hrest).
  destruct (span hyphen_or_space rest) as [sep r1] eqn:Hsp. cbn [fst snd].
  rewrite (digits_greedy_agrees r1 (span_rest _ _ _ _ Hsp Hrest)).
  destruct (digits_greedy r1) as [dg|]; [|reflexivity].
  cbn [fmap option_fmap option_map fst snd].
  rewrite !cp_app, !cp_length. reflexivity.
Qed.

Lemma match_no_hyphen_agrees (s : string) :
  plain s = true ->
  Wide.match_no_hyphen T (cp s)
  = (fun tn => (cp (fst tn), snd tn)) <$> match_no_hyphen s.
Proof.
  intros Hs. unfold Wide.match_no_hyphen, match_no_hyphen.
  rewrite bi_prefix_agrees.
  destruct (bi_prefix s) as [[p rest]|] eqn:Hp; [|reflexivity].
  cbn [fmap option_fmap option_map fst snd].
  rewrite (digits_then_boundary_agrees rest (bi_prefix_rest _ _ _ Hp Hs)).
  destruct (digits_then_boundary rest) as [dg|]; [|reflexivity].
  cbn [fmap option_fmap option_map fst snd].
  cbv zeta. rewrite <- cp_length, !cp_app. reflexivity.
Qed.

Lemma match_space_agrees (s : string) :
  plain s = true ->
  Wide.match_space T (cp s)
  = (fun pn => (cp (fst (fst pn)), cp (snd (fst pn)), snd pn))
      <$> match_space s.
Proof.
  intros Hs. unfold Wide.match_space, match_space.
  rewrite bi_prefix_agrees.
  destruct (bi_prefix s) as [[p rest]|] eqn:Hp; [|reflexivity].
  cbn [fmap option_fmap option_map fst snd].
  pose proof (bi_prefix_rest _ _ _ Hp Hs) as Hrest.
  rewrite (span_agrees _ is_space space_agrees rest Hrest).
  destruct (span is_space rest) as [sp r1] eqn:Hsp. cbn [fst snd].
  pose proof (span_rest _ _ _ _ Hsp Hrest) as Hr1.
  destruct sp as [|x sp]; [reflexivity|].
  cbn [Wide.code_points truthy].
  rewrite (digits_then_boundary_agrees r1 Hr1).
  destruct (digits_then_boundary r1) as [dg|]; [|reflexivity].
  cbn [fmap option_fmap option_map fst snd].
  rewrite !cp_length. cbn [List.length String.length].
  rewrite cp_length. reflexivity.
Qed.

Lemma findall_agrees {A B} (f : A -> B)
      (mU : Wide.text -> option (B * nat)) (mA : string -> option (A * nat)) :
  (forall s, plain s = true ->
             mU (cp s) = (fun an => (f (fst an), snd an)) <$> mA s) ->
  forall s skip prev, plain s = true ->
    Wide.findall T mU skip prev (cp s) = map f (findall mA skip prev s).
Proof.
  intros Hm. induction s as [|c s IH]; intros skip prev Hs; [reflexivity|].
  pose proof (Hm _ Hs) as Hhere.
  apply plain_cons in Hs as [Hc Hs].
  cbn [Wide.code_points Wide.findall findall] in *.
  rewrite (word_agrees c Hc).
  destruct skip; [|apply IH, Hs]. destruct prev; [apply IH, Hs|].
  rewrite Hhere. destruct (mA (String c s)) as [[a n]|];
    cbn [fmap option_fmap option_map fst snd map]; [|apply IH, Hs].
  rewrite (IH _ _ Hs). reflexivity.
Qed.

Lemma sub_scan_agrees
      (mU : Wide.text -> option (Wide.text * nat))
      (mA : string -> option (string * nat)) :
  (forall s, plain s = true ->
             mU (cp s) = (fun tn => (cp (fst tn), snd tn)) <$> mA s) ->
  forall s skip, plain s = true ->
    Wide.sub_scan mU skip (cp s) = cp (sub_scan mA skip s).
Proof.
  intros Hm. induction s as [|c s IH]; intros skip Hs; [reflexivity|].
  pose proof (Hm _ Hs) as Hhere.
  apply plain_cons in Hs as [Hc Hs].
  cbn [Wide.code_points Wide.sub_scan sub_scan] in *.
  destruct skip; [|apply IH, Hs].
  rewrite Hhere. destruct (mA (String c s)) as [[rep n]|];
    cbn [fmap option_fmap option_map fst snd].
  - rewrite (IH _ Hs), cp_app. reflexivity.
  - rewrite (IH _ Hs). reflexivity.
Qed.

Lemma clean_standard_agrees (t : string) :
  plain t = true -> Wide.clean_standard T (cp t) = cp (clean_standard t).
Proof.
  intros Ht. unfold Wide.clean_standard, clean_standard.
  rewrite (sub_scan_agrees _ _ match_clean_agrees t 0 Ht), cp_length.
  destruct (String.length _ =? 5)%nat; [|reflexivity].
  rewrite cp_take, cp_drop, !cp_app. reflexivity.
Qed.

Lemma format_no_hyphen_agrees (t : string) :
  Wide.format_no_hyphen (cp t) = cp (format_no_hyphen t).
Proof.
  unfold Wide.format_no_hyphen, format_no_hyphen. rewrite cp_length.
  destruct (String.length t =? 5)%nat;
    [|destruct (String.length t =? 4)%nat]; [| |reflexivity];
    rewrite cp_take, cp_drop, !cp_app; reflexivity.
Qed.

Lemma format_space_agrees (pn : string * string) :
  Wide.format_space (cp (fst pn), cp (snd pn)) = cp (format_space pn).
Proof.
  unfold Wide.format_space, format_space, Wide.zfill2, zfill2.
  cbn [fst snd]. rewrite !cp_app, cp_length.
  destruct (String.length (snd pn)) as [|[|n]]; reflexivity.
Qed.

(** On an ASCII cell the two extractors give the same identifiers. *)
Lemma cell_group_ids_agrees (cell : string) :
  plain cell = true ->
  Wide.cell_group_ids T (cp cell) = map cp (cell_group_ids cell).
Proof.
  intros Hc. unfold Wide.cell_group_ids, cell_group_ids.
  assert (Hs : plain (strip (upper cell)) = true).
  { apply rstrip_plain, lstrip_plain, upper_plain, Hc. }
  rewrite (upper_agrees cell Hc), (strip_agrees _ (upper_plain _ Hc)).
  rewrite (findall_agrees Wide.code_points _ _ match_standard_agrees _ 0 false Hs).
  rewrite (findall_agrees Wide.code_points _ _ match_no_hyphen_agrees _ 0 false Hs).
  rewrite (findall_agrees (fun pn => (cp (fst pn), cp (snd pn))) _ _
             match_space_agrees _ 0 false Hs).
  rewrite !map_app, !map_map. f_equal; [|f_equal].
  - apply map_ext_Forall.
    eapply Forall_impl;
      [apply (findall_Forall match_standard (fun t => plain t = true)
                             match_standard_plain)|].
    intros t Ht. apply clean_standard_agrees, Ht.
  - apply map_ext. intros t. apply format_no_hyphen_agrees.
  - apply map_ext. intros pn. apply format_space_agrees.
Qed.

Lemma add_all_agrees (ids : list string) : forall acc : gset string,
  Wide.add_all (set_map cp acc) (map cp ids)
  = set_map cp (add_all acc ids).
Proof.
  unfold Wide.add_all, add_all.
  induction ids as [|g ids IH]; intros acc; cbn [map fold_left]; [reflexivity|].
  rewrite <- IH, set_map_union_L, set_map_singleton_L. reflexivity.
Qed.

Lemma add_cells_agree (row : list string) :
  Forall (fun cell => plain cell = true) row ->
  forall acc : gset string,
    fold_left (Wide.add_cell T) (map cp row) (set_map cp acc)
    = set_map cp (fold_left add_cell row acc).
Proof.
  induction 1 as [|c row Hc _ IH]; intros acc; cbn [map fold_left];
    [reflexivity|].
  rewrite <- IH. f_equal. unfold Wide.add_cell, add_cell.
  pose proof (cell_group_ids_agrees c Hc) as Hids.
  destruct c as [|x c]; [reflexivity|].
  cbn [Wide.code_points truthy] in *. rewrite Hids. apply add_all_agrees.
Qed.

End Agreement.

Lemma text_leb_agrees : forall a b : string,
  Wide.text_leb (cp a) (cp b) = String.leb a b.
Proof.
  induction a as [|x a IH]; intros [|y b]; try reflexivity.
  cbn [Wide.code_points Wide.text_leb]. unfold String.leb in *.
  cbn [String.compare]. unfold Ascii.compare.
  destruct (N.compare_spec (N_of_ascii x) (N_of_ascii y)) as [Heq|Hlt|Hgt].
  - rewrite Heq, N.ltb_irrefl, N.eqb_refl. apply IH.
  - apply N.ltb_lt in Hlt. rewrite Hlt. reflexivity.
  - assert (H1 : (N_of_ascii x <? N_of_ascii y)%N = false)
      by (apply N.ltb_ge; lia).
    assert (H2 : (N_of_ascii x =? N_of_ascii y)%N = false)
      by (apply N.eqb_neq; lia).
    rewrite H1, H2. reflexivity.
Qed.

#[local] Instance text_le_total : Total Wide.text_le.
Proof.
  unfold Wide.text_le. intros a.
  induction a as [|x a IH]; intros [|y b]; cbn [Wide.text_leb]; auto.
  destruct (N.ltb_spec x y), (N.ltb_spec y x), (N.eqb_spec x y),
    (N.eqb_spec y x); auto; lia.
Qed.

#[local] Instance text_le_trans : Transitive Wide.text_le.
Proof.
  unfold Wide.text_le. intros a.
  induction a as [|x a IH]; intros [|y b] [|z c]; cbn [Wide.text_leb];
    try (reflexivity || discriminate).
  destruct (N.ltb_spec x y), (N.ltb_spec y z), (N.ltb_spec x z),
    (N.eqb_spec x y), (N.eqb_spec y z), (N.eqb_spec x z);
    try (reflexivity || discriminate || lia).
  apply IH.
Qed.

#[local] Instance text_le_antisymm : AntiSymm (=) Wide.text_le.
Proof.
  unfold Wide.text_le. intros a.
  induction a as [|x a IH]; intros [|y b]; cbn [Wide.text_leb];
    try (reflexivity || discriminate).
  destruct (N.ltb_spec x y), (N.ltb_spec y x), (N.eqb_spec x y),
    (N.eqb_spec y x); try (discriminate || lia).
  intros H1 H2. subst. f_equal. apply IH; assumption.
Qed.

Lemma sorted_agrees (X : gset string) :
  merge_sort Wide.text_le (elements (set_map (D := gset Wide.text) cp X))
  = map cp (merge_sort string_le (elements X)).
Proof.
  apply (Sorted_unique Wide.text_le).
  - apply Sorted_merge_sort. apply _.
  - apply (Sorted_fmap _ string_le Wide.text_le).
    + intros a b Hab. unfold Wide.text_le. rewrite text_leb_agrees. exact Hab.
    + apply Sorted_merge_sort. intros a b. apply String.leb_total.
  - rewrite !merge_sort_Permutation. unfold set_map.
    apply elements_list_to_set. apply (NoDup_fmap_2 _). apply NoDup_elements.
Qed.

(** On a row of ASCII cells the two extractors return the same list,
    whatever the tables say beyond ASCII. *)
Lemma extract_agrees (T : Wide.tables) (row : list string) :
  Wide.extends_ascii T ->
  Forall (fun cell => plain cell = true) row ->
  Wide.extract_all_group_ids T (map cp row)
  = map cp (extract_all_group_ids row).
Proof.
  intros HT Hrow. unfold Wide.extract_all_group_ids, extract_all_group_ids.
  rewrite <- sorted_agrees. f_equal. f_equal.
  rewrite <- (add_cells_agree T HT row Hrow ∅), set_map_empty. reflexivity.
Qed.



Lemma with_arabic_indic_extends : Wide.extends_ascii Wide.with_arabic_indic.
Proof.
  intros c Hc. unfold Wide.with_arabic_indic. cbn.
  unfold Wide.below_128. apply N.ltb_lt in Hc. rewrite Hc.
  rewrite ascii_N_embedding. cbn [andb]. repeat split; reflexivity.
Qed.

Lemma lower_char_plain (c : ascii) :
  (N_of_ascii c < 128)%N -> (N_of_ascii (lower_char c) < 128)%N.
Proof. destruct c as [[] [] [] [] [] [] [] []]; vm_compute; congruence. Qed.

Lemma lower_plain (s : string) : plain s = true -> plain (lower s) = true.
Proof.
  induction s as [|c s IH]; [reflexivity|].
  unfold lower in *. cbn [map_chars]. rewrite !plain_cons.
  intros [Hc Hs]. split; [apply lower_char_plain, Hc | apply IH, Hs].
Qed.




End WideFacts.

(* ===================================================================== *)
(** * Further properties of the pipeline *)
(* ===================================================================== *)

(* --------------------------------------------------------------------- *)
(** ** Headers and sheet names *)
(* --------------------------------------------------------------------- *)

Section NormalizerFacts.
Import PyStr Header Sheets.

(** X1: for every non-empty header the normalizer answers with one of its
    twelve canonical names or with the header unchanged; normalizing the
    answer again gives the same answer, except that "Group ID" is then
    taken for "Group No.". *)
Theorem normalize_column_name_settles (h h' : string) :
  normalize_column_name h = Some h' ->
  (h' ∈ returned_headers \/ h' = h)
  /\ (h' <> "Group ID" -> normalize_column_name h' = Some h')
  /\ (h' = "Group ID" -> normalize_column_name h' = Some "Group No.").
Proof.
  intros H. split; [|split].
  - unfold normalize_column_name in H.
    repeat case_match; simplify_eq; try (right; reflexivity);
      left; unfold returned_headers, stable_headers;
      rewrite !elem_of_cons; tauto.
  - intros Hne. pose proof H as H0. unfold normalize_column_name in H0.
    repeat case_match; simplify_eq; try reflexivity; try congruence.
  - intros ->. reflexivity.
Qed.

Lemma normalize_column_name_settles_witness :
  ("Roll No." ∈ returned_headers \/ "Roll No." = "Roll Number")
  /\ normalize_column_name "Roll No." = Some "Roll No.".
Proof.
  destruct (normalize_column_name_settles "Roll Number" "Roll No." eq_refl)
    as (H1 & H2 & _).
  split; [exact H1|]. apply H2. discriminate.
Defined.

(** X2: a header whose cleaned text mentions "guide", "company" or "panel"
    is never taken for the student-name column. *)
Theorem guide_header_not_student_name (h : string) :
  contains "guide" (clean_column_name h)
  || contains "company" (clean_column_name h)
  || contains "panel" (clean_column_name h) = true ->
  normalize_column_name h <> Some "Name of the group member".
Proof.
  intros Hc H. unfold normalize_column_name in H.
  repeat case_match; simplify_eq; try (vm_compute in Hc; discriminate Hc).
  all: repeat match goal with
              | Hx : _ && _ = true |- _ => apply andb_true_iff in Hx as [? ?]
              | Hx : negb _ = true |- _ => apply negb_true_iff in Hx
              end.
  all: repeat match goal with
              | Hx : contains _ _ = false |- _ => rewrite Hx in Hc
              end.
  all: discriminate Hc.
Qed.

Lemma guide_header_not_student_name_witness :
  normalize_column_name "Guide Name" <> Some "Name of the group member"
  /\ normalize_column_name "Guide Name" = Some "Name of the Guide".
Proof.
  split; [|reflexivity].
  apply (guide_header_not_student_name "Guide Name"). reflexivity.
Defined.

(** X28: [normalize_sheet_name] is idempotent: a role name it returned, or a
    sheet name it left alone, comes back unchanged. *)
Theorem normalize_sheet_name_idempotent (s : string) :
  normalize_sheet_name (normalize_sheet_name s) = normalize_sheet_name s.
Proof.
  assert (H : normalize_sheet_name s = "div_a"
              \/ normalize_sheet_name s = "div_b"
              \/ normalize_sheet_name s = "schedule"
              \/ normalize_sheet_name s = s).
  { unfold normalize_sheet_name. repeat case_match; tauto. }
  destruct H as [H|[H|[H|H]]]; rewrite H; try reflexivity. exact H.
Qed.

End NormalizerFacts.

(* --------------------------------------------------------------------- *)
(** ** Sheet detection *)
(* --------------------------------------------------------------------- *)

Section DetectionFacts.
Import Sheets.

Lemma detect_last (names : list string) (r : role) :
  det_get (detect_and_normalize_sheets_robust names) r
  = last (filter (fun s => sheet_role s = Some r) names).
Proof.
  unfold detect_and_normalize_sheets_robust. rewrite detect_fold.
  destruct (last _); [reflexivity|]. destruct r; reflexivity.
Qed.

Lemma detected_ext (d d' : detected) :
  (forall r, det_get d r = det_get d' r) -> d = d'.
Proof.
  intros H. destruct d as [a b c], d' as [a' b' c'].
  pose proof (H div_a) as Ha. pose proof (H div_b) as Hb.
  pose proof (H schedule) as Hc. cbn in Ha, Hb, Hc. congruence.
Qed.

(** X3: a role is detected exactly when some sheet of the workbook is taken
    for it: the sheet reported for a role is one of the workbook's sheets
    and classifies to that role, a role stays empty only if no sheet
    classifies to it, and nothing is missing only if every role has a sheet. *)
Theorem detected_iff_classified (names : list string) :
  (forall r s, det_get (detect_and_normalize_sheets_robust names) r = Some s ->
               s ∈ names /\ sheet_role s = Some r)
  /\ (forall r, det_get (detect_and_normalize_sheets_robust names) r = None
                <-> Forall (fun s => sheet_role s <> Some r) names)
  /\ (missing_sheets (detect_and_normalize_sheets_robust names) = []
      <-> forall r, exists s, s ∈ names /\ sheet_role s = Some r).
Proof.
  assert (Hsome : forall r s,
             det_get (detect_and_normalize_sheets_robust names) r = Some s ->
             s ∈ names /\ sheet_role s = Some r).
  { intros r s. rewrite detect_last. intros H.
    apply last_Some_elem_of, list_elem_of_filter in H. tauto. }
  assert (Hnone : forall r,
             det_get (detect_and_normalize_sheets_robust names) r = None
             <-> Forall (fun s => sheet_role s <> Some r) names).
  { intros r. rewrite detect_last, last_None. split.
    - intros Hnil. apply Forall_forall. intros s Hs Hr.
      assert (Hin : s ∈ filter (fun s => sheet_role s = Some r) names)
        by (apply list_elem_of_filter; tauto).
      rewrite Hnil in Hin. inversion Hin.
    - intros Hall. destruct (filter _ names) as [|x xs] eqn:Hf; [reflexivity|].
      assert (Hin : x ∈ filter (fun s => sheet_role s = Some r) names)
        by (rewrite Hf; apply list_elem_of_here).
      apply list_elem_of_filter in Hin as [Hr Hx].
      rewrite Forall_forall in Hall. destruct (Hall x Hx Hr). }
  split; [exact Hsome|]. split; [exact Hnone|].
  split.
  - intros Hm r.
    destruct (det_get (detect_and_normalize_sheets_robust names) r)
      as [s|] eqn:Hr.
    + exists s. apply (Hsome r s Hr).
    + apply missing_sheets_spec in Hr. rewrite Hm in Hr. inversion Hr.
  - intros Hall.
    destruct (missing_sheets (detect_and_normalize_sheets_robust names))
      as [|r rest] eqn:Hm; [reflexivity|].
    assert (Hin : r ∈ missing_sheets (detect_and_normalize_sheets_robust names))
      by (rewrite Hm; apply list_elem_of_here).
    apply missing_sheets_spec, Hnone in Hin.
    destruct (Hall r) as (s & Hs & Hr).
    rewrite Forall_forall in Hin. destruct (Hin s Hs Hr).
Qed.

Lemma detected_iff_classified_witness :
  "Final Div B " ∈ Scenario.shuffled_names
  /\ sheet_role "Final Div B " = Some div_b.
Proof.
  apply (proj1 (detected_iff_classified Scenario.shuffled_names) div_b).
  vm_compute. reflexivity.
Defined.

(** X4: when no two sheets of a workbook are taken for the same role, the
    detection does not depend on the order of the sheets. *)
Theorem detection_order_free (names names' : list string) :
  names ≡ₚ names' ->
  (forall r, length (filter (fun s => sheet_role s = Some r) names) <= 1) ->
  detect_and_normalize_sheets_robust names'
  = detect_and_normalize_sheets_robust names.
Proof.
  intros Hp Hone. apply detected_ext. intros r. rewrite !detect_last.
  assert (Hf : filter (fun s => sheet_role s = Some r) names
               ≡ₚ filter (fun s => sheet_role s = Some r) names')
    by (rewrite Hp; reflexivity).
  specialize (Hone r).
  destruct (filter (fun s => sheet_role s = Some r) names) as [|x [|y xs]].
  - apply Permutation_nil_l in Hf. rewrite Hf. reflexivity.
  - apply Permutation_singleton_l in Hf. rewrite Hf. reflexivity.
  - cbn in Hone. lia.
Qed.

Lemma detection_order_free_witness :
  detect_and_normalize_sheets_robust (reverse Scenario.shuffled_names)
  = detect_and_normalize_sheets_robust Scenario.shuffled_names.
Proof.
  apply detection_order_free.
  - symmetry. apply reverse_Permutation.
  - intros r. destruct r; vm_compute; lia.
Defined.

End DetectionFacts.

(* --------------------------------------------------------------------- *)
(** ** Group identifiers: order, case and canonical text *)
(* --------------------------------------------------------------------- *)

Section ExtractionFacts.
Import PyStr GroupId.

(** X5: the identifiers extracted from a row depend only on which cell
    texts occur in it: neither the order of the cells nor a repeated cell
    changes the result. *)
Theorem extraction_ignores_cell_order (row row' : list string) :
  (forall c, c ∈ row <-> c ∈ row') ->
  extract_all_group_ids row' = extract_all_group_ids row.
Proof.
  intros Hsame. unfold extract_all_group_ids. f_equal. f_equal.
  apply set_eq. intros g. rewrite !elem_of_add_cells.
  split; (intros [H|(c & Hc & Ht & Hg)]; [left; exact H|]);
    right; exists c; (split; [apply Hsame, Hc | tauto]).
Qed.

Lemma extraction_ignores_cell_order_witness :
  extract_all_group_ids ["BIB 2"; "BIA-1"; "BIB 2"]
  = extract_all_group_ids ["BIA-1"; "BIB 2"].
Proof.
  apply extraction_ignores_cell_order.
  intros c. rewrite !elem_of_cons. tauto.
Defined.

Lemma is_digit_elem (c : ascii) : is_digit c = true -> c ∈ digit_chars.
Proof.
  destruct c as [[] [] [] [] [] [] [] []]; intros H;
    try (vm_compute in H; discriminate H);
    unfold digit_chars; rewrite !elem_of_cons; tauto.
Qed.

Lemma is_AB_elem (c : ascii) : is_AB c = true -> c ∈ ["A"; "B"]%char.
Proof.
  unfold is_AB. intros H. apply orb_true_iff in H as [H|H];
    apply Ascii.eqb_eq in H; subst; rewrite !elem_of_cons; tauto.
Qed.

Lemma canonical_ids_complete (g : string) :
  canonical_group_id g = true -> g ∈ canonical_ids.
Proof.
  intros H.
  destruct g as [|b [|i [|d [|h [|n1 [|n2 [|x r]]]]]]]; cbn in H;
    try discriminate H.
  repeat match goal with
         | Hx : _ && _ = true |- _ => apply andb_true_iff in Hx as [Hx ?]
         end.
  repeat match goal with
         | Hx : Ascii.eqb _ _ = true |- _ => apply Ascii.eqb_eq in Hx; subst
         end.
  unfold canonical_ids.
  apply list_elem_of_bind. exists d. split; [|apply is_AB_elem; assumption].
  apply list_elem_of_bind. exists n1. split; [|apply is_digit_elem; assumption].
  apply list_elem_of_bind. exists n2. split; [|apply is_digit_elem; assumption].
  apply list_elem_of_here.
Qed.

Lemma canonical_ids_roundtrip :
  Forall (fun g => extract_all_group_ids [g] = [g]) canonical_ids.
Proof.
  apply (bool_decide_eq_true_1 _). vm_compute. reflexivity.
Qed.

(** X6: a canonical identifier is read back as itself: for every text of
    the shape BI[AB]-NN, extracting from a cell that holds just this text
    returns exactly this text. *)
Theorem canonical_id_extracted_as_itself (g : string) :
  canonical_group_id g = true -> extract_all_group_ids [g] = [g].
Proof.
  intros H. pose proof canonical_ids_roundtrip as Hall.
  rewrite Forall_forall in Hall. apply Hall, canonical_ids_complete, H.
Qed.

Lemma canonical_id_extracted_as_itself_witness :
  extract_all_group_ids ["BIB-07"] = ["BIB-07"].
Proof. apply canonical_id_extracted_as_itself. reflexivity. Defined.

Lemma upper_lower_char (c : ascii) : upper_char (lower_char c) = upper_char c.
Proof. destruct c as [[] [] [] [] [] [] [] []]; reflexivity. Qed.

Lemma upper_upper_char (c : ascii) : upper_char (upper_char c) = upper_char c.
Proof. destruct c as [[] [] [] [] [] [] [] []]; reflexivity. Qed.

Lemma upper_lower (s : string) : upper (lower s) = upper s.
Proof.
  induction s as [|c s IH]; [reflexivity|].
  unfold upper, lower in *. cbn [map_chars]. rewrite upper_lower_char, IH.
  reflexivity.
Qed.

Lemma upper_upper (s : string) : upper (upper s) = upper s.
Proof.
  induction s as [|c s IH]; [reflexivity|].
  unfold upper in *. cbn [map_chars]. rewrite upper_upper_char, IH.
  reflexivity.
Qed.

Lemma truthy_map_chars f s : truthy (map_chars f s) = truthy s.
Proof. destruct s; reflexivity. Qed.

Lemma add_cells_map (f : string -> string) (row : list string) :
  (forall c, truthy (f c) = truthy c) ->
  (forall c, upper (f c) = upper c) ->
  forall acc, fold_left add_cell (map f row) acc = fold_left add_cell row acc.
Proof.
  intros Ht Hu. induction row as [|c row IH]; intros acc; [reflexivity|].
  cbn [map fold_left]. rewrite IH. f_equal.
  unfold add_cell, cell_group_ids. rewrite Ht, Hu. reflexivity.
Qed.

(** X7: on a row of ASCII cells extraction does not look at letter case,
    whatever the tables of [re] and [str] say beyond ASCII: the row gives
    the same identifiers when its cells are written in lower case or in
    upper case. *)
Theorem extraction_ignores_case (T : Wide.tables) (row : list string) :
  Wide.extends_ascii T ->
  Forall (fun cell => Wide.ascii_text cell = true) row ->
  Wide.extract_all_group_ids T (map Wide.code_points (map lower row))
  = Wide.extract_all_group_ids T (map Wide.code_points row)
  /\ Wide.extract_all_group_ids T (map Wide.code_points (map upper row))
     = Wide.extract_all_group_ids T (map Wide.code_points row)
  /\ extract_all_group_ids (map lower row) = extract_all_group_ids row
  /\ extract_all_group_ids (map upper row) = extract_all_group_ids row.
Proof.
  intros HT Hrow.
  assert (Hl : extract_all_group_ids (map lower row)
               = extract_all_group_ids row).
  { unfold extract_all_group_ids. f_equal; f_equal; apply add_cells_map.
    - apply truthy_map_chars.
    - apply upper_lower. }
  assert (Hu : extract_all_group_ids (map upper row)
               = extract_all_group_ids row).
  { unfold extract_all_group_ids. f_equal; f_equal; apply add_cells_map.
    - apply truthy_map_chars.
    - apply upper_upper. }
  rewrite !extract_agrees; try assumption.
  - rewrite Hl, Hu. auto.
  - apply Forall_fmap. eapply Forall_impl; [exact Hrow|].
    intros c Hc. apply upper_plain, Hc.
  - apply Forall_fmap. eapply Forall_impl; [exact Hrow|].
    intros c Hc. apply lower_plain, Hc.
Qed.

Lemma extraction_ignores_case_witness :
  Wide.extract_all_group_ids
    Wide.with_arabic_indic (map Wide.code_points (map lower ["Track BIB 7"]))
  = Wide.extract_all_group_ids
      Wide.with_arabic_indic (map Wide.code_points ["Track BIB 7"]).
Proof.
  apply (extraction_ignores_case Wide.with_arabic_indic ["Track BIB 7"]).
  - exact with_arabic_indic_extends.
  - repeat constructor.
Defined.

End ExtractionFacts.

(* --------------------------------------------------------------------- *)
(** ** What the walks keep true of the tables *)
(* --------------------------------------------------------------------- *)

Section StoreInvariants.
Import PyStr Store Pandas Env.
Context (E : env).

Lemma insert_ignore_subseteq `{Countable K} {V} (k : K) (v : V)
      (m : gmap K V) : m ⊆ insert_ignore k v m.
Proof.
  unfold insert_ignore. destruct (m !! k) eqn:Hk; [reflexivity|].
  apply insert_subseteq. exact Hk.
Qed.

Lemma insert_ignore_lookup `{Countable K} {V} (k k' : K) (v v' : V)
      (m : gmap K V) :
  insert_ignore k v m !! k' = Some v' ->
  m !! k' = Some v' \/ (k' = k /\ v' = v).
Proof.
  unfold insert_ignore. destruct (m !! k) eqn:Hk; [tauto|].
  destruct (decide (k = k')) as [->|Hne].
  - rewrite lookup_insert_eq. intros [= <-]. tauto.
  - rewrite lookup_insert_ne by exact Hne. tauto.
Qed.

(** An invariant of the two steps of a roster row holds along the walk. *)
Lemma roster_walk_ind div (I : Roster.state -> Prop) :
  (forall row st, I st -> I (Roster.project_step E div row st)) ->
  (forall row st, I st -> I (Roster.member_step E row st)) ->
  forall irs st, I st -> I (Roster.walk E div irs st).
Proof.
  intros Hp Hm. induction irs as [|ir irs IH]; intros st HI; [exact HI|].
  unfold Roster.walk in *. cbn [fold_left]. apply IH.
  unfold Roster.row_step, Roster.row_body. apply Hm, Hp, HI.
Qed.

Lemma process_division_walk df div d l :
  exists irs,
    Roster.process_division_enhanced_with_normalization E df div d l
    = (let st := Roster.walk E div irs (Roster.State None [] 0 d l) in
       ((length (Roster.processed_groups st), Roster.processed_members st),
        Roster.store st, Roster.log st)).
Proof.
  unfold Roster.process_division_enhanced_with_normalization.
  destruct (empty df); [exists []; reflexivity | eexists; reflexivity].
Qed.

(** The store after a project step: as before, or with the project
    inserted if its key was free. *)
Lemma project_step_store div row st :
  Roster.store (Roster.project_step E div row st) = Roster.store st
  \/ exists g, Roster.header_group row = Some g
               /\ Roster.group_id (Roster.project_step E div row st) = Some g
               /\ Roster.store (Roster.project_step E div row st)
                  = run (InsertIgnoreProject g (Roster.project_of div row))
                        (Roster.store st).
Proof.
  unfold Roster.project_step, execute.
  destruct (Roster.header_group row) as [g|]; [|left; reflexivity].
  cbn [Roster.store].
  destruct (rejects E _ _); [left; reflexivity|].
  right. exists g. repeat split.
Qed.

Lemma member_step_store row st :
  Roster.store (Roster.member_step E row st) = Roster.store st
  \/ exists g r m, Roster.group_id st = Some g
                   /\ Roster.member_of row = Some (r, m)
                   /\ Roster.store (Roster.member_step E row st)
                      = run (InsertIgnoreMember g r m) (Roster.store st).
Proof.
  unfold Roster.member_step, execute.
  destruct (Roster.group_id st) as [g|]; [|left; reflexivity].
  destruct (truthy g); [|left; reflexivity].
  destruct (Roster.member_of row) as [[r m]|]; [|left; reflexivity].
  destruct (rejects E _ _); [left; reflexivity|].
  right. exists g, r, m. repeat split.
Qed.

(** An invariant of the tables that the two roster inserts keep holds after
    [process_division_enhanced_with_normalization]. *)
Lemma process_division_db_ind df div (P : db -> Prop) :
  (forall g row d,
      P d -> P (run (InsertIgnoreProject g (Roster.project_of div row)) d)) ->
  (forall g r m row d,
      Roster.member_of row = Some (r, m) ->
      P d -> P (run (InsertIgnoreMember g r m) d)) ->
  forall d l, P d ->
    P (snd (fst (Roster.process_division_enhanced_with_normalization
                   E df div d l))).
Proof.
  intros Hp Hm d l HP.
  destruct (process_division_walk df div d l) as [irs ->]. cbn [fst snd].
  apply (roster_walk_ind div (fun st => P (Roster.store st))); [| |exact HP].
  - intros row st HI.
    destruct (project_step_store div row st) as [->|(g & _ & _ & ->)];
      [exact HI | apply Hp, HI].
  - intros row st HI.
    destruct (member_step_store row st) as [->|(g & r & m & _ & Hrow & ->)];
      [exact HI | apply (Hm g r m row), HI; exact Hrow].
Qed.

(** X8: a roster walk only adds rows.  Every project and member that was
    stored before [process_division_enhanced_with_normalization] is stored
    unchanged after it, and the panel assignments are not touched. *)
Theorem roster_walk_only_adds df div d l :
  let d' := snd (fst (Roster.process_division_enhanced_with_normalization
                        E df div d l)) in
  projects d ⊆ projects d'
  /\ members d ⊆ members d'
  /\ panel_assignments d' = panel_assignments d.
Proof.
  apply (process_division_db_ind df div
           (fun d' => projects d ⊆ projects d' /\ members d ⊆ members d'
                      /\ panel_assignments d' = panel_assignments d)).
  - intros g row d0 (Hp & Hm & Hpa). cbn. repeat split; [|exact Hm|exact Hpa].
    etrans; [exact Hp | apply insert_ignore_subseteq].
  - intros g r m row d0 _ (Hp & Hm & Hpa). cbn.
    repeat split; [exact Hp| |exact Hpa].
    etrans; [exact Hm | apply insert_ignore_subseteq].
  - repeat split; reflexivity.
Qed.

End StoreInvariants.

Section RebuildInvariants.
Import PyStr Store Pandas Env.
Context (E : env).

Lemma extract_canonical (row : list string) (g : string) :
  g ∈ GroupId.extract_all_group_ids row -> GroupId.canonical_group_id g = true.
Proof.
  intros Hg. apply elem_of_extract in Hg as (cell & _ & _ & Hg).
  pose proof (cell_group_ids_canonical cell) as Hc.
  rewrite Forall_forall in Hc. apply Hc, Hg.
Qed.

(** The shape of [process_all_data_with_normalization]: the roster of
    division A from the empty store, the roster of division B, then the
    schedule walk. *)
Lemma process_all_shape div_a div_b sched d l :
  exists ga ma dA lA gb mb dB lB,
    Roster.process_division_enhanced_with_normalization E div_a "A" empty_db l
    = ((ga, ma), dA, lA)
    /\ Roster.process_division_enhanced_with_normalization E div_b "B" dA lA
       = ((gb, mb), dB, lB)
    /\ Schedule.process_all_data_with_normalization E div_a div_b sched d l
       = (let st := Schedule.walk E
                      (iterrows (normalize_dataframe_columns sched))
                      (Schedule.State 0 ∅ dB lB) in
          (Schedule.Summary ga gb (size (Schedule.all_scheduled_groups st))
                            (ga + gb),
           Schedule.store st, Schedule.log st)).
Proof.
  unfold Schedule.process_all_data_with_normalization, delete_all.
  destruct (Roster.process_division_enhanced_with_normalization
              E div_a "A" empty_db l) as [[[ga ma] dA] lA] eqn:HA.
  destruct (Roster.process_division_enhanced_with_normalization
              E div_b "B" dA lA) as [[[gb mb] dB] lB] eqn:HB.
  exists ga, ma, dA, lA, gb, mb, dB, lB.
  split; [reflexivity|]. split; [exact HB | reflexivity].
Qed.

(** The assignments of a schedule row carry canonical identifiers and the
    guides of the store they were computed from. *)
Lemma assignments_spec d profs row :
  Forall (fun a => Schedule.a_guide a = Schedule.guide_of d (Schedule.a_group_id a)
                   /\ GroupId.canonical_group_id (Schedule.a_group_id a) = true)
         (Schedule.assign_evaluators_from_panel
            d profs (GroupId.extract_all_group_ids row)).
Proof.
  unfold Schedule.assign_evaluators_from_panel.
  apply Forall_fmap, Forall_forall. intros g Hg. cbn.
  split; [reflexivity | apply (extract_canonical row), Hg].
Qed.

(** An invariant of the scheduled set and the tables that every assignment
    step keeps, for assignments that carry a canonical identifier and the
    stored guide, holds along the schedule walk. *)
Lemma schedule_walk_ind (I : gset string -> db -> Prop) :
  (forall track profs loc st a,
      I (Schedule.all_scheduled_groups st) (Schedule.store st) ->
      Schedule.a_guide a
      = Schedule.guide_of (Schedule.store st) (Schedule.a_group_id a) ->
      GroupId.canonical_group_id (Schedule.a_group_id a) = true ->
      I (Schedule.all_scheduled_groups
           (Schedule.assign_step E track profs loc st a))
        (Schedule.store (Schedule.assign_step E track profs loc st a))) ->
  forall irs st,
    I (Schedule.all_scheduled_groups st) (Schedule.store st) ->
    I (Schedule.all_scheduled_groups (Schedule.walk E irs st))
      (Schedule.store (Schedule.walk E irs st)).
Proof.
  intros Hstep.
  assert (Hfold : forall track profs loc d0 assignments st,
             Forall (fun a => Schedule.a_guide a
                              = Schedule.guide_of d0 (Schedule.a_group_id a)
                              /\ GroupId.canonical_group_id
                                   (Schedule.a_group_id a) = true)
                    assignments ->
             (forall g, Schedule.guide_of (Schedule.store st) g
                        = Schedule.guide_of d0 g) ->
             I (Schedule.all_scheduled_groups st) (Schedule.store st) ->
             let st' := fold_left (Schedule.assign_step E track profs loc)
                                  assignments st in
             I (Schedule.all_scheduled_groups st') (Schedule.store st')).
  { intros track profs loc d0. induction assignments as [|a rest IH];
      intros st Hall Hg HI; [exact HI|].
    inversion Hall as [|? ? [Ha Hc] Hrest]; subst. cbn [fold_left].
    apply IH; [exact Hrest | |].
    - intros g. rewrite assign_step_keeps_guides. apply Hg.
    - apply Hstep; [exact HI | rewrite Hg; exact Ha | exact Hc]. }
  induction irs as [|ir irs IH]; intros st HI; [exact HI|].
  unfold Schedule.walk in *. cbn [fold_left]. apply IH.
  unfold Schedule.row_step, Schedule.row_body.
  destruct (get "Track" (snd ir)) as [|t|cs]; [exact HI| |exact HI].
  destruct (negb (notnull t)); [exact HI|].
  destruct (int t) as [track|]; [|exact HI].
  destruct (Schedule.location_of (snd ir) track) as [loc|]; [|exact HI].
  destruct (GroupId.extract_all_group_ids (row_values (snd ir)))
    as [|g gs] eqn:Hext; [exact HI|].
  cbn [Schedule.all_scheduled_groups Schedule.store].
  apply (Hfold track _ loc (Schedule.store st)); [|reflexivity|exact HI].
  rewrite <- Hext. apply assignments_spec.
Qed.

Lemma process_all_db_ind (P : db -> Prop) div_a div_b sched :
  P empty_db ->
  (forall div g row d,
      P d -> P (run (InsertIgnoreProject g (Roster.project_of div row)) d)) ->
  (forall g r m row d,
      Roster.member_of row = Some (r, m) ->
      P d -> P (run (InsertIgnoreMember g r m) d)) ->
  (forall g pa d,
      GroupId.canonical_group_id g = true ->
      guide pa = Schedule.guide_of d g ->
      P d -> P (run (UpsertPanelAssignment g pa) d)
             /\ (rejects E (UpdateProjectEvaluators g (reviewer1 pa) (reviewer2 pa))
                         (run (UpsertPanelAssignment g pa) d) = false ->
                 P (run (UpdateProjectEvaluators g (reviewer1 pa) (reviewer2 pa))
                        (run (UpsertPanelAssignment g pa) d)))) ->
  forall d l,
    P (Schedule.tables_of
         (Schedule.process_all_data_with_normalization E div_a div_b sched d l)).
Proof.
  intros H0 Hp Hm Hs d l.
  destruct (process_all_shape div_a div_b sched d l)
    as (ga & ma & dA & lA & gb & mb & dB & lB & HA & HB & ->).
  unfold Schedule.tables_of. cbn [fst snd].
  assert (PA : P dA).
  { pose proof (process_division_db_ind E div_a "A" P (Hp "A") Hm
                  empty_db l H0) as H. rewrite HA in H. exact H. }
  assert (PB : P dB).
  { pose proof (process_division_db_ind E div_b "B" P (Hp "B") Hm
                  dA lA PA) as H. rewrite HB in H. exact H. }
  apply (schedule_walk_ind (fun _ d => P d)); [|exact PB].
  intros track profs loc st a HI Hg Hc.
  unfold Schedule.assign_step, execute.
  destruct (rejects E _ (Schedule.store st)); [exact HI|].
  match goal with
  | |- context [run (UpsertPanelAssignment ?g ?pa) ?d0] =>
      destruct (Hs g pa d0 Hc Hg HI) as [H1 H2]
  end.
  cbn [reviewer1 reviewer2] in H2.
  destruct (rejects E _ _) eqn:Hrej; cbn [Schedule.store Schedule.logged].
  - exact H1.
  - apply H2. reflexivity.
Qed.

Lemma map_Forall_insert_ignore `{Countable K} {V} (P : K -> V -> Prop)
      (k : K) (v : V) (m : gmap K V) :
  P k v -> map_Forall P m -> map_Forall P (insert_ignore k v m).
Proof.
  intros Hv Hm k' v' Hl.
  apply insert_ignore_lookup in Hl as [Hl|[-> ->]]; [exact (Hm _ _ Hl)|exact Hv].
Qed.

Lemma map_Forall_alter_keep `{Countable K} {V} (P : K -> V -> Prop)
      (f : V -> V) (k : K) (m : gmap K V) :
  (forall x, P k x -> P k (f x)) ->
  map_Forall P m -> map_Forall P (alter f k m).
Proof.
  intros Hf Hm k' v'. rewrite lookup_alter. case_decide as Hk.
  - subst. destruct (m !! k') as [x|] eqn:Hx; cbn; [|discriminate].
    intros [= <-]. apply Hf, (Hm _ _ Hx).
  - apply Hm.
Qed.

Lemma take_length_le (n : nat) (s : string) :
  (String.length (take n s) <= n)%nat.
Proof.
  revert s. induction n as [|n IH]; intros s; [reflexivity|].
  destruct s as [|c s]; cbn; [lia|]. specialize (IH s). lia.
Qed.

Lemma text_upto_length (n : nat) (c : cell) :
  (String.length (Roster.text_upto n c) <= n)%nat.
Proof.
  unfold Roster.text_upto. destruct (notnull c); [apply take_length_le|].
  cbn. lia.
Qed.

Lemma project_of_within_limits div row :
  project_within_limits (Roster.project_of div row).
Proof.
  unfold project_within_limits, Roster.project_of.
  cbn [project_domain project_title sponsor_company guide_name].
  repeat split; apply text_upto_length.
Qed.

Lemma member_of_within_limits row r m :
  Roster.member_of row = Some (r, m) -> member_within_limits m.
Proof.
  unfold Roster.member_of.
  set (nm := take 100 (strip (str (field "Name of the group member" row)))).
  assert (Hnm : (String.length nm <= 100)%nat) by apply take_length_le.
  clearbody nm.
  repeat case_match; try discriminate.
  intros [= <- <-]. exact Hnm.
Qed.

(** X10: after a full reconciliation no stored text exceeds the length the
    roster walk cuts it to: for every project the domain has at most 255
    characters, the title 500, the sponsor 255 and the guide 100, and every
    student name has at most 100. *)
Theorem rebuilt_texts_within_limits div_a div_b sched d l :
  let d' := Schedule.tables_of
              (Schedule.process_all_data_with_normalization
                 E div_a div_b sched d l) in
  map_Forall (fun _ p => project_within_limits p) (projects d')
  /\ map_Forall (fun _ m => member_within_limits m) (members d').
Proof.
  apply (process_all_db_ind
           (fun d' => map_Forall (fun _ p => project_within_limits p) (projects d')
                      /\ map_Forall (fun _ m => member_within_limits m)
                                    (members d'))).
  - split; apply map_Forall_empty.
  - intros div g row d0 [Hp Hm]. cbn. split; [|exact Hm].
    apply map_Forall_insert_ignore; [apply project_of_within_limits|exact Hp].
  - intros g r m row d0 Hrow [Hp Hm]. cbn. split; [exact Hp|].
    apply map_Forall_insert_ignore;
      [apply (member_of_within_limits row r), Hrow | exact Hm].
  - intros g pa d0 _ _ [Hp Hm]. split; [split; assumption|].
    intros _. cbn. split; [|exact Hm].
    apply map_Forall_alter_keep; [|exact Hp].
    intros p Hlim. exact Hlim.
Qed.

Lemma str_of_Z_plain (z : Z) : Wide.ascii_text (str_of_Z z) = true.
Proof.
  assert (Hu : forall d : Decimal.uint,
             Wide.ascii_text (NilEmpty.string_of_uint d) = true).
  { induction d; cbn [NilEmpty.string_of_uint]; try reflexivity;
      apply plain_cons; (split; [vm_compute; reflexivity | exact IHd]). }
  unfold str_of_Z. destruct (Z.to_int z) as [d|d]; cbn [NilEmpty.string_of_int].
  - apply Hu.
  - apply plain_cons. split; [vm_compute; reflexivity | apply Hu].
Qed.

(** The texts the schedule walk extracts from, on a frame of ASCII cells,
    are ASCII. *)
Lemma row_values_plain (df : dataframe) (ir : nat * series) :
  ascii_frame df = true ->
  ir ∈ iterrows (normalize_dataframe_columns df) ->
  Forall (fun v => Wide.ascii_text v = true) (row_values (snd ir)).
Proof.
  intros Hdf Hir.
  assert (Hrows : rows (normalize_dataframe_columns df) = rows df).
  { unfold normalize_dataframe_columns. destruct (empty df); reflexivity. }
  unfold iterrows in Hir. rewrite Hrows in Hir.
  apply elem_of_lookup_imap in Hir as (i & vals & -> & Hvals).
  cbn [snd]. unfold row_values. apply Forall_fmap, Forall_forall.
  intros [k c] Hkv. apply list_elem_of_filter in Hkv as [_ Hkv].
  apply elem_of_zip_r in Hkv.
  unfold ascii_frame in Hdf. rewrite forallb_forall in Hdf.
  apply list_elem_of_lookup_2, list_elem_of_In in Hvals.
  specialize (Hdf _ Hvals). rewrite forallb_forall in Hdf.
  apply list_elem_of_In in Hkv. specialize (Hdf _ Hkv).
  cbn [snd]. destruct c as [|s|z]; cbn [str ascii_cell] in *.
  - reflexivity.
  - exact Hdf.
  - apply str_of_Z_plain.
Qed.

(** X11: when the cells of the schedule are ASCII text, whatever the tables
    of [re] and [str] say beyond ASCII, the identifiers taken from each
    schedule row are those of the ASCII extractor, and after a full
    reconciliation every panel assignment is keyed by a canonical group
    identifier of the shape BI[AB]-NN. *)
Theorem panel_assignment_keys_canonical
        (T : Wide.tables) div_a div_b sched d l :
  Wide.extends_ascii T ->
  ascii_frame sched = true ->
  (forall ir, ir ∈ iterrows (normalize_dataframe_columns sched) ->
     Wide.extract_all_group_ids T (map Wide.code_points (row_values (snd ir)))
     = map Wide.code_points (GroupId.extract_all_group_ids (row_values (snd ir))))
  /\ map_Forall (fun g _ => GroupId.canonical_group_id g = true)
                (panel_assignments
                   (Schedule.tables_of
                      (Schedule.process_all_data_with_normalization
                         E div_a div_b sched d l))).
Proof.
  intros HT Hsched. split.
  { intros ir Hir. apply (extract_agrees T _ HT).
    apply (row_values_plain sched ir Hsched Hir). }
  apply (process_all_db_ind
           (fun d' => map_Forall (fun g _ => GroupId.canonical_group_id g = true)
                                 (panel_assignments d'))).
  - apply map_Forall_empty.
  - intros div g row d0 H. exact H.
  - intros g r m row d0 _ H. exact H.
  - intros g pa d0 Hc _ H.
    assert (Hup : map_Forall (fun g _ => GroupId.canonical_group_id g = true)
                             (upsert_panel g pa (panel_assignments d0))).
    { unfold upsert_panel. destruct (panel_assignments d0 !! g);
        apply map_Forall_insert_2; assumption. }
    split; [exact Hup | intros _; exact Hup].
Qed.

Lemma insert_ignore_is_Some `{Countable K} {V} (k k' : K) (v : V)
      (m : gmap K V) :
  is_Some (insert_ignore k v m !! k') <-> k' = k \/ is_Some (m !! k').
Proof.
  unfold insert_ignore. destruct (m !! k) eqn:Hk.
  - split; [tauto|]. intros [->|H0]; [rewrite Hk; eauto|exact H0].
  - rewrite lookup_insert_is_Some'. split; (intros [?|?]; [left|right]); auto.
Qed.

Lemma alter_is_Some `{Countable K} {V} (f : V -> V) (k k' : K)
      (m : gmap K V) :
  is_Some (alter f k m !! k') <-> is_Some (m !! k').
Proof. apply lookup_alter_is_Some. Qed.

(** With a database that accepts every project insert, the roster walk
    keeps every member attached to a stored project. *)
Lemma roster_walk_refs div irs st :
  (forall g p d, rejects E (InsertIgnoreProject g p) d = false) ->
  members_have_projects (Roster.store st) ->
  (forall g, Roster.group_id st = Some g ->
             is_Some (projects (Roster.store st) !! g)) ->
  members_have_projects (Roster.store (Roster.walk E div irs st)).
Proof.
  intros Hno Hm Hg.
  apply (roster_walk_ind E div
           (fun st => members_have_projects (Roster.store st)
                      /\ forall g, Roster.group_id st = Some g ->
                                   is_Some (projects (Roster.store st) !! g)));
    [| |split; assumption].
  - clear Hm Hg. intros row st0 [HM HG].
    unfold Roster.project_step, execute.
    destruct (Roster.header_group row) as [g|]; [|split; assumption].
    cbn [Roster.store]. rewrite Hno.
    cbn [Roster.store Roster.group_id run projects members]. split.
    + intros k m Hk. apply insert_ignore_is_Some. right. apply (HM k m Hk).
    + intros g' [= <-]. apply insert_ignore_is_Some. left. reflexivity.
  - clear Hm Hg. intros row st0 [HM HG].
    unfold Roster.member_step, execute. revert HG.
    destruct (Roster.group_id st0) as [g|] eqn:Hgid; intros HG;
      [|split; [exact HM | rewrite Hgid; exact HG]].
    destruct (truthy g); [|split; [exact HM | rewrite Hgid; exact HG]].
    destruct (Roster.member_of row) as [[r m]|];
      [|split; [exact HM | rewrite Hgid; exact HG]].
    destruct (rejects E _ _);
      cbn [Roster.store Roster.group_id Roster.logged run projects members].
    + split; [exact HM | rewrite ?Hgid; exact HG].
    + split; [|rewrite ?Hgid; exact HG].
      apply map_Forall_insert_ignore; [|exact HM].
      cbn [fst]. apply HG. reflexivity.
Qed.

(** X9: when the database accepts every project insert, a full
    reconciliation leaves no orphan: every member row it stores names a
    group that has a project row. *)
Theorem rebuilt_members_have_projects div_a div_b sched d l :
  (forall g p d0, rejects E (InsertIgnoreProject g p) d0 = false) ->
  members_have_projects
    (Schedule.tables_of
       (Schedule.process_all_data_with_normalization E div_a div_b sched d l)).
Proof.
  intros Hno.
  destruct (process_all_shape div_a div_b sched d l)
    as (ga & ma & dA & lA & gb & mb & dB & lB & HA & HB & ->).
  unfold Schedule.tables_of. cbn [fst snd].
  assert (Hdiv : forall df div d0 l0,
             members_have_projects d0 ->
             members_have_projects
               (snd (fst (Roster.process_division_enhanced_with_normalization
                            E df div d0 l0)))).
  { intros df div d0 l0 H0.
    destruct (process_division_walk E df div d0 l0) as [irs ->]. cbn [fst snd].
    apply roster_walk_refs; [exact Hno | exact H0 | discriminate]. }
  assert (PA : members_have_projects dA).
  { pose proof (Hdiv div_a "A" empty_db l) as H. rewrite HA in H.
    apply H. apply map_Forall_empty. }
  assert (PB : members_have_projects dB).
  { pose proof (Hdiv div_b "B" dA lA PA) as H. rewrite HB in H. exact H. }
  apply (schedule_walk_ind (fun _ d0 => members_have_projects d0)); [|exact PB].
  intros track profs loc st a HI _ _.
  unfold Schedule.assign_step, execute.
  destruct (rejects E _ (Schedule.store st)); [exact HI|].
  destruct (rejects E _ _); cbn [Schedule.store Schedule.logged];
    [exact HI|].
  intros k m Hk. cbn [run projects members] in *.
  apply alter_is_Some, (HI k m Hk).
Qed.

Lemma upsert_panel_lookup k pa m :
  exists r3,
    upsert_panel k pa m !! k
    = Some (PanelAssignment (track pa) (panel_professors pa) (location pa)
              (guide pa) (reviewer1 pa) (reviewer2 pa) r3).
Proof.
  unfold upsert_panel. destruct (m !! k) as [old|].
  - exists (reviewer3 old). apply lookup_insert_eq.
  - exists (reviewer3 pa). rewrite lookup_insert_eq. destruct pa; reflexivity.
Qed.

Lemma upsert_panel_lookup_ne k k' pa m :
  k <> k' -> upsert_panel k pa m !! k' = m !! k'.
Proof.
  intros Hne. unfold upsert_panel.
  destruct (m !! k); apply lookup_insert_ne, Hne.
Qed.

Lemma roster_keeps_panel_assignments df div d l :
  panel_assignments
    (snd (fst (Roster.process_division_enhanced_with_normalization
                 E df div d l)))
  = panel_assignments d.
Proof.
  apply (process_division_db_ind E df div
           (fun d0 => panel_assignments d0 = panel_assignments d));
    [intros; assumption | intros; assumption | reflexivity].
Qed.

(** X12: when the database accepts every update of a project's
    evaluators, a full reconciliation leaves the two tables in agreement:
    wherever a group has both a project row and a panel assignment, they
    name the same guide and the same two evaluators. *)
Theorem rebuilt_evaluators_agree div_a div_b sched d l :
  (forall g e1 e2 d0, rejects E (UpdateProjectEvaluators g e1 e2) d0 = false) ->
  evaluators_agree
    (Schedule.tables_of
       (Schedule.process_all_data_with_normalization E div_a div_b sched d l)).
Proof.
  intros Hup.
  destruct (process_all_shape div_a div_b sched d l)
    as (ga & ma & dA & lA & gb & mb & dB & lB & HA & HB & ->).
  unfold Schedule.tables_of. cbn [fst snd].
  assert (PB : evaluators_agree dB).
  { pose proof (roster_keeps_panel_assignments div_b "B" dA lA) as H2.
    pose proof (roster_keeps_panel_assignments div_a "A" empty_db l) as H1.
    rewrite HB in H2. rewrite HA in H1. cbn [fst snd] in H1, H2.
    unfold evaluators_agree. rewrite H2, H1. apply map_Forall_empty. }
  apply (schedule_walk_ind (fun _ d0 => evaluators_agree d0)); [|exact PB].
  intros tr profs loc st a HI Hguide _.
  unfold Schedule.assign_step, execute.
  destruct (rejects E _ (Schedule.store st)); [exact HI|].
  rewrite Hup. cbn [Schedule.store].
  intros k pa' Hk. cbn [run projects members panel_assignments] in *.
  destruct (decide (Schedule.a_group_id a = k)) as [<-|Hne].
  - destruct (upsert_panel_lookup (Schedule.a_group_id a)
                (PanelAssignment tr (join (String Names.LF "") profs) loc
                   (Schedule.a_guide a) (Schedule.a_evaluator1 a)
                   (Schedule.a_evaluator2 a) None)
                (panel_assignments (Schedule.store st))) as [r3 Hr3].
    rewrite Hr3 in Hk. injection Hk as <-.
    rewrite lookup_alter_eq.
    unfold Schedule.guide_of in Hguide.
    destruct (projects (Schedule.store st) !! Schedule.a_group_id a) as [p|];
      cbn; [|exact I].
    repeat split; symmetry; exact Hguide.
  - rewrite upsert_panel_lookup_ne in Hk by exact Hne.
    rewrite lookup_alter_ne by exact Hne.
    apply (HI k pa' Hk).
Qed.

End RebuildInvariants.

Section RebuildExamples.
Import Store Pandas Env.

Lemma rebuilt_members_have_projects_witness :
  (forall g p d0,
      rejects Scenario.reader (InsertIgnoreProject g p) d0 = false)
  /\ members_have_projects
       (Schedule.tables_of
          (Schedule.process_all_data_with_normalization
             Scenario.reader Scenario.guided_roster Scenario.div_b_frame
             Scenario.guided_schedule empty_db [])).
Proof.
  split; [reflexivity|].
  apply rebuilt_members_have_projects. reflexivity.
Defined.

Lemma rebuilt_evaluators_agree_witness :
  (forall g e1 e2 d0,
      rejects Scenario.reader (UpdateProjectEvaluators g e1 e2) d0 = false)
  /\ evaluators_agree
       (Schedule.tables_of
          (Schedule.process_all_data_with_normalization
             Scenario.reader Scenario.guided_roster Scenario.div_b_frame
             Scenario.guided_schedule empty_db [])).
Proof.
  split; [reflexivity|].
  apply rebuilt_evaluators_agree. reflexivity.
Defined.

Lemma panel_assignment_keys_canonical_witness :
  ascii_frame Scenario.guided_schedule = true
  /\ map_Forall (fun g _ => GroupId.canonical_group_id g = true)
                (panel_assignments
                   (Schedule.tables_of
                      (Schedule.process_all_data_with_normalization
                         Scenario.reader Scenario.guided_roster
                         Scenario.div_b_frame Scenario.guided_schedule
                         empty_db []))).
Proof.
  split; [reflexivity|].
  apply (panel_assignment_keys_canonical
           Scenario.reader Wide.with_arabic_indic).
  - exact with_arabic_indic_extends.
  - reflexivity.
Defined.

End RebuildExamples.

Section CountFacts.
Import PyStr Store Pandas Env.
Context (E : env).

Lemma insert_ignore_size `{Countable K} {V} (k : K) (v : V) (m : gmap K V) :
  (size (insert_ignore k v m) <= S (size m))%nat.
Proof.
  unfold insert_ignore. destruct (m !! k) eqn:Hk; [lia|].
  rewrite map_size_insert_None by exact Hk. lia.
Qed.

Lemma insert_ignore_present `{Countable K} {V} (k : K) (v : V) (m : gmap K V) :
  is_Some (m !! k) -> insert_ignore k v m = m.
Proof. unfold insert_ignore. intros [x ->]. reflexivity. Qed.

(** The counters of the roster walk bound the rows it adds. *)
Lemma roster_walk_counts div irs st (n0 m0 : nat) :
  (size (projects (Roster.store st))
   <= n0 + length (Roster.processed_groups st))%nat ->
  (forall g, g ∈ Roster.processed_groups st ->
             is_Some (projects (Roster.store st) !! g)) ->
  (size (members (Roster.store st)) <= m0 + Roster.processed_members st)%nat ->
  let st' := Roster.walk E div irs st in
  (size (projects (Roster.store st'))
   <= n0 + length (Roster.processed_groups st'))%nat
  /\ (size (members (Roster.store st'))
      <= m0 + Roster.processed_members st')%nat.
Proof.
  intros H1 H2 H3 st'.
  enough (HJ : (size (projects (Roster.store st'))
                <= n0 + length (Roster.processed_groups st'))%nat
               /\ (forall g, g ∈ Roster.processed_groups st' ->
                             is_Some (projects (Roster.store st') !! g))
               /\ (size (members (Roster.store st'))
                   <= m0 + Roster.processed_members st')%nat) by tauto.
  subst st'.
  apply (roster_walk_ind E div
           (fun s => (size (projects (Roster.store s))
                      <= n0 + length (Roster.processed_groups s))%nat
                     /\ (forall g, g ∈ Roster.processed_groups s ->
                                   is_Some (projects (Roster.store s) !! g))
                     /\ (size (members (Roster.store s))
                         <= m0 + Roster.processed_members s)%nat));
    [| |tauto].
  - clear. intros row s (Ha & Hb & Hc).
    unfold Roster.project_step, execute.
    destruct (Roster.header_group row) as [g|]; [|tauto].
    cbn [Roster.store].
    destruct (rejects E _ _);
      cbn [Roster.store Roster.processed_groups Roster.processed_members
           Roster.logged Roster.group_id run projects members]; [tauto|].
    case_bool_decide as Hin.
    + rewrite insert_ignore_present by (apply Hb, Hin). tauto.
    + split; [|split; [|exact Hc]].
      * rewrite length_app. cbn [length].
        pose proof (insert_ignore_size g (Roster.project_of div row)
                      (projects (Roster.store s))). lia.
      * intros g' Hg'. apply insert_ignore_is_Some.
        apply elem_of_app in Hg' as [Hg'|Hg'].
        -- right. apply Hb, Hg'.
        -- left. apply list_elem_of_singleton in Hg'. exact Hg'.
  - clear. intros row s (Ha & Hb & Hc).
    unfold Roster.member_step, execute.
    destruct (Roster.group_id s) as [g|]; [|tauto].
    destruct (truthy g); [|tauto].
    destruct (Roster.member_of row) as [[r m]|]; [|tauto].
    destruct (rejects E _ _);
      cbn [Roster.store Roster.processed_groups Roster.processed_members
           Roster.logged Roster.group_id run projects members]; [tauto|].
    split; [exact Ha|]. split; [exact Hb|].
    pose proof (insert_ignore_size (g, r) m (members (Roster.store s))). lia.
Qed.

(** X13: the two counts a roster run returns bound what it stored: it adds
    at most as many project rows as the groups it reports and at most as
    many member rows as the members it reports. *)
Theorem roster_counts_bound_rows df div d l :
  let r := Roster.process_division_enhanced_with_normalization E df div d l in
  (size (projects (snd (fst r))) <= size (projects d) + fst (fst (fst r)))%nat
  /\ (size (members (snd (fst r)))
      <= size (members d) + snd (fst (fst r)))%nat.
Proof.
  intros r. subst r.
  destruct (process_division_walk E df div d l) as [irs ->]. cbn [fst snd].
  apply roster_walk_counts; cbn [Roster.store Roster.processed_groups
                                   Roster.processed_members length]; [lia| |lia].
  intros g Hg. apply elem_of_nil in Hg. contradiction.
Qed.

Lemma upsert_panel_dom k pa (m : gmap string panel_assignment) :
  dom (upsert_panel k pa m) = {[ k ]} ∪ dom m.
Proof.
  unfold upsert_panel. destruct (m !! k); apply dom_insert_L.
Qed.

Lemma alter_size `{Countable K} {V} (f : V -> V) (k : K) (m : gmap K V) :
  size (alter f k m) = size m.
Proof. rewrite <- !size_dom. rewrite dom_alter_L. reflexivity. Qed.

(** X14: the summary of a full reconciliation is sound for the tables it
    leaves: the projects table holds at most [total_processed] rows, and
    every group counted in [scheduled_groups] has a row in the panel
    assignments, so that table holds at least that many rows. *)
Theorem summary_bounds_tables div_a div_b sched d l :
  let r := Schedule.process_all_data_with_normalization
             E div_a div_b sched d l in
  (size (projects (Schedule.tables_of r))
   <= Schedule.total_processed (Schedule.summary_of r))%nat
  /\ (Schedule.scheduled_groups (Schedule.summary_of r)
      <= size (panel_assignments (Schedule.tables_of r)))%nat.
Proof.
  intros r. subst r.
  destruct (process_all_shape E div_a div_b sched d l)
    as (ga & ma & dA & lA & gb & mb & dB & lB & HA & HB & ->).
  unfold Schedule.tables_of, Schedule.summary_of.
  cbn [fst snd Schedule.total_processed Schedule.scheduled_groups].
  assert (Hdiv : forall df div d0 l0,
             let r := Roster.process_division_enhanced_with_normalization
                        E df div d0 l0 in
             (size (projects (snd (fst r)))
              <= size (projects d0) + fst (fst (fst r)))%nat).
  { intros df div d0 l0 r. subst r.
    destruct (process_division_walk E df div d0 l0) as [irs ->].
    cbn [fst snd].
    apply (roster_walk_counts div irs _ _ (size (members d0)));
      cbn [Roster.store Roster.processed_groups
           Roster.processed_members length]; [lia| |lia].
    intros g Hg. apply elem_of_nil in Hg. contradiction. }
  pose proof (Hdiv div_a "A" empty_db l) as PA.
  pose proof (Hdiv div_b "B" dA lA) as PB.
  cbv zeta in PA, PB. rewrite HA in PA. rewrite HB in PB.
  cbn [fst snd] in PA, PB.
  change (projects empty_db) with (∅ : gmap string project) in PA.
  rewrite map_size_empty in PA.
  pose proof (schedule_walk_ind E
                (fun S d0 => size (projects d0) = size (projects dB)
                             /\ S ⊆ dom (panel_assignments d0))) as Hind.
  destruct (Hind) with
      (irs := iterrows (normalize_dataframe_columns sched))
      (st := Schedule.State 0 ∅ dB lB) as [Hsize Hsub].
  - clear. intros tr profs loc st a [Hs Hd] _ _.
    unfold Schedule.assign_step, execute.
    destruct (rejects E _ (Schedule.store st)); [split; assumption|].
    destruct (rejects E _ _);
      cbn [Schedule.store Schedule.all_scheduled_groups Schedule.logged
           run projects members panel_assignments].
    + split; [exact Hs|]. rewrite upsert_panel_dom.
      intros x Hx. apply elem_of_union. right. apply Hd, Hx.
    + rewrite alter_size. split; [exact Hs|]. rewrite upsert_panel_dom.
      intros x Hx. apply elem_of_union in Hx as [Hx|Hx];
        apply elem_of_union; [right; apply Hd, Hx | left; exact Hx].
  - cbn [Schedule.store Schedule.all_scheduled_groups]. split; [reflexivity|].
    intros x Hx. apply elem_of_empty in Hx. contradiction.
  - split; [lia|].
    apply subseteq_size in Hsub. rewrite size_dom in Hsub. exact Hsub.
Qed.

End CountFacts.

(* --------------------------------------------------------------------- *)
(** ** The stored workbook: what an import leaves and what a reload gives *)
(* --------------------------------------------------------------------- *)

Section StoredFacts.
Import PyStr Sheets Store Pandas Workbook Env Upload.
Context (E : env) (empty_bytes : bool).

Lemma sheet_role_truthy s r : sheet_role s = Some r -> truthy s = true.
Proof.
  destruct s as [|c s]; [|reflexivity].
  vm_compute. discriminate.
Qed.

(** A role the detection has filled names a sheet that is not the empty
    text. *)
Lemma detected_name_given names r :
  det_get (detect_and_normalize_sheets_robust names) r <> None ->
  Stored.name_given (det_get (detect_and_normalize_sheets_robust names) r)
  = true.
Proof.
  unfold detect_and_normalize_sheets_robust. rewrite detect_fold.
  destruct (last _) as [s|] eqn:Hl; [|intros H; destruct r; cbn in H; congruence].
  intros _. apply last_Some_elem_of, list_elem_of_filter in Hl as [Hr _].
  cbn. apply (sheet_role_truthy s r Hr).
Qed.

Lemma nothing_missing d r : missing_sheets d = [] -> det_get d r <> None.
Proof.
  intros Hm Hr. apply missing_sheets_spec in Hr. rewrite Hm in Hr.
  inversion Hr.
Qed.

Lemma save_admin_file_true content m sys sys1 :
  save_admin_file E content m sys = (true, sys1) ->
  failed_write E content (entries_of m) (slot_of (stored sys)) = None
  /\ sys1 = System (Some (content, m)) (tables sys) (journal sys).
Proof.
  unfold save_admin_file. destruct (failed_write E _ _ _); [discriminate|].
  intros [= <-]. split; reflexivity.
Qed.

Lemma save_admin_file_written content m sys :
  failed_write E content (entries_of m) (slot_of (stored sys)) = None ->
  save_admin_file E content m sys
  = (true, System (Some (content, m)) (tables sys) (journal sys)).
Proof. unfold save_admin_file. intros ->. reflexivity. Qed.

Lemma save_admin_file_failed content m sys remains :
  failed_write E content (entries_of m) (slot_of (stored sys)) = Some remains ->
  save_admin_file E content m sys
  = (false, System (stored_of remains) (tables sys) (journal sys ++ [SaveError])).
Proof. unfold save_admin_file. intros ->. reflexivity. Qed.

Lemma save_admin_file_tables content m sys :
  tables (snd (save_admin_file E content m sys)) = tables sys.
Proof. unfold save_admin_file. destruct (failed_write E _ _ _); reflexivity. Qed.

(** X15: a reload reproduces an import that was saved.  When
    [import_excel] answers 200 and its message says that the file was
    saved, [load_stored_file] on the system it leaves answers 200 with the
    same summary, the same cell mapping and the same sheet names, quotes
    the upload date of the request, and leaves the stored workbook and the
    three tables as the import left them. *)
Theorem reload_reproduces_import req sys ex mp names cols sys' :
  import_excel E req sys = (Imported ex mp names cols true, sys') ->
  exists l',
    Stored.load_stored_file E empty_bytes sys'
    = (Stored.Loaded ex mp names (now req),
       System (stored sys') (tables sys') l').
Proof.
  unfold import_excel.
  destruct (excel req) as [[fn [|wb]]|]; [discriminate| |discriminate].
  destruct (missing_sheets (detect_and_normalize_sheets_robust (sheetnames wb)))
    as [|r0 rest] eqn:Hm; [|discriminate].
  set (det := detect_and_normalize_sheets_robust (sheetnames wb)) in *.
  destruct (save_admin_file E (Xlsx wb) (Metadata det (now req) fn) sys)
    as [ok sys1] eqn:Hsave.
  destruct (read_excel E wb (sheet_of det div_a) 3) as [da|] eqn:Ha;
    [|discriminate].
  destruct (read_excel E wb (sheet_of det div_b) 3) as [db_|] eqn:Hb;
    [|discriminate].
  destruct (read_excel E wb (sheet_of det schedule) 2) as [sc|] eqn:Hs;
    [|discriminate].
  destruct (Schedule.process_all_data_with_normalization E
              (normalize_dataframe_columns da) (normalize_dataframe_columns db_)
              (normalize_dataframe_columns sc) (tables sys1) (journal sys1))
    as [[ex0 d0] l0] eqn:Hrun.
  destruct (generate_cell_mapping E _ _ _) as [mp0|] eqn:Hmap; [|discriminate].
  intros [= <- <- <- <- -> <-].
  apply save_admin_file_true in Hsave as [_ ->].
  unfold Stored.load_stored_file, Stored.load_admin_file, Stored.present.
  cbn [stored tables journal sheet_names upload_date negb] in *.
  subst det.
  rewrite !detected_name_given by (apply nothing_missing, Hm).
  cbn [andb negb]. rewrite Ha, Hb, Hs.
  pose proof (process_all_from_scratch E
                (normalize_dataframe_columns da) (normalize_dataframe_columns db_)
                (normalize_dataframe_columns sc) d0 l0 (tables sys) (journal sys))
    as Hfs.
  rewrite Hrun in Hfs.
  destruct (Schedule.process_all_data_with_normalization E
              (normalize_dataframe_columns da) (normalize_dataframe_columns db_)
              (normalize_dataframe_columns sc) d0 l0)
    as [[ex1 d1] l1].
  cbn [fst] in Hfs. injection Hfs as -> ->.
  rewrite Hmap. exists l1. reflexivity.
Qed.

(** X16: once the three roles are detected and the two files are written,
    the upload is the stored workbook, whatever the import answers
    afterwards: the slot holds the uploaded bytes with the detected names,
    the clock of the request and the file name, and [check_stored_file],
    [get_file_info] and [export_excel] all report that file. *)
Theorem detected_upload_is_stored fn wb t sys :
  missing_sheets (detect_and_normalize_sheets_robust (sheetnames wb)) = [] ->
  let m := Metadata (detect_and_normalize_sheets_robust (sheetnames wb)) t fn in
  failed_write E (Xlsx wb) (entries_of m) (slot_of (stored sys)) = None ->
  let sys' := snd (import_excel E (Request (Some (fn, Xlsx wb)) t) sys) in
  stored sys' = Some (Xlsx wb, m)
  /\ Stored.check_stored_file empty_bytes sys' = Stored.HasStoredFile m t
  /\ Stored.get_file_info sys' = Stored.FileInfo m
  /\ Stored.export_excel sys' = Stored.Attachment (Xlsx wb).
Proof.
  intros Hm m Hw sys'.
  assert (Hst : stored sys' = Some (Xlsx wb, m)).
  { subst sys'. unfold import_excel. cbn [excel now]. rewrite Hm.
    fold m. rewrite (save_admin_file_written _ _ _ Hw).
    cbn [tables journal stored].
    repeat case_match; reflexivity. }
  unfold Stored.check_stored_file, Stored.load_admin_file,
    Stored.get_file_info, Stored.export_excel.
  rewrite Hst. cbn. repeat split.
Qed.

(** X17: when a detected sheet cannot be read, the import answers 500 and
    leaves the tables as they were, although [save_admin_file] has run
    before the sheets are read: if its two files were written, the stored
    workbook is already the new upload; if the writing failed, the slot
    holds what the failed writing left. *)
Theorem unreadable_sheet_keeps_tables fn wb t sys :
  missing_sheets (detect_and_normalize_sheets_robust (sheetnames wb)) = [] ->
  (exists r skip,
      (r, skip) ∈ [(div_a, 3); (div_b, 3); (schedule, 2)]
      /\ read_excel E wb
           (sheet_of (detect_and_normalize_sheets_robust (sheetnames wb)) r)
           skip = None) ->
  let m := Metadata (detect_and_normalize_sheets_robust (sheetnames wb)) t fn in
  let res := import_excel E (Request (Some (fn, Xlsx wb)) t) sys in
  status (fst res) = 500
  /\ tables (snd res) = tables sys
  /\ (failed_write E (Xlsx wb) (entries_of m) (slot_of (stored sys)) = None ->
      stored (snd res) = Some (Xlsx wb, m))
  /\ (forall remains,
         failed_write E (Xlsx wb) (entries_of m) (slot_of (stored sys))
         = Some remains ->
         stored (snd res) = stored_of remains).
Proof.
  intros Hm (r & skip & Hin & Hnone) m res. subst res.
  unfold import_excel. cbn [excel now]. rewrite Hm. fold m.
  pose proof (save_admin_file_tables (Xlsx wb) m sys) as Ht.
  pose proof (save_admin_file_written (Xlsx wb) m sys) as Hw.
  pose proof (save_admin_file_failed (Xlsx wb) m sys) as Hf.
  destruct (save_admin_file E (Xlsx wb) m sys) as [ok sys1].
  cbn [snd] in Ht.
  assert (Hst : failed_write E (Xlsx wb) (entries_of m) (slot_of (stored sys))
                = None -> stored sys1 = Some (Xlsx wb, m)).
  { intros H. specialize (Hw H). injection Hw as _ ->. reflexivity. }
  assert (Hfl : forall remains,
             failed_write E (Xlsx wb) (entries_of m) (slot_of (stored sys))
             = Some remains -> stored sys1 = stored_of remains).
  { intros remains H. specialize (Hf _ H). injection Hf as _ ->. reflexivity. }
  repeat (apply elem_of_cons in Hin as [Hin|Hin];
          [injection Hin as -> ->; rewrite Hnone;
           repeat case_match; cbn [fst snd failed status tables stored];
           (split; [reflexivity|]); (split; [exact Ht|]);
           (split; [exact Hst | exact Hfl])|]).
  inversion Hin.
Qed.

End StoredFacts.

Section StoredExamples.
Import PyStr Sheets Store Pandas Workbook Env Upload.

Lemma reload_reproduces_import_witness :
  match import_excel Scenario.reader Scenario.upload Scenario.fresh with
  | (Imported ex mp names _ true, sys') =>
      exists l',
        Stored.load_stored_file Scenario.reader false sys'
        = (Stored.Loaded ex mp names (now Scenario.upload),
           System (stored sys') (tables sys') l')
  | _ => False
  end.
Proof.
  destruct (import_excel Scenario.reader Scenario.upload Scenario.fresh)
    as [[| | ex mp names cols [|]|] sys'] eqn:H;
    try (vm_compute in H; discriminate H).
  eapply reload_reproduces_import. exact H.
Defined.

Lemma detected_upload_is_stored_witness :
  Stored.export_excel
    (snd (import_excel Scenario.reader Scenario.upload Scenario.fresh))
  = Stored.Attachment (Xlsx Scenario.book).
Proof.
  apply (detected_upload_is_stored Scenario.reader false
           "roster.xlsx" Scenario.book "2024-01-01 10:00:00" Scenario.fresh).
  - vm_compute. reflexivity.
  - reflexivity.
Defined.

Lemma unreadable_sheet_keeps_tables_witness :
  tables (snd (import_excel accepting Scenario.upload Scenario.sharma_system))
  = Scenario.sharma_db
  /\ tables (snd (import_excel Scenario.full_disk Scenario.upload
                               Scenario.sharma_system))
     = Scenario.sharma_db.
Proof.
  split.
  - apply (unreadable_sheet_keeps_tables accepting
             "roster.xlsx" Scenario.book "2024-01-01 10:00:00"
             Scenario.sharma_system).
    + vm_compute. reflexivity.
    + exists div_a, 3. split; [apply list_elem_of_here | reflexivity].
  - apply (unreadable_sheet_keeps_tables Scenario.full_disk
             "roster.xlsx" Scenario.book "2024-01-01 10:00:00"
             Scenario.sharma_system).
    + vm_compute. reflexivity.
    + exists div_a, 3. split; [apply list_elem_of_here | reflexivity].
Defined.

End StoredExamples.

(* --------------------------------------------------------------------- *)
(** ** Writers: what a write leaves alone *)
(* --------------------------------------------------------------------- *)

Section WriterFrames.
Import PyStr Workbook Writer Upload.

(** One format-preserving write changes no other cell, and keeps the
    style of every cell. *)
Lemma update_cell_preserve_format_other ws row col v r c :
  (r, c) <> (row, col) ->
  update_cell_preserve_format ws row col v !! (r, c) = ws !! (r, c).
Proof.
  intros Hne. unfold update_cell_preserve_format.
  destruct (_ || _); [reflexivity|].
  apply lookup_insert_ne. congruence.
Qed.

Lemma update_cell_preserve_format_style ws row col v r c :
  kept_style (cell_at (update_cell_preserve_format ws row col v) r c)
  = kept_style (cell_at ws r c).
Proof.
  destruct (decide ((r, c) = (row, col))) as [[= -> ->]|Hne].
  - unfold update_cell_preserve_format.
    destruct (_ || _); [reflexivity|].
    unfold cell_at at 1. rewrite lookup_insert_eq. reflexivity.
  - unfold cell_at. rewrite update_cell_preserve_format_other by exact Hne.
    reflexivity.
Qed.

(** X18: of two format-preserving writes to the same cell the last one
    wins: the sheet is the one the second write alone would give, value
    and style, so writing a sheet again does not wear its style down
    further. *)
Theorem repeated_write_is_last_write ws row col v v' :
  update_cell_preserve_format
    (update_cell_preserve_format ws row col v) row col v'
  = update_cell_preserve_format ws row col v'.
Proof.
  unfold update_cell_preserve_format.
  destruct (_ || _); [reflexivity|].
  rewrite insert_insert_eq. f_equal.
  unfold cell_at. rewrite lookup_insert_eq. cbn [default].
  destruct (default blank (ws !! (row, col))) as [v0 f0 a0 b0 fl0 nf0].
  reflexivity.
Qed.

Lemma cell_at_insert (ws : worksheet) (r c : Z) (x : wcell) :
  cell_at (<[(r, c) := x]> ws) r c = x.
Proof. unfold cell_at. rewrite lookup_insert_eq. reflexivity. Qed.

Lemma replace_sheet_Forall2 (name : string)
      (edit : worksheet -> option worksheet)
      (R : worksheet -> worksheet -> Prop) (wb wb' : workbook) :
  (forall ws, R ws ws) ->
  (forall ws ws', edit ws = Some ws' -> R ws ws') ->
  replace_sheet name edit wb = Some wb' ->
  Forall2 (fun a b => fst a = fst b /\ R (snd a) (snd b)) wb wb'.
Proof.
  intros Hrefl Hedit. revert wb'.
  induction wb as [|[n ws] rest IH]; intros wb'; cbn.
  - intros [= <-]. constructor.
  - destruct (String.eqb _ _).
    + destruct (edit ws) as [ws'|] eqn:Hws; [|discriminate]. intros [= <-].
      constructor; [split; [reflexivity | apply Hedit, Hws]|].
      apply Forall2_same_length_lookup_2; [reflexivity|].
      intros i x y Hx Hy. rewrite Hx in Hy. injection Hy as <-.
      split; [reflexivity | apply Hrefl].
    + destruct (replace_sheet name edit rest) as [rest'|]; [|discriminate].
      intros [= <-]. constructor; [split; [reflexivity | apply Hrefl]|].
      apply IH. reflexivity.
Qed.

(** X19: a cell edit of the stored workbook touches one cell at most.  The
    metadata, the sheets, their names and their order stay; in every sheet
    every cell other than the edited position is as it was, and the cell
    at the edited position keeps its whole style: font, alignment, border,
    fill and number format. *)
Theorem cell_edit_touches_one_cell sheet_name row col v wb m :
  exists wb',
    update_admin_file_cell sheet_name row col v (Some (Xlsx wb, m))
    = Some (Xlsx wb', m)
    /\ Forall2
         (fun a b =>
            fst a = fst b
            /\ (forall pos, pos <> ((row + 1)%Z, (col + 1)%Z) ->
                            snd b !! pos = snd a !! pos)
            /\ (let old := cell_at (snd a) (row + 1) (col + 1) in
                let new := cell_at (snd b) (row + 1) (col + 1) in
                (c_font new, c_alignment new, c_border new, c_fill new,
                 c_number_format new)
                = (c_font old, c_alignment old, c_border old, c_fill old,
                   c_number_format old)))
         wb wb'.
Proof.
  unfold update_admin_file_cell.
  destruct (replace_sheet sheet_name _ wb) as [wb'|] eqn:Hrep.
  - exists wb'. split; [reflexivity|].
    eapply (replace_sheet_Forall2 _ _
              (fun ws ws' =>
                 (forall pos, pos <> ((row + 1)%Z, (col + 1)%Z) ->
                              ws' !! pos = ws !! pos)
                 /\ (let old := cell_at ws (row + 1) (col + 1) in
                     let new := cell_at ws' (row + 1) (col + 1) in
                     (c_font new, c_alignment new, c_border new, c_fill new,
                      c_number_format new)
                     = (c_font old, c_alignment old, c_border old, c_fill old,
                        c_number_format old))));
      [| |exact Hrep].
    + intros ws. split; reflexivity.
    + intros ws ws'. unfold ws_cell. destruct (_ || _); [discriminate|].
      intros [= <-]. split.
      * intros pos Hpos. apply lookup_insert_ne. congruence.
      * cbv zeta. rewrite cell_at_insert. destruct v; reflexivity.
  - exists wb. split; [reflexivity|].
    apply Forall2_same_length_lookup_2; [reflexivity|].
    intros i x y Hx Hy. rewrite Hx in Hy. injection Hy as <-.
    repeat split.
Qed.

End WriterFrames.

(* --------------------------------------------------------------------- *)
(** ** Formatted export: styles kept, rows in order, no track dropped *)
(* --------------------------------------------------------------------- *)

Section ExportFacts.
Import PyStr Pandas Workbook Writer Formatted.

Lemma max_row_spec (ws : worksheet) :
  (1 <= max_row ws)%Z
  /\ forall k x, ws !! k = Some x -> (fst k <= max_row ws)%Z.
Proof.
  unfold max_row.
  apply (map_fold_weak_ind
           (fun acc (m : worksheet) =>
              (1 <= acc)%Z
              /\ forall k x, m !! k = Some x -> (fst k <= acc)%Z)).
  - split; [lia|]. intros k x Hk. rewrite lookup_empty in Hk. discriminate.
  - intros i x m r Hi [H1 H2]. split; [lia|]. intros k y Hk.
    destruct (decide (i = k)) as [->|Hne]; [lia|].
    rewrite lookup_insert_ne in Hk by exact Hne.
    specialize (H2 k y Hk). lia.
Qed.

Lemma update_value ws row col v :
  (0 < row)%Z -> (0 < col)%Z ->
  c_value (cell_at (update_cell_preserve_format ws row col v) row col)
  = clean_value v.
Proof.
  intros Hr Hc. unfold cell_at.
  rewrite update_cell_preserve_format_lookup by assumption. reflexivity.
Qed.

Lemma update_cell_at_other ws row col v r c :
  (r, c) <> (row, col) ->
  cell_at (update_cell_preserve_format ws row col v) r c = cell_at ws r c.
Proof.
  intros Hne. unfold cell_at.
  rewrite update_cell_preserve_format_other by exact Hne. reflexivity.
Qed.

Lemma update_max_row ws row col v :
  (0 < row)%Z -> (0 < col)%Z ->
  (row <= max_row (update_cell_preserve_format ws row col v))%Z.
Proof.
  intros Hr Hc.
  pose proof (update_cell_preserve_format_lookup ws row col v Hr Hc) as Hl.
  apply (proj2 (max_row_spec _)) in Hl. exact Hl.
Qed.

Lemma keeps_style_refl ws : keeps_style ws ws.
Proof. intros r c. reflexivity. Qed.

Lemma keeps_style_trans ws1 ws2 ws3 :
  keeps_style ws1 ws2 -> keeps_style ws2 ws3 -> keeps_style ws1 ws3.
Proof. intros H1 H2 r c. rewrite H2. apply H1. Qed.

Lemma update_keeps_style ws row col v :
  keeps_style ws (update_cell_preserve_format ws row col v).
Proof. intros r c. apply update_cell_preserve_format_style. Qed.

Ltac style_step :=
  repeat first
    [ apply keeps_style_refl
    | eapply keeps_style_trans; [|apply update_keeps_style] ].

Lemma division_step_style st row_data :
  keeps_style (fst (fst st)) (fst (fst (division_step st row_data))).
Proof.
  destruct st as [[ws cur] g]. unfold division_step.
  destruct (has_student row_data); [|apply keeps_style_refl].
  destruct (bool_decide _); destruct (_ && _); cbn [fst]; style_step.
Qed.

Lemma division_fold_style rows : forall st,
  keeps_style (fst (fst st)) (fst (fst (fold_left division_step rows st))).
Proof.
  induction rows as [|row rows IH]; intros st; cbn [fold_left].
  - apply keeps_style_refl.
  - eapply keeps_style_trans; [apply division_step_style | apply IH].
Qed.

Lemma write_track_style ws cur info : keeps_style ws (write_track ws cur info).
Proof. unfold write_track. style_step. Qed.

Lemma write_tracks_style infos : forall ws cur,
  keeps_style ws (write_tracks infos ws cur).
Proof.
  induction infos as [|info rest IH]; intros ws cur; cbn [write_tracks].
  - apply keeps_style_refl.
  - destruct (_ <=? _)%Z; [|apply keeps_style_refl].
    eapply keeps_style_trans; [apply write_track_style | apply IH].
Qed.

(** X20: the formatted export keeps the style of the stored workbook.  The
    workbook it sends has the sheets of the stored one, under the same
    names and in the same order, and every cell of every sheet, written or
    not, has the border, the fill and the number format it had, and the
    font and alignment attributes the writer names. *)
Theorem export_keeps_style wb m database_data schedule_data :
  exists wb',
    export_formatted_excel (Some (Xlsx wb, m)) database_data schedule_data
    = Sent wb'
    /\ Forall2 (fun a b => fst a = fst b /\ keeps_style (snd a) (snd b))
               wb wb'.
Proof.
  eexists. split; [reflexivity|].
  apply Forall2_fmap_r, Forall_Forall2_diag, Forall_forall.
  intros [n ws] _. unfold export_sheet, compose. cbv beta. cbn [fst snd].
  destruct (any_in ["DIV A"; "DIVA"; "DIVISION A"] (upper n)); cbn [fst snd];
    [split; [reflexivity|];
     apply (division_fold_style _ (ws, division_start ws, None))|].
  destruct (any_in ["DIV B"; "DIVB"; "DIVISION B"] (upper n)); cbn [fst snd];
    [split; [reflexivity|];
     apply (division_fold_style _ (ws, division_start ws, None))|].
  destruct (any_in ["SCHEDULE"; "SCHED"] (upper n)); cbn [fst snd];
    split; try reflexivity.
  - apply write_tracks_style.
  - apply keeps_style_refl.
Qed.

Lemma header_row_bounds is_header limit ws r :
  header_row is_header limit ws = Some r -> (1 <= r <= max_row ws)%Z.
Proof.
  unfold header_row. intros H.
  apply head_Some_elem_of, list_elem_of_filter in H as [_ H].
  apply elem_of_seqZ in H. lia.
Qed.

Lemma schedule_start_bounds ws :
  (0 < schedule_start ws <= max_row ws + 5)%Z.
Proof.
  unfold schedule_start. pose proof (proj1 (max_row_spec ws)).
  destruct (header_row _ _ _) as [r|] eqn:Hr; [|lia].
  apply header_row_bounds in Hr. lia.
Qed.

Lemma division_start_pos ws : (0 < division_start ws)%Z.
Proof.
  unfold division_start.
  destruct (header_row _ _ _) as [r|] eqn:Hr; [|lia].
  apply header_row_bounds in Hr. lia.
Qed.

(** What the four writes of one track leave in its row, and that they
    leave the other rows alone. *)
Lemma write_track_row ws cur info :
  (0 < cur)%Z ->
  let ws' := write_track ws cur info in
  c_value (cell_at ws' cur 1) = VInt (t_track info)
  /\ c_value (cell_at ws' cur 2)
     = clean_value (text (clean_panel_text (t_panel_professors info)))
  /\ c_value (cell_at ws' cur 3)
     = clean_value (VStr (join " " (t_group_ids info)))
  /\ c_value (cell_at ws' cur 4) = clean_value (text (t_location info)).
Proof.
  intros Hcur ws'. subst ws'. unfold write_track.
  repeat split.
  - rewrite !update_cell_at_other by (intros [= ?]; lia).
    apply update_value; lia.
  - rewrite !update_cell_at_other by (intros [= ?]; lia).
    apply update_value; lia.
  - rewrite !update_cell_at_other by (intros [= ?]; lia).
    apply update_value; lia.
  - apply update_value; lia.
Qed.

Lemma write_track_other ws cur info r c :
  r <> cur -> write_track ws cur info !! (r, c) = ws !! (r, c).
Proof.
  intros Hne. unfold write_track.
  rewrite !update_cell_preserve_format_other by (intros [= ? ?]; lia).
  reflexivity.
Qed.

Lemma write_track_max_row ws cur info :
  (0 < cur)%Z -> (cur <= max_row (write_track ws cur info))%Z.
Proof. intros Hcur. unfold write_track. apply update_max_row; lia. Qed.

Lemma write_tracks_rows infos : forall ws cur,
  (0 < cur)%Z -> (cur <= max_row ws + 5)%Z ->
  let ws' := write_tracks infos ws cur in
  (forall r c, (r < cur)%Z -> ws' !! (r, c) = ws !! (r, c))
  /\ forall i info, infos !! i = Some info ->
       let row := (cur + Z.of_nat i)%Z in
       c_value (cell_at ws' row 1) = VInt (t_track info)
       /\ c_value (cell_at ws' row 2)
          = clean_value (text (clean_panel_text (t_panel_professors info)))
       /\ c_value (cell_at ws' row 3)
          = clean_value (VStr (join " " (t_group_ids info)))
       /\ c_value (cell_at ws' row 4) = clean_value (text (t_location info)).
Proof.
  induction infos as [|info0 rest IH]; intros ws cur Hpos Hmax ws'; subst ws'.
  - split; [reflexivity|]. intros i info Hi. rewrite lookup_nil in Hi.
    discriminate.
  - cbn [write_tracks].
    destruct (Z.leb_spec cur (max_row ws + 5)) as [_|Hgt]; [|lia].
    pose proof (write_track_max_row ws cur info0 Hpos) as Hrow.
    destruct (IH (write_track ws cur info0) (cur + 1)%Z) as [Hframe Hrows];
      [lia | lia |].
    split.
    + intros r c Hr. rewrite Hframe by lia.
      apply write_track_other. lia.
    + intros [|i] info Hi.
      * injection Hi as <-. cbv zeta.
        replace (cur + Z.of_nat 0)%Z with cur by lia.
        unfold cell_at. rewrite !Hframe by lia.
        apply (write_track_row ws cur info0 Hpos).
      * cbv zeta.
        replace (cur + Z.of_nat (S i))%Z with (cur + 1 + Z.of_nat i)%Z by lia.
        apply (Hrows i info Hi).
Qed.

(** X21: the schedule writer drops no track.  Its row limit compares the
    row to be written with a last row that each write pushes down, so the
    limit is never reached: the i-th track in the order of the track
    numbers is written on the i-th row below the header, with its number,
    its cleaned panel text, its group identifiers joined by blanks and its
    location. *)
Theorem every_track_is_written ws schedule_data i info :
  sorted_tracks (group_tracks schedule_data) !! i = Some info ->
  let ws' := update_schedule_sheet_formatted ws schedule_data in
  let row := (schedule_start ws + Z.of_nat i)%Z in
  c_value (cell_at ws' row 1) = VInt (t_track info)
  /\ c_value (cell_at ws' row 2)
     = clean_value (text (clean_panel_text (t_panel_professors info)))
  /\ c_value (cell_at ws' row 3)
     = clean_value (VStr (join " " (t_group_ids info)))
  /\ c_value (cell_at ws' row 4) = clean_value (text (t_location info)).
Proof.
  intros Hi. unfold update_schedule_sheet_formatted.
  pose proof (schedule_start_bounds ws) as [Hpos Hmax].
  apply (proj2 (write_tracks_rows _ ws (schedule_start ws) Hpos Hmax) i info Hi).
Qed.

(** The group whose header the row before the i-th student row left in
    [current_group]. *)
Lemma division_step_student ws cur g row_data :
  has_student row_data = true ->
  (0 < cur)%Z ->
  exists ws',
    division_step (ws, cur, g) row_data
    = (ws', (cur + 1)%Z, Some (r_group_id row_data))
    /\ (forall r c, r <> cur -> ws' !! (r, c) = ws !! (r, c))
    /\ c_value (cell_at ws' cur 2) = clean_value (VStr (r_roll_no row_data))
    /\ c_value (cell_at ws' cur 3)
       = clean_value (VStr (r_student_name row_data))
    /\ (Some (r_group_id row_data) <> g ->
        c_value (cell_at ws' cur 1) = clean_value (VStr (r_group_id row_data))
        /\ c_value (cell_at ws' cur 5)
           = clean_value (text (r_project_domain row_data))
        /\ c_value (cell_at ws' cur 6)
           = clean_value (text (r_project_title row_data))
        /\ c_value (cell_at ws' cur 7)
           = clean_value (text (r_sponsor_company row_data))
        /\ c_value (cell_at ws' cur 8)
           = clean_value (text (r_guide_name row_data))).
Proof.
  intros Hs Hcur. unfold division_step. rewrite Hs.
  case_bool_decide as Hg.
  - destruct (_ && _); eexists; (split; [reflexivity|]);
      (split; [intros r c Hr;
               rewrite !update_cell_preserve_format_other
                 by (intros [= ? ?]; lia); reflexivity|]);
      repeat split; intros;
        rewrite ?update_cell_at_other by (intros [= ?]; lia);
        apply update_value; lia.
  - assert (Hg' : g = Some (r_group_id row_data)) by (symmetry; exact Hg).
    destruct (_ && _); eexists; (split; [rewrite Hg'; reflexivity|]);
      (split; [intros r c Hr;
               rewrite !update_cell_preserve_format_other
                 by (intros [= ? ?]; lia); reflexivity|]);
      (split; [rewrite ?update_cell_at_other by (intros [= ?]; lia);
               apply update_value; lia|]);
      (split; [rewrite ?update_cell_at_other by (intros [= ?]; lia);
               apply update_value; lia|]);
      intros Hne; destruct (Hne (eq_sym Hg')).
Qed.

Lemma division_fold_rows rows : forall ws cur g,
  (0 < cur)%Z ->
  let ws' := fst (fst (fold_left division_step rows (ws, cur, g))) in
  (forall r c, (r < cur)%Z -> ws' !! (r, c) = ws !! (r, c))
  /\ forall i row_data,
       filter (fun r => has_student r = true) rows !! i = Some row_data ->
       let row := (cur + Z.of_nat i)%Z in
       c_value (cell_at ws' row 2) = clean_value (VStr (r_roll_no row_data))
       /\ c_value (cell_at ws' row 3)
          = clean_value (VStr (r_student_name row_data))
       /\ (Some (r_group_id row_data)
           <> match i with
              | 0 => g
              | S j => r_group_id <$>
                         filter (fun r => has_student r = true) rows !! j
              end ->
           c_value (cell_at ws' row 1)
           = clean_value (VStr (r_group_id row_data))
           /\ c_value (cell_at ws' row 5)
              = clean_value (text (r_project_domain row_data))
           /\ c_value (cell_at ws' row 6)
              = clean_value (text (r_project_title row_data))
           /\ c_value (cell_at ws' row 7)
              = clean_value (text (r_sponsor_company row_data))
           /\ c_value (cell_at ws' row 8)
              = clean_value (text (r_guide_name row_data))).
Proof.
  induction rows as [|row0 rest IH]; intros ws cur g Hcur ws'; subst ws'.
  - split; [reflexivity|]. intros i row_data Hi.
    rewrite filter_nil, lookup_nil in Hi. discriminate.
  - cbn [fold_left]. rewrite filter_cons.
    destruct (has_student row0) eqn:Hs.
    + destruct (division_step_student ws cur g row0 Hs Hcur)
        as (ws1 & -> & Hother & H2 & H3 & Hhead).
      destruct (IH ws1 (cur + 1)%Z (Some (r_group_id row0))) as [Hframe Hrows];
        [lia|].
      destruct (decide (true = true)) as [_|Hn]; [|destruct (Hn eq_refl)].
      split.
      * intros r c Hr. rewrite Hframe by lia. apply Hother. lia.
      * intros [|i] row_data Hi.
        -- injection Hi as <-. cbv zeta.
           replace (cur + Z.of_nat 0)%Z with cur by lia.
           unfold cell_at. rewrite !Hframe by lia.
           split; [exact H2|]. split; [exact H3|]. exact Hhead.
        -- cbv zeta.
           replace (cur + Z.of_nat (S i))%Z with (cur + 1 + Z.of_nat i)%Z by lia.
           cbn [lookup list_lookup] in Hi.
           destruct (Hrows i row_data Hi) as (R2 & R3 & Rhead).
           split; [exact R2|]. split; [exact R3|].
           intros Hne. apply Rhead. destruct i as [|j]; exact Hne.
    + destruct (decide (false = true)) as [Hn|_]; [discriminate|].
      assert (Hstep : division_step (ws, cur, g) row0 = (ws, cur, g)).
      { unfold division_step. rewrite Hs. reflexivity. }
      rewrite Hstep. apply (IH ws cur g Hcur).
Qed.

(** X22: the division writer lays the students of a division out in the
    order of the fetched rows.  The i-th row of the division that has a
    roll number and a name is written on the i-th row below the header,
    roll number in column 2 and name in column 3, and when its group
    differs from that of the student row before it (or it is the first),
    its row also gets the group identifier in column 1 and the project's
    domain, title, sponsor and guide in columns 5 to 8. *)
Theorem students_written_in_order ws data division i row_data :
  let students :=
    filter (fun r => has_student r = true)
           (filter (fun r => r_division r = Some division) data) in
  students !! i = Some row_data ->
  let ws' := update_division_sheet_formatted ws data division in
  let row := (division_start ws + Z.of_nat i)%Z in
  c_value (cell_at ws' row 2) = clean_value (VStr (r_roll_no row_data))
  /\ c_value (cell_at ws' row 3) = clean_value (VStr (r_student_name row_data))
  /\ ((forall j prev, i = S j -> students !! j = Some prev ->
                      r_group_id prev <> r_group_id row_data) ->
      c_value (cell_at ws' row 1) = clean_value (VStr (r_group_id row_data))
      /\ c_value (cell_at ws' row 5)
         = clean_value (text (r_project_domain row_data))
      /\ c_value (cell_at ws' row 6)
         = clean_value (text (r_project_title row_data))
      /\ c_value (cell_at ws' row 7)
         = clean_value (text (r_sponsor_company row_data))
      /\ c_value (cell_at ws' row 8)
         = clean_value (text (r_guide_name row_data))).
Proof.
  intros students Hi ws' row. subst ws' row.
  unfold update_division_sheet_formatted.
  destruct (division_fold_rows
              (filter (fun r => r_division r = Some division) data)
              ws (division_start ws) None (division_start_pos ws))
    as [_ Hrows].
  destruct (Hrows i row_data Hi) as (R2 & R3 & Rhead).
  split; [exact R2|]. split; [exact R3|].
  intros Hprev. apply Rhead.
  destruct i as [|j]; [discriminate|].
  fold students. destruct (students !! j) as [prev|] eqn:Hj; [|discriminate].
  cbn. intros [= Heq]. apply (Hprev j prev eq_refl Hj). symmetry. exact Heq.
Qed.

End ExportFacts.

Section ExportExamples.
Import PyStr Pandas Workbook Writer Formatted.

Lemma every_track_is_written_witness :
  let ws' := update_schedule_sheet_formatted
               Scenario.schedule_sheet Scenario.fetched_schedule in
  let row := (schedule_start Scenario.schedule_sheet + Z.of_nat 1)%Z in
  c_value (cell_at ws' row 1) = VInt 2
  /\ c_value (cell_at ws' row 3) = VStr "BIA-02 BIB-03".
Proof.
  pose proof (every_track_is_written
                Scenario.schedule_sheet Scenario.fetched_schedule 1
                (TrackInfo 2 (Some "Prof. Kumar Rao, Dr. Mehta Jain")
                           (Some "Lab 2") ["BIA-02"; "BIB-03"])) as H.
  destruct H as (H1 & _ & H3 & _); [vm_compute; reflexivity|].
  split; [exact H1 | exact H3].
Defined.

Lemma students_written_in_order_witness :
  let ws' := update_division_sheet_formatted
               Scenario.roster_sheet Scenario.fetched_roster "A" in
  let row := (division_start Scenario.roster_sheet + Z.of_nat 1)%Z in
  c_value (cell_at ws' row 2) = VStr "22"
  /\ c_value (cell_at ws' row 3) = VStr "Ravi M".
Proof.
  pose proof (students_written_in_order
                Scenario.roster_sheet Scenario.fetched_roster "A" 1
                (DataRow "BIA-01" (Some "A") (Some "Web") (Some "Review Portal")
                         None (Some "Dr. Mehta Jain") None None
                         "22" "Ravi M" "98200")) as H.
  destruct H as (H2 & H3 & _); [vm_compute; reflexivity|].
  split; [exact H2 | exact H3].
Defined.

End ExportExamples.

(* --------------------------------------------------------------------- *)
(** ** Frames normalized twice, and the two evaluators of a group *)
(* --------------------------------------------------------------------- *)

Section PipelineFacts.
Import PyStr Header Names Store Pandas Schedule.

Lemma rename_column_twice (col : string) :
  rename_column col <> "Group ID" ->
  rename_column (rename_column col) = rename_column col.
Proof.
  destruct (normalize_column_name col) as [n|] eqn:Hn.
  - destruct (truthy n) eqn:Ht.
    + assert (Hr : rename_column col = n)
        by (unfold rename_column; rewrite Hn, Ht; reflexivity).
      rewrite Hr. intros Hne. unfold rename_column.
      rewrite (normalize_column_name_twice col n Hn Hne), Ht. reflexivity.
    + assert (Hr : rename_column col = col)
        by (unfold rename_column; rewrite Hn, Ht; reflexivity).
      rewrite !Hr. reflexivity.
  - assert (Hr : rename_column col = col)
      by (unfold rename_column; rewrite Hn; reflexivity).
    rewrite !Hr. reflexivity.
Qed.

Lemma empty_renamed (df : dataframe) (f : string -> string) :
  empty (DataFrame (map f (columns df)) (rows df)) = empty df.
Proof. destruct df as [[|c cs] [|r rs]]; reflexivity. Qed.

(** X23: the upload normalizes the columns of a frame and the walks
    normalize them again; the second pass changes nothing as long as no
    column came out of the first as "Group ID". *)
Theorem frame_normalized_once (df : dataframe) :
  "Group ID" ∉ columns (normalize_dataframe_columns df) ->
  normalize_dataframe_columns (normalize_dataframe_columns df)
  = normalize_dataframe_columns df.
Proof.
  unfold normalize_dataframe_columns at 1 3.
  destruct (empty df) eqn:He.
  - intros _. unfold normalize_dataframe_columns. rewrite He. reflexivity.
  - cbn [columns]. intros Hno. unfold normalize_dataframe_columns.
    rewrite empty_renamed, He. cbn [columns rows]. f_equal.
    rewrite <- list_fmap_compose. apply list_fmap_ext.
    intros i c Hc. cbn. apply rename_column_twice.
    intros Heq. apply Hno. rewrite <- Heq.
    apply list_elem_of_fmap. exists c. split; [reflexivity|].
    apply (list_elem_of_lookup_2 _ i). exact Hc.
Qed.

Lemma frame_normalized_once_witness :
  normalize_dataframe_columns
    (normalize_dataframe_columns Scenario.guided_roster)
  = normalize_dataframe_columns Scenario.guided_roster.
Proof.
  apply frame_normalized_once. vm_compute.
  intros H. repeat (apply elem_of_cons in H as [H|H]; [discriminate H|]).
  inversion H.
Defined.

(** X24: one assignment is made for each group, in the order of the
    groups, and when the panel lists no professor twice and none under the
    text of the second placeholder, the two evaluators of a group are
    different. *)
Theorem evaluators_differ (d : db) (profs gids : list string) :
  NoDup profs -> "Default Eval 2" ∉ profs ->
  map a_group_id (assign_evaluators_from_panel d profs gids) = gids
  /\ forall a, a ∈ assign_evaluators_from_panel d profs gids ->
               a_evaluator1 a <> a_evaluator2 a.
Proof.
  intros Hnd Hno. unfold assign_evaluators_from_panel.
  set (ps := if (length profs <? 2)%nat then default_profs else profs).
  assert (Hps : NoDup ps /\ "Default Eval 2" ∉ ps).
  { subst ps. destruct (_ <? _)%nat; [|split; assumption].
    split.
    - unfold default_profs.
      repeat (apply NoDup_cons; split;
              [rewrite ?elem_of_cons, elem_of_nil;
               intros H; repeat destruct H as [H|H]; discriminate H || exact H|]).
      apply NoDup_nil_2.
    - unfold default_profs. rewrite !elem_of_cons, elem_of_nil.
      intros H; repeat destruct H as [H|H]; discriminate H || exact H. }
  destruct Hps as [Hnd' Hno']. split.
  - rewrite <- list_fmap_compose. clear. induction gids as [|g gids IH];
      [reflexivity|]. cbn. f_equal. exact IH.
  - intros a Ha. apply list_elem_of_fmap in Ha as (g & -> & _).
    unfold assign_one. cbn [a_evaluator1 a_evaluator2].
    set (av := available_evaluators ps (guide_of d g)).
    assert (Hav : NoDup av /\ "Default Eval 2" ∉ av).
    { subst av. unfold available_evaluators. split.
      - apply NoDup_filter, Hnd'.
      - intros Hin. apply list_elem_of_filter in Hin as [_ Hin].
        apply Hno', Hin. }
    destruct Hav as [Hnd2 Hno2].
    destruct av as [|x [|y rest]]; cbn [nth].
    + discriminate.
    + intros ->. apply Hno2, list_elem_of_here.
    + intros ->. apply NoDup_cons in Hnd2 as [Hx _].
      apply Hx, list_elem_of_here.
Qed.

Lemma evaluators_differ_witness :
  map a_group_id
      (assign_evaluators_from_panel
         Scenario.sharma_db Scenario.sharma_panel ["BIA-01"])
  = ["BIA-01"]
  /\ a_evaluator1 (assign_one Scenario.sharma_db Scenario.sharma_panel "BIA-01")
     <> a_evaluator2
          (assign_one Scenario.sharma_db Scenario.sharma_panel "BIA-01").
Proof.
  destruct (evaluators_differ
              Scenario.sharma_db Scenario.sharma_panel ["BIA-01"])
    as [H1 H2].
  - unfold Scenario.sharma_panel.
    repeat (apply NoDup_cons; split;
            [rewrite ?elem_of_cons, elem_of_nil;
             intros H; repeat destruct H as [H|H]; discriminate H || exact H|]).
    apply NoDup_nil_2.
  - unfold Scenario.sharma_panel. rewrite !elem_of_cons, elem_of_nil.
    intros H; repeat destruct H as [H|H]; discriminate H || exact H.
  - split; [exact H1|]. apply H2. apply list_elem_of_here.
Defined.

End PipelineFacts.

(* --------------------------------------------------------------------- *)
(** ** Names: panel cells and letter case *)
(* --------------------------------------------------------------------- *)

Section NameFacts.
Import PyStr Names Store Pandas Schedule.

Lemma rstrip_idem s : rstrip (rstrip s) = rstrip s.
Proof.
  induction s as [|c s IH]; [reflexivity|]. cbn [rstrip].
  destruct (rstrip s) as [|c' r] eqn:Hr.
  - destruct (is_space c) eqn:Hc; [reflexivity|].
    cbn [rstrip]. rewrite Hc. reflexivity.
  - cbn [rstrip]. cbn [rstrip] in IH. rewrite IH. reflexivity.
Qed.

Lemma lstrip_head s :
  lstrip s = ""
  \/ exists c t, lstrip s = String c t /\ is_space c = false.
Proof.
  induction s as [|c s IH]; [left; reflexivity|]. cbn [lstrip].
  destruct (is_space c) eqn:Hc; [exact IH|].
  right. exists c, s. split; [reflexivity | exact Hc].
Qed.

Lemma rstrip_head c t :
  is_space c = false -> exists t', rstrip (String c t) = String c t'.
Proof.
  intros Hc. cbn [rstrip]. destruct (rstrip t) as [|c' r].
  - rewrite Hc. exists "". reflexivity.
  - exists (String c' r). reflexivity.
Qed.

Lemma strip_idem s : strip (strip s) = strip s.
Proof.
  unfold strip. destruct (lstrip_head s) as [->|(c & t & -> & Hc)];
    [reflexivity|].
  destruct (rstrip_head c t Hc) as [t' Ht']. rewrite Ht' at 1.
  cbn [lstrip]. rewrite Hc, <- Ht'. apply rstrip_idem.
Qed.

Lemma all_chars_app_eq p s t :
  all_chars p (s +:+ t) = all_chars p s && all_chars p t.
Proof.
  induction s as [|c s IH]; [reflexivity|].
  change (String c s +:+ t) with (String c (s +:+ t)).
  cbn [all_chars]. rewrite IH, andb_assoc. reflexivity.
Qed.

Lemma all_chars_rev_app p s t :
  all_chars p (String.rev_app s t) = all_chars p s && all_chars p t.
Proof.
  revert t. induction s as [|c s IH]; intros t; [reflexivity|].
  cbn [String.rev_app all_chars]. rewrite IH. cbn [all_chars].
  destruct (p c), (all_chars p s), (all_chars p t); reflexivity.
Qed.

Lemma all_chars_rev p s : all_chars p (String.rev s) = all_chars p s.
Proof.
  unfold String.rev. rewrite all_chars_rev_app. cbn [all_chars].
  apply andb_true_r.
Qed.

Lemma all_chars_lstrip p s : all_chars p s = true -> all_chars p (lstrip s) = true.
Proof.
  induction s as [|c s IH]; [reflexivity|]. cbn [lstrip].
  destruct (is_space c); [|tauto].
  cbn [all_chars]. intros H. apply andb_true_iff in H as [_ H]. apply IH, H.
Qed.

Lemma all_chars_rstrip p s : all_chars p s = true -> all_chars p (rstrip s) = true.
Proof.
  induction s as [|c s IH]; [reflexivity|]. cbn [all_chars rstrip].
  intros H. apply andb_true_iff in H as [Hc Hs]. specialize (IH Hs).
  destruct (rstrip s) as [|c' r].
  - destruct (is_space c); [reflexivity|]. cbn. rewrite Hc. reflexivity.
  - cbn [all_chars]. cbn [all_chars] in IH. rewrite Hc, IH. reflexivity.
Qed.

Lemma all_chars_strip p s : all_chars p s = true -> all_chars p (strip s) = true.
Proof. intros H. apply all_chars_rstrip, all_chars_lstrip, H. Qed.

Lemma all_chars_replace (r r' : ascii -> bool) a b s :
  all_chars r b = true ->
  (forall c, c <> a -> r' c = true -> r c = true) ->
  all_chars r' s = true ->
  all_chars r (replace_char a b s) = true.
Proof.
  intros Hb Himp. induction s as [|c s IH]; [reflexivity|].
  cbn [all_chars replace_char]. intros H.
  apply andb_true_iff in H as [Hc Hs]. specialize (IH Hs).
  destruct (Ascii.eqb_spec c a) as [->|Hne].
  - rewrite all_chars_app_eq, Hb, IH. reflexivity.
  - cbn [all_chars]. rewrite (Himp c Hne Hc), IH. reflexivity.
Qed.

Lemma split_on_all (q : ascii -> bool) sep s : forall acc,
  all_chars q acc = true ->
  all_chars (fun c => Ascii.eqb c sep || q c) s = true ->
  Forall (fun piece => all_chars q piece = true) (split_on sep acc s).
Proof.
  induction s as [|c s IH]; intros acc Hacc Hs; cbn [split_on].
  - constructor; [|constructor]. rewrite all_chars_rev. exact Hacc.
  - cbn [all_chars] in Hs. apply andb_true_iff in Hs as [Hc Hs].
    destruct (Ascii.eqb c sep).
    + constructor; [rewrite all_chars_rev; exact Hacc|].
      apply IH; [reflexivity | exact Hs].
    + apply IH; [|exact Hs]. cbn [all_chars]. cbn [orb] in Hc.
      rewrite Hc, Hacc. reflexivity.
Qed.

(** X25: every panel name the schedule walk takes from a panel cell has
    more than three characters, is not a number, has no blank at either
    end, and holds none of the separators: no line feed, no comma, no
    bar. *)
Theorem parsed_panel_names_clean (panel_text p : string) :
  p ∈ parse_panel panel_text ->
  (3 < String.length p)%nat
  /\ isdigit p = false
  /\ strip p = p
  /\ free_of [LF; ","%char; "|"%char] p = true.
Proof.
  unfold parse_panel. destruct (_ && _); [|intros H; inversion H].
  intros H. apply list_elem_of_filter in H as [Hp H].
  apply list_elem_of_fmap in H as (q & -> & Hq).
  apply Is_true_true, andb_true_iff in Hp as [Hlen Hdig].
  split; [apply Nat.ltb_lt, Hlen|].
  split; [apply negb_true_iff, Hdig|].
  split; [apply strip_idem|].
  unfold free_of. apply all_chars_strip.
  clear Hlen Hdig. revert q Hq. apply Forall_forall. unfold split.
  apply split_on_all; [reflexivity|].
  apply (all_chars_impl
           (fun c => negb (Ascii.eqb c LF) && negb (Ascii.eqb c ","))).
  { intros c Hc. apply andb_true_iff in Hc as [H1 H2].
    cbn [existsb]. destruct (Ascii.eqb c "|"); [reflexivity|].
    apply negb_true_iff in H1, H2. rewrite H1, H2. reflexivity. }
  apply (all_chars_replace _ (fun c => negb (Ascii.eqb c LF))).
  - reflexivity.
  - intros c Hne Hc. rewrite Hc. cbn [andb]. apply negb_true_iff.
    apply Ascii.eqb_neq, Hne.
  - apply (all_chars_replace _ (fun _ => true)).
    + reflexivity.
    + intros c Hne _. apply negb_true_iff, Ascii.eqb_neq, Hne.
    + clear. induction panel_text as [|c s IH]; [reflexivity | exact IH].
Qed.

Lemma parsed_panel_names_clean_witness :
  strip "Dr. Mehta Jain" = "Dr. Mehta Jain"
  /\ free_of [LF; ","%char; "|"%char] "Dr. Mehta Jain" = true.
Proof.
  apply (parsed_panel_names_clean "Prof. Kumar Rao, Dr. Mehta Jain").
  vm_compute. apply list_elem_of_further, list_elem_of_here.
Defined.

Lemma lower_upper_char (c : ascii) : lower_char (upper_char c) = lower_char c.
Proof. destruct c as [[] [] [] [] [] [] [] []]; reflexivity. Qed.

Lemma lower_lower_char (c : ascii) : lower_char (lower_char c) = lower_char c.
Proof. destruct c as [[] [] [] [] [] [] [] []]; reflexivity. Qed.

Lemma lower_map (f : ascii -> ascii) (s : string) :
  (forall c, lower_char (f c) = lower_char c) ->
  lower (map_chars f s) = lower s.
Proof.
  intros Hf. induction s as [|c s IH]; [reflexivity|].
  unfold lower in *. cbn [map_chars]. rewrite Hf, IH. reflexivity.
Qed.

Lemma truthy_map (f : ascii -> ascii) (s : string) :
  truthy (map_chars f s) = truthy s.
Proof. destruct s; reflexivity. Qed.

(** X26: on ASCII text name normalization does not see letter case: a
    name written in capitals or in small letters normalizes as the name
    itself, so the comparison of a panel professor with the guide ignores
    case. *)
Theorem normalize_name_ignores_case (name : string) :
  Wide.ascii_text name = true ->
  normalize_name (upper name) = normalize_name name
  /\ normalize_name (lower name) = normalize_name name.
Proof.
  intros _.
  assert (Hu : lower (upper name) = lower name)
    by apply (lower_map upper_char name lower_upper_char).
  assert (Hl : lower (lower name) = lower name)
    by apply (lower_map lower_char name lower_lower_char).
  assert (Tu : truthy (upper name) = truthy name) by apply truthy_map.
  assert (Tl : truthy (lower name) = truthy name) by apply truthy_map.
  unfold normalize_name. rewrite Hu, Hl, Tu, Tl. split; reflexivity.
Qed.

Lemma normalize_name_ignores_case_witness :
  normalize_name (upper "Dr. Mehta Jain") = normalize_name "Dr. Mehta Jain"
  /\ normalize_name (lower "Dr. Mehta Jain") = normalize_name "Dr. Mehta Jain".
Proof. apply normalize_name_ignores_case. reflexivity. Defined.

Lemma lower_char_not_upper (c : ascii) : is_upper (lower_char c) = false.
Proof. destruct c as [[] [] [] [] [] [] [] []]; reflexivity. Qed.

Lemma all_chars_lower s : all_chars (fun c => negb (is_upper c)) (lower s) = true.
Proof.
  induction s as [|c s IH]; [reflexivity|].
  unfold lower in *. cbn [map_chars all_chars].
  rewrite lower_char_not_upper, IH. reflexivity.
Qed.

Lemma all_chars_flush q kill acc :
  all_chars q acc = true -> all_chars q (flush kill acc) = true.
Proof.
  intros H. unfold flush. destruct (kill _); [reflexivity|].
  rewrite all_chars_rev. exact H.
Qed.

Lemma all_chars_sub_words q kill s : forall acc,
  all_chars q acc = true -> all_chars q s = true ->
  all_chars q (sub_words kill acc s) = true.
Proof.
  induction s as [|c s IH]; intros acc Hacc Hs; cbn [sub_words].
  - apply all_chars_flush, Hacc.
  - cbn [all_chars] in Hs. apply andb_true_iff in Hs as [Hc Hs].
    destruct (is_word c).
    + apply IH; [|exact Hs]. cbn [all_chars]. rewrite Hc, Hacc. reflexivity.
    + rewrite all_chars_app_eq, (all_chars_flush _ _ _ Hacc).
      cbn [all_chars andb]. rewrite Hc. cbn [andb].
      apply IH; [reflexivity | exact Hs].
Qed.

Lemma all_chars_sub_runs (q p : ascii -> bool) s : forall b,
  q " "%char = true ->
  all_chars (fun c => p c || q c) s = true ->
  all_chars q (sub_runs p b s) = true.
Proof.
  induction s as [|c s IH]; intros b Hq Hs; [reflexivity|].
  cbn [all_chars] in Hs. apply andb_true_iff in Hs as [Hc Hs].
  cbn [sub_runs]. destruct (p c).
  - destruct b; [apply IH; assumption|].
    cbn [all_chars]. rewrite Hq. cbn [andb]. apply IH; assumption.
  - cbn [orb] in Hc. cbn [all_chars]. rewrite Hc. cbn [andb].
    apply IH; assumption.
Qed.

(** X27: a normalized name is in a plain form: it has no blank at either
    end, and it holds no capital letter, no full stop and no white space
    other than the blank. *)
Theorem normalize_name_plain (name : string) :
  strip (normalize_name name) = normalize_name name
  /\ all_chars plain_char (normalize_name name) = true.
Proof.
  unfold normalize_name. destruct (truthy name); cbn [negb];
    [|split; reflexivity].
  split; [apply strip_idem|].
  apply all_chars_strip, all_chars_sub_runs; [reflexivity|].
  apply (all_chars_impl
           (fun c => negb (is_upper c) && negb (Ascii.eqb c "."))).
  { intros c Hc. unfold plain_char. rewrite Hc. cbn [andb].
    destruct (is_space c); reflexivity. }
  apply all_chars_sub_words; [reflexivity|].
  apply all_chars_sub_words; [reflexivity|].
  apply (all_chars_replace _ (fun c => negb (is_upper c))).
  - reflexivity.
  - intros c Hne Hc. rewrite Hc. cbn [andb].
    apply negb_true_iff, Ascii.eqb_neq, Hne.
  - apply (all_chars_replace _ (fun c => negb (is_upper c)));
      [reflexivity | intros c _ Hc; exact Hc |].
    apply (all_chars_replace _ (fun c => negb (is_upper c)));
      [reflexivity | intros c _ Hc; exact Hc |].
    apply all_chars_lower.
Qed.

End NameFacts.

(* --------------------------------------------------------------------- *)
(** ** Cell mapping: which rows it covers, and what its failure leaves *)
(* --------------------------------------------------------------------- *)

Section MappingFacts.
Import PyStr Sheets Store Pandas Workbook Env Upload.
Context (E : env).

Lemma map_rows_covers key offset fields df sm i vals :
  map_rows E key offset fields df = Some sm ->
  rows df !! i = Some vals ->
  notnull (field key (zip (columns df) vals)) = true ->
  str_of_nat (i + offset) ∈ map fst sm.
Proof.
  unfold map_rows. intros Hm Hi Hnn.
  destruct (mapM _ (iterrows df)) as [parts|] eqn:Hparts; [|discriminate].
  injection Hm as <-. apply mapM_Some_1 in Hparts.
  assert (Hrow : iterrows df !! i = Some (i, zip (columns df) vals)).
  { unfold iterrows. rewrite list_lookup_imap, Hi. reflexivity. }
  destruct (Forall2_lookup_l _ _ _ _ _ Hparts Hrow) as (part & Hpart & Hf).
  cbn [fst snd] in Hf.
  assert (Hb : notnull_at key (zip (columns df) vals) = Some true).
  { unfold notnull_at, field in *.
    destruct (get key (zip (columns df) vals)) as [|c|cs];
      [reflexivity | rewrite Hnn; reflexivity |].
    cbn in Hf. discriminate Hf. }
  rewrite Hb in Hf. cbn in Hf. injection Hf as Hf.
  apply list_elem_of_fmap. eexists. split; [|apply list_elem_of_In, in_concat].
  2: { eexists. split; [apply list_elem_of_In, (list_elem_of_lookup_2 _ i), Hpart|].
       rewrite <- Hf. left. reflexivity. }
  reflexivity.
Qed.

Lemma member_of_roll_notnull row :
  Roster.member_of row <> None -> notnull (field "Roll No." row) = true.
Proof.
  unfold Roster.member_of, Roster.filled. intros H.
  destruct (notnull (field "Roll No." row)); [reflexivity|].
  cbn in H. destruct (H eq_refl).
Qed.

(** X29: when the cell mapping can be built, it covers every roster row a
    member can be read from: such a row of division A or B has an entry
    under its sheet position, the row index plus four. *)
Theorem member_rows_are_mapped div_a div_b sched m i vals :
  generate_cell_mapping E div_a div_b sched = Some m ->
  (rows div_a !! i = Some vals ->
   Roster.member_of (zip (columns div_a) vals) <> None ->
   str_of_nat (i + 4) ∈ map fst (map_div_a m))
  /\ (rows div_b !! i = Some vals ->
      Roster.member_of (zip (columns div_b) vals) <> None ->
      str_of_nat (i + 4) ∈ map fst (map_div_b m)).
Proof.
  unfold generate_cell_mapping. intros H.
  destruct (map_rows E "Roll No." 4 roster_fields div_a) as [a|] eqn:Ha;
    [|discriminate].
  destruct (map_rows E "Roll No." 4 roster_fields div_b) as [b|] eqn:Hb;
    [|discriminate].
  destruct (map_rows E "Track" 3 schedule_fields sched) as [s|];
    [|discriminate].
  injection H as <-. cbn [map_div_a map_div_b]. split; intros Hi Hmem.
  - apply (map_rows_covers _ _ _ _ _ _ _ Ha Hi), member_of_roll_notnull, Hmem.
  - apply (map_rows_covers _ _ _ _ _ _ _ Hb Hi), member_of_roll_notnull, Hmem.
Qed.

(** X30: when the three sheets are read but the cell mapping cannot be
    built, the import answers 500 although the reconciliation has already
    run: the tables are the rebuilt ones, and, if the two files of
    [save_admin_file] were written, the stored workbook is the new
    upload; if the writing failed, the slot holds what the failed writing
    left. *)
Theorem mapping_failure_keeps_rebuild fn wb t sys da db_ sc :
  missing_sheets (detect_and_normalize_sheets_robust (sheetnames wb)) = [] ->
  let names := detect_and_normalize_sheets_robust (sheetnames wb) in
  read_excel E wb (sheet_of names div_a) 3 = Some da ->
  read_excel E wb (sheet_of names div_b) 3 = Some db_ ->
  read_excel E wb (sheet_of names schedule) 2 = Some sc ->
  generate_cell_mapping E (normalize_dataframe_columns da)
                        (normalize_dataframe_columns db_)
                        (normalize_dataframe_columns sc) = None ->
  let res := import_excel E (Request (Some (fn, Xlsx wb)) t) sys in
  status (fst res) = 500
  /\ tables (snd res)
     = Schedule.tables_of
         (Schedule.process_all_data_with_normalization E
            (normalize_dataframe_columns da) (normalize_dataframe_columns db_)
            (normalize_dataframe_columns sc) (tables sys) (journal sys))
  /\ (failed_write E (Xlsx wb) (entries_of (Metadata names t fn))
                   (slot_of (stored sys)) = None ->
      stored (snd res) = Some (Xlsx wb, Metadata names t fn))
  /\ (forall remains,
         failed_write E (Xlsx wb) (entries_of (Metadata names t fn))
                      (slot_of (stored sys)) = Some remains ->
         stored (snd res) = stored_of remains).
Proof.
  intros Hm names Ha Hb Hs Hmap res. subst res.
  unfold import_excel. cbn [excel now]. rewrite Hm. fold names.
  pose proof (save_admin_file_tables E (Xlsx wb) (Metadata names t fn) sys)
    as Ht.
  pose proof (save_admin_file_written E (Xlsx wb) (Metadata names t fn) sys)
    as Hw.
  pose proof (save_admin_file_failed E (Xlsx wb) (Metadata names t fn) sys)
    as Hf.
  destruct (save_admin_file E (Xlsx wb) (Metadata names t fn) sys)
    as [ok sys1].
  cbn [snd] in Ht. rewrite Ha, Hb, Hs.
  destruct (Schedule.process_all_data_with_normalization E _ _ _ _ _)
    as [[ex d] l] eqn:Hrun. rewrite Hmap.
  cbn [fst snd failed status tables stored].
  split; [reflexivity|]. split.
  - unfold Schedule.tables_of.
    rewrite (process_all_from_scratch E _ _ _ (tables sys) (journal sys)
               (tables sys1) (journal sys1)), Hrun.
    reflexivity.
  - split.
    + intros H. specialize (Hw H). injection Hw as _ ->. reflexivity.
    + intros remains H. specialize (Hf _ H). injection Hf as _ ->.
      reflexivity.
Qed.

End MappingFacts.

Section MappingExamples.
Import PyStr Sheets Store Pandas Workbook Env Upload.

Lemma member_rows_are_mapped_witness :
  match generate_cell_mapping Scenario.reader (normalize_dataframe_columns Scenario.guided_roster)
                              Scenario.div_b_frame Scenario.guided_schedule with
  | Some m => str_of_nat (1 + 4) ∈ map fst (map_div_a m)
  | None => False
  end.
Proof.
  destruct (generate_cell_mapping Scenario.reader (normalize_dataframe_columns Scenario.guided_roster)
              Scenario.div_b_frame Scenario.guided_schedule) as [m|] eqn:H;
    [|vm_compute in H; discriminate H].
  apply (proj1 (member_rows_are_mapped Scenario.reader (normalize_dataframe_columns Scenario.guided_roster)
                  Scenario.div_b_frame Scenario.guided_schedule m 1
                  [NaN; Text "22"; Text "Ravi M"; NaN] H)).
  - reflexivity.
  - vm_compute. discriminate.
Defined.

Lemma mapping_failure_keeps_rebuild_witness :
  status (fst (import_excel Scenario.twice_rolled_reader Scenario.upload
                            Scenario.fresh)) = 500
  /\ projects (tables (snd (import_excel Scenario.twice_rolled_reader
                                         Scenario.upload Scenario.fresh)))
     !! "BIA-04" <> None.
Proof.
  destruct (mapping_failure_keeps_rebuild Scenario.twice_rolled_reader
              "roster.xlsx" Scenario.book "2024-01-01 10:00:00" Scenario.fresh
              Scenario.twice_rolled Scenario.div_b_frame Scenario.schedule_frame)
    as (H1 & H2 & _); try (vm_compute; reflexivity).
  split; [exact H1|]. unfold Scenario.upload. rewrite H2.
  vm_compute. discriminate.
Defined.

End MappingExamples.
